(** * The asset transformation engine: Transformation, Pipeline, MutableAsset

    A shallow embedding of [Transformation.js] (the driver, the pipeline
    and [summarizeRequest]) and of [MutableAsset.addURLDependency] from
    [public/Asset.js].  Awaited code is sequential inside one request, so
    every [async] function is a computation in a monad that threads the
    object store, the caches and the list of recorded config requests,
    collects the calls made to plugins and collaborators as events, and
    propagates thrown errors.  Two promises are not awaited where they are
    made, that of [cache.get] in [readFromCache] and that of [cache.set]
    in [writeToCache]: the first is a value that is awaited later, the
    second a write that stays in flight.

    Beside the engine stand [registerCoreWithSerializer.js], the views
    of [public/Asset.js] with [assetToInternalAsset], the Babel
    transformer ([BabelTransformer.js]) as a plugin of the pipeline, and
    of the scope hoisting package the names and references of [utils.js]
    and the test for unused bindings of [shake.js]. *)

From Stdlib Require Import ZArith Ascii String List Lia.
From Stdlib.Strings Require Import Byte.
From stdpp Require Import base option gmap strings list.

Open Scope string_scope.
Open Scope Z_scope.
Open Scope list_scope.

(** ** Strings, paths and buffers *)

Definition FilePath := string.
Definition PackageName := string.
Definition Buffer := list byte.

(** [String.prototype.slice(start, end)] on a string of ASCII characters. *)
Definition js_index (len i : Z) : Z :=
  if i <? 0 then Z.max (len + i) 0 else Z.min i len.

Definition js_slice (s : string) (start stop : Z) : string :=
  let len := Z.of_nat (String.length s) in
  let from := js_index len start in
  let to := js_index len stop in
  String.substring (Z.to_nat from) (Z.to_nat (Z.max (to - from) 0)) s.

(** [s.slice(start)]: the end defaults to the length. *)
Definition js_slice_from (s : string) (start : Z) : string :=
  js_slice s start (Z.of_nat (String.length s)).

(** [Array.prototype.join] on strings. *)
Fixpoint js_join (sep : string) (l : list string) : string :=
  match l with
  | [] => ""
  | [x] => x
  | x :: rest => x +:+ sep +:+ js_join sep rest
  end.

(** Node's [path.extname] (posix), scanning the path from its last
    character. *)
Record ExtScan := {
  startDot : Z;
  startPart : Z;
  endPos : Z;
  matchedSlash : bool;
  preDotState : Z
}.

Definition ext_init : ExtScan :=
  {| startDot := -1; startPart := 0; endPos := -1;
     matchedSlash := true; preDotState := 0 |}.

Fixpoint extname_scan (path : string) (n : nat) (s : ExtScan) : ExtScan :=
  match n with
  | O => s
  | S i =>
    match String.get i path with
    | None => extname_scan path i s
    | Some c =>
      if Ascii.eqb c "/" then
        if negb (matchedSlash s)
        then {| startDot := startDot s; startPart := Z.of_nat i + 1;
                endPos := endPos s; matchedSlash := matchedSlash s;
                preDotState := preDotState s |}
        else extname_scan path i s
      else
        let s1 :=
          if endPos s =? -1
          then {| startDot := startDot s; startPart := startPart s;
                  endPos := Z.of_nat i + 1; matchedSlash := false;
                  preDotState := preDotState s |}
          else s in
        let s2 :=
          if Ascii.eqb c "."
          then
            if startDot s1 =? -1
            then {| startDot := Z.of_nat i; startPart := startPart s1;
                    endPos := endPos s1; matchedSlash := matchedSlash s1;
                    preDotState := preDotState s1 |}
            else if negb (preDotState s1 =? 1)
            then {| startDot := startDot s1; startPart := startPart s1;
                    endPos := endPos s1; matchedSlash := matchedSlash s1;
                    preDotState := 1 |}
            else s1
          else
            if negb (startDot s1 =? -1)
            then {| startDot := startDot s1; startPart := startPart s1;
                    endPos := endPos s1; matchedSlash := matchedSlash s1;
                    preDotState := -1 |}
            else s1 in
        extname_scan path i s2
    end
  end.

Definition extname (path : string) : string :=
  let s := extname_scan path (String.length path) ext_init in
  if (startDot s =? -1) || (endPos s =? -1) || (preDotState s =? 0)
     || ((preDotState s =? 1) && (startDot s =? endPos s - 1)
         && (startDot s =? startPart s + 1))
  then ""
  else js_slice path (startDot s) (endPos s).

(** ** Data model *)

(** The environment, source maps and metadata are opaque to the engine. *)
Definition Environment := string.
Definition SourceMap := string.
Definition Meta := string.
Definition ConfigValue := string.

(** An AST is tagged with its dialect and the dialect's version. *)
Record AST := {
  ast_type : string;
  ast_version : string;
  ast_program : string
}.

(** [Blob]: a string, a [Buffer], or a readable stream (re-opened from its
    path when it is read). *)
Inductive Blob :=
| BString (s : string)
| BBuffer (b : Buffer)
| BStream (path : FilePath).

(** A field of an object literal: absent, present with the value
    [undefined], or present with a value.  Reading an absent field gives
    [undefined] too, but only a present field overrides in a spread. *)
Inductive Field (A : Type) :=
| Absent
| Undefined
| Value (x : A).

Arguments Absent {A}.
Arguments Undefined {A}.
Arguments Value {A} x.

(** What reading the field gives. *)
Definition field_value {A} (f : Field A) : option A :=
  match f with
  | Value x => Some x
  | _ => None
  end.

(** [$Shape<DependencyOptions>]: every field may be absent. *)
Record DependencyOptions := {
  moduleSpecifier : Field string;
  isAsync : Field bool;
  isEntry : Field bool;
  isOptional : Field bool;
  isURL : Field bool;
  dep_env : Field Environment;
  dep_meta : Field Meta
}.

Record Dependency := {
  d_id : string;
  d_options : DependencyOptions;
  d_environment : Environment;
  d_sourceAssetId : string;
  d_sourcePath : FilePath
}.

Record File := {
  f_filePath : FilePath;
  f_hash : option string
}.

(** The internal asset ([InternalAsset]); the fields are those the
    constructor call in [loadAsset], [normalizeAssets], [finalize] and the
    views read or write. *)
Record Asset := {
  a_id : string;
  a_idBase : string;
  a_filePath : FilePath;
  a_type : string;
  a_content : Blob;
  a_ast : option AST;
  a_map : option SourceMap;
  a_hash : string;
  a_env : Environment;
  a_stats_time : Z;
  a_stats_size : Z;
  a_sideEffects : option bool;
  a_isIsolated : bool;
  a_meta : Meta;
  a_dependencies : list Dependency;
  a_connectedFiles : list File;
  a_symbols : list (string * string);
  a_outputHash : option string;
  a_frozen : bool
}.

Definition set_content (c : Blob) (a : Asset) : Asset :=
  {| a_id := a_id a; a_idBase := a_idBase a; a_filePath := a_filePath a;
     a_type := a_type a; a_content := c; a_ast := a_ast a; a_map := a_map a;
     a_hash := a_hash a; a_env := a_env a; a_stats_time := a_stats_time a;
     a_stats_size := a_stats_size a; a_sideEffects := a_sideEffects a;
     a_isIsolated := a_isIsolated a; a_meta := a_meta a;
     a_dependencies := a_dependencies a;
     a_connectedFiles := a_connectedFiles a; a_symbols := a_symbols a;
     a_outputHash := a_outputHash a; a_frozen := a_frozen a |}.

Definition set_ast (t : option AST) (a : Asset) : Asset :=
  {| a_id := a_id a; a_idBase := a_idBase a; a_filePath := a_filePath a;
     a_type := a_type a; a_content := a_content a; a_ast := t;
     a_map := a_map a;
     a_hash := a_hash a; a_env := a_env a; a_stats_time := a_stats_time a;
     a_stats_size := a_stats_size a; a_sideEffects := a_sideEffects a;
     a_isIsolated := a_isIsolated a; a_meta := a_meta a;
     a_dependencies := a_dependencies a;
     a_connectedFiles := a_connectedFiles a; a_symbols := a_symbols a;
     a_outputHash := a_outputHash a; a_frozen := a_frozen a |}.

Definition set_map (m : option SourceMap) (a : Asset) : Asset :=
  {| a_id := a_id a; a_idBase := a_idBase a; a_filePath := a_filePath a;
     a_type := a_type a; a_content := a_content a; a_ast := a_ast a;
     a_map := m;
     a_hash := a_hash a; a_env := a_env a; a_stats_time := a_stats_time a;
     a_stats_size := a_stats_size a; a_sideEffects := a_sideEffects a;
     a_isIsolated := a_isIsolated a; a_meta := a_meta a;
     a_dependencies := a_dependencies a;
     a_connectedFiles := a_connectedFiles a; a_symbols := a_symbols a;
     a_outputHash := a_outputHash a; a_frozen := a_frozen a |}.

Definition set_dependencies (ds : list Dependency) (a : Asset) : Asset :=
  {| a_id := a_id a; a_idBase := a_idBase a; a_filePath := a_filePath a;
     a_type := a_type a; a_content := a_content a; a_ast := a_ast a;
     a_map := a_map a;
     a_hash := a_hash a; a_env := a_env a; a_stats_time := a_stats_time a;
     a_stats_size := a_stats_size a; a_sideEffects := a_sideEffects a;
     a_isIsolated := a_isIsolated a; a_meta := a_meta a;
     a_dependencies := ds;
     a_connectedFiles := a_connectedFiles a; a_symbols := a_symbols a;
     a_outputHash := a_outputHash a; a_frozen := a_frozen a |}.

Definition set_committed (oh : string) (a : Asset) : Asset :=
  {| a_id := a_id a; a_idBase := a_idBase a; a_filePath := a_filePath a;
     a_type := a_type a; a_content := a_content a; a_ast := None;
     a_map := a_map a;
     a_hash := a_hash a; a_env := a_env a; a_stats_time := a_stats_time a;
     a_stats_size := a_stats_size a; a_sideEffects := a_sideEffects a;
     a_isIsolated := a_isIsolated a; a_meta := a_meta a;
     a_dependencies := a_dependencies a;
     a_connectedFiles := a_connectedFiles a; a_symbols := a_symbols a;
     a_outputHash := Some oh; a_frozen := true |}.

(** What a transformer can change through a [MutableAsset] view: the
    setters of the class ([ast], [type], [isIsolated], [setMap],
    [setBuffer]/[setCode]/[setStream], [addDependency],
    [addConnectedFile]) and the objects its getters hand out ([meta],
    [symbols]).  [view_merge old new] keeps every other field of the
    backing asset. *)
Definition view_merge (old new : Asset) : Asset :=
  {| a_id := a_id old; a_idBase := a_idBase old;
     a_filePath := a_filePath old;
     a_type := a_type new; a_content := a_content new; a_ast := a_ast new;
     a_map := a_map new;
     a_hash := a_hash old; a_env := a_env old;
     a_stats_time := a_stats_time old;
     a_stats_size := a_stats_size old; a_sideEffects := a_sideEffects old;
     a_isIsolated := a_isIsolated new; a_meta := a_meta new;
     a_dependencies := a_dependencies new;
     a_connectedFiles := a_connectedFiles new; a_symbols := a_symbols new;
     a_outputHash := a_outputHash old; a_frozen := a_frozen old |}.

(** [TransformerResult]: the descriptor of a child asset; [tr_content] is
    its [content] (or [code]). *)
Record TransformerResult := {
  tr_type : string;
  tr_content : Blob;
  tr_ast : option AST;
  tr_map : option SourceMap;
  tr_dependencies : list Dependency;
  tr_connectedFiles : list File;
  tr_env : option Environment;
  tr_isIsolated : option bool;
  tr_meta : option Meta
}.

Record GenerateOutput := {
  go_code : string;
  go_map : option SourceMap
}.

(** ** Errors and results *)

Inductive Error :=
| JsError (msg : string)
| TypeError (what : string)
| NullThrows
| AssertionError
| URIError
| AssetFrozenError
| ContentReadError (path : FilePath)
| HostError (msg : string)
| DanglingReference (r : nat).

Inductive Res (A : Type) :=
| Ok (a : A)
| Throw (e : Error).
Arguments Ok {A} a.
Arguments Throw {A} e.

Definition res_bind {A B} (x : Res A) (f : A -> Res B) : Res B :=
  match x with
  | Ok a => f a
  | Throw e => Throw e
  end.

(** ** The transformer contract *)

Definition ref := nat.
Definition ResolveFn := FilePath -> string -> Res FilePath.
Definition HookConfig := option ConfigValue.

(** A hook receives a view of the asset and may change it; it returns the
    asset as it left it together with its result, or throws.  [transform]
    returns result descriptors or the view it was given. *)
Inductive TransformOutput :=
| OutResult (res : TransformerResult)
| OutView.

Record Transformer := {
  t_getConfig : option (Asset -> ResolveFn -> Res (Asset * HookConfig));
  t_canReuseAST : option (AST -> Res bool);
  t_parse :
    option (Asset -> HookConfig -> ResolveFn -> Res (Asset * option AST));
  t_transform :
    Asset -> HookConfig -> ResolveFn -> Res (Asset * list TransformOutput);
  t_generate :
    option (Asset -> HookConfig -> ResolveFn -> Res (Asset * GenerateOutput));
  t_postProcess :
    option (list Asset -> HookConfig -> ResolveFn ->
            Res (list Asset * list TransformerResult))
}.

(** ** Configs *)

Record ConfigRequest := {
  cr_filePath : FilePath;
  cr_env : Environment;
  cr_plugin : option PackageName;
  cr_actionType : option string;
  cr_parcelConfigPath : option FilePath
}.

(** The part of a config a plugin's [rehydrateConfig] or [load] sees. *)
Record PlainConfig := {
  resultHash : string;
  devDeps : list (PackageName * string);
  rehydrate : bool;
  reload : bool;
  pluginResult : option ConfigValue
}.

Record LoadedPlugin := {
  pl_loadConfig : bool;
  pl_rehydrateConfig : option (PlainConfig -> Res PlainConfig);
  pl_load : option (PlainConfig -> Res PlainConfig)
}.

(** [ParcelConfig] as the driver uses it. *)
Record ParcelConfig := {
  resolvedPath : FilePath;
  loadPlugin : PackageName -> Res LoadedPlugin;
  getTransformerNames : FilePath -> Res (list PackageName);
  getTransformers : FilePath -> Res (list Transformer)
}.

(** A [Config]: [result] holds the [ParcelConfig] for the entry ['parcel']
    and the plugin's own value for the others. *)
Record Config := {
  c_plain : PlainConfig;
  c_parcel : option ParcelConfig
}.

(** [config.result]: nullish when neither is set. *)
Definition config_result_value (c : Config) : HookConfig :=
  match c_parcel c with
  | Some pc => Some (resolvedPath pc)
  | None => pluginResult (c_plain c)
  end.

(** [Map<PackageName, Config>] in insertion order. *)
Definition ConfigMap := list (PackageName * Config).

Fixpoint map_get (m : ConfigMap) (k : PackageName) : option Config :=
  match m with
  | [] => None
  | (k', v) :: rest => if String.eqb k' k then Some v else map_get rest k
  end.

Fixpoint map_set (m : ConfigMap) (k : PackageName) (v : Config) : ConfigMap :=
  match m with
  | [] => [(k, v)]
  | (k', v') :: rest =>
    if String.eqb k' k then (k', v) :: rest else (k', v') :: map_set rest k v
  end.

(** ** The request, the options and the collaborators *)

Record AssetRequest := {
  req_filePath : FilePath;
  req_code : option string;
  req_env : Environment;
  req_sideEffects : option bool
}.

(** [minify], [hot] and [scopeHoist], each possibly undefined. *)
Record ImpactfulOptions := {
  minify : option bool;
  hot : option bool;
  scopeHoist : option bool
}.

(** The object [getCacheKey] hashes. *)
Record AssetKeyInfo := {
  ki_filePath : FilePath;
  ki_hash : string;
  ki_type : string
}.

Record ConfigKeyInfo := {
  ki_resultHash : string;
  ki_devDeps : list (PackageName * string)
}.

Inductive JsObject :=
| CacheKeyObject (assets : list AssetKeyInfo) (configs : list ConfigKeyInfo)
                 (env : Environment) (impactfulOptions : ImpactfulOptions)
| OptionsObject (impactfulOptions : ImpactfulOptions).

(** Modelled from the spec: the cache is on disk and its operations are
    asynchronous.  How a lookup in the artifact cache comes out when a
    write of the same key is still in flight: the write has not reached
    the disk yet, it is half done, or it is complete. *)
Inductive Race :=
| NotStarted
| Torn
| Landed.

(** Everything the transformation is constructed with or imports from
    other packages: the request, [options.cache] ([false] only when the
    option is the boolean false), the impactful options, the input file
    system (a file is read as a sequence of chunks), the host's
    [loadConfig] callback, the resolver, the md5 helpers of
    [@parcel/utils], the identifiers the asset class derives, and the
    scheduling of the output file system ([race key n] for the [n]-th
    lookup of the run, when it meets a write of [key] in flight). *)
Record Host := {
  request : AssetRequest;
  parentNodeId : string;
  opt_cache : bool;
  opt_impactful : ImpactfulOptions;
  createReadStream : FilePath -> Res (list Buffer);
  loadConfigCallback : ConfigRequest -> string -> Res Config;
  resolveDependency : Environment -> FilePath -> string -> Res FilePath;
  md5 : Buffer -> string;
  md5FromObject : JsObject -> string;
  assetId : string -> string -> Environment -> string;
  childIdBase : string -> string -> string;
  childHash : Asset -> Blob -> string;
  outputHashOf : Blob -> string -> string;
  dependencyId : DependencyOptions -> Environment -> string -> string;
  race : string -> nat -> Race
}.

(** ** Store, events and the monad *)

Inductive Event :=
| EvReport (phase : string)
| EvCreateReadStream (path : FilePath)
| EvLoadConfig (req : ConfigRequest)
| EvLoadPlugin (name : PackageName)
| EvGetConfig (r : ref) (seen : Asset)
| EvCanReuseAST (ast : AST)
| EvGenerate (r : ref) (seen : Asset)
| EvParse (r : ref) (seen : Asset)
| EvTransform (r : ref) (seen : Asset)
| EvPostProcess (rs : list ref)
| EvGetCode (r : ref)
| EvCommit (r : ref) (optionsHash : string)
| EvCacheGet (key : string)
| EvCacheSet (key : string) (rs : list ref).

(** The objects of one run: the assets (a reference is an index in
    [heap]), the artifact cache, the blob cache and
    [this.configRequests].  [artifacts] holds every entry written so far.
    [Cache.set] is not awaited, so a write may still be in flight:
    [inflight] maps the key of such a write to what the cache held under
    it before.  [lookups] counts the calls of [Cache.get]. *)
Record State := {
  heap : list Asset;
  artifacts : gmap string (list Asset);
  inflight : gmap string (option (list Asset));
  lookups : nat;
  blobs : gmap string Blob;
  configRequests : list ConfigRequest
}.

Definition with_heap (hp : list Asset) (st : State) : State :=
  {| heap := hp; artifacts := artifacts st; inflight := inflight st;
     lookups := lookups st; blobs := blobs st;
     configRequests := configRequests st |}.

Definition with_artifacts (c : gmap string (list Asset)) (st : State) : State :=
  {| heap := heap st; artifacts := c; inflight := inflight st;
     lookups := lookups st; blobs := blobs st;
     configRequests := configRequests st |}.

Definition with_inflight (w : gmap string (option (list Asset))) (st : State)
    : State :=
  {| heap := heap st; artifacts := artifacts st; inflight := w;
     lookups := lookups st; blobs := blobs st;
     configRequests := configRequests st |}.

Definition with_lookups (n : nat) (st : State) : State :=
  {| heap := heap st; artifacts := artifacts st; inflight := inflight st;
     lookups := n; blobs := blobs st;
     configRequests := configRequests st |}.

Definition with_blobs (b : gmap string Blob) (st : State) : State :=
  {| heap := heap st; artifacts := artifacts st; inflight := inflight st;
     lookups := lookups st; blobs := b;
     configRequests := configRequests st |}.

Definition with_configRequests (l : list ConfigRequest) (st : State) : State :=
  {| heap := heap st; artifacts := artifacts st; inflight := inflight st;
     lookups := lookups st; blobs := blobs st;
     configRequests := l |}.

(** A computation returns or throws, leaves a store, and emits events. *)
Definition M (A : Type) : Type := State -> Res A * State * list Event.

Definition ret {A} (a : A) : M A := fun st => (Ok a, st, []).

Definition throw {A} (e : Error) : M A := fun st => (Throw e, st, []).

Definition bind {A B} (m : M A) (f : A -> M B) : M B :=
  fun st =>
    match m st with
    | (Ok a, st1, ev1) =>
      match f a st1 with
      | (r, st2, ev2) => (r, st2, ev1 ++ ev2)
      end
    | (Throw e, st1, ev1) => (Throw e, st1, ev1)
    end.

Notation "x <- c1 ;; c2" := (bind c1 (fun x => c2))
  (at level 100, c1 at next level, right associativity).
Notation "c1 ;; c2" := (bind c1 (fun _ => c2))
  (at level 100, right associativity).

Definition emit (e : Event) : M unit := fun st => (Ok tt, st, [e]).

Definition lift {A} (x : Res A) : M A :=
  match x with
  | Ok a => ret a
  | Throw e => throw e
  end.

Definition get_state : M State := fun st => (Ok st, st, []).
Definition put_state (st : State) : M unit := fun _ => (Ok tt, st, []).

Fixpoint mapM {A B} (f : A -> M B) (l : list A) : M (list B) :=
  match l with
  | [] => ret []
  | x :: rest =>
    y <- f x ;;
    ys <- mapM f rest ;;
    ret (y :: ys)
  end.

(** [Promise.all(list.map(f))] for an async [f]: every call is made, in
    the order of the list, also after one has failed; the first failure
    is the outcome. *)
Fixpoint promiseAll {A B} (f : A -> M B) (l : list A) : M (list B) :=
  match l with
  | [] => ret []
  | x :: rest =>
    fun st =>
      match f x st with
      | (y, st1, ev1) =>
        match promiseAll f rest st1 with
        | (ys, st2, ev2) =>
          (match y, ys with
           | Ok y', Ok ys' => Ok (y' :: ys')
           | Throw e, _ => Throw e
           | Ok _, Throw e => Throw e
           end, st2, ev1 ++ ev2)
        end
      end
  end.

(** [nullthrows]. *)
Definition nullthrows {A} (x : option A) : M A :=
  match x with
  | Some a => ret a
  | None => throw NullThrows
  end.

(** Reading and writing the object behind a reference. *)
Definition getAsset (r : ref) : M Asset :=
  fun st =>
    match heap st !! r with
    | Some a => (Ok a, st, [])
    | None => (Throw (DanglingReference r), st, [])
    end.

Definition setAsset (r : ref) (a : Asset) : M unit :=
  fun st => (Ok tt, with_heap (<[r := a]> (heap st)) st, []).

Definition modifyAsset (r : ref) (f : Asset -> Asset) : M unit :=
  a <- getAsset r ;; setAsset r (f a).

(** [new InternalAsset(...)]: a new object. *)
Definition allocAsset (a : Asset) : M ref :=
  fun st => (Ok (length (heap st)), with_heap (heap st ++ [a]) st, []).

(** A hook called with [new MutableAsset(asset)]: the event records the
    asset as the hook finds it; what the hook changed is written to the
    backing asset. *)
Definition callWithView {A} (r : ref) (ev : Asset -> Event)
    (hook : Asset -> Res (Asset * A)) : M A :=
  a <- getAsset r ;;
  emit (ev a) ;;
  out <- lift (hook a) ;;
  setAsset r (view_merge a (fst out)) ;;
  ret (snd out).

(** ** The asset class and the cache

    [Asset.js] and the [@parcel/cache] package are outside the files at
    hand; the operations the engine calls are given here. *)

Section Engine.

Variable h : Host.

(** Modelled from the spec: [createChildAsset] of the asset class (absent).
    The child is a new asset whose [idBase] combines the parent's id with
    the child's type; dependencies, connected files and the environment
    are inherited (the environment and the other flags unless the result
    sets them); type, content, ast and map come from the result. *)
Definition createChildAsset (parent : ref) (res : TransformerResult) : M ref :=
  p <- getAsset parent ;;
  let env := default (a_env p) (tr_env res) in
  let idb := childIdBase h (a_id p) (tr_type res) in
  allocAsset
    {| a_id := assetId h idb (tr_type res) env; a_idBase := idb;
       a_filePath := a_filePath p; a_type := tr_type res;
       a_content := tr_content res; a_ast := tr_ast res;
       a_map := tr_map res; a_hash := childHash h p (tr_content res);
       a_env := env; a_stats_time := 0; a_stats_size := a_stats_size p;
       a_sideEffects := a_sideEffects p;
       a_isIsolated := default (a_isIsolated p) (tr_isIsolated res);
       a_meta := default (a_meta p) (tr_meta res);
       a_dependencies := a_dependencies p;
       a_connectedFiles := a_connectedFiles p;
       a_symbols := a_symbols p; a_outputHash := None; a_frozen := false |}.

(** Modelled from the spec: [getCode] of the asset class (absent)
    materializes the content as a string, reading the file again when the
    content is a stream. *)
Definition getCode (r : ref) : M string :=
  a <- getAsset r ;;
  emit (EvGetCode r) ;;
  match a_content a with
  | BString s => ret s
  | BBuffer b => ret (string_of_list_byte b)
  | BStream path =>
    chunks <- lift (createReadStream h path) ;;
    ret (string_of_list_byte (concat chunks))
  end.

(** Modelled from the spec: [commit] of the asset class (absent) computes
    the output hash from the final content and the options hash, writes
    the content to the blob cache under it and freezes the asset; the AST
    is consumed: a committed asset carries none. *)
Definition commit (optionsHash : string) (r : ref) : M unit :=
  a <- getAsset r ;;
  emit (EvCommit r optionsHash) ;;
  let oh := outputHashOf h (a_content a) optionsHash in
  st <- get_state ;;
  put_state (with_blobs (<[oh := a_content a]> (blobs st)) st) ;;
  setAsset r (set_committed oh a).

(** Modelled from the spec: [addDependency] of the asset class (absent)
    appends a dependency record, which carries the asset's environment, to
    the asset's dependencies and returns its id; after commit it fails. *)
Definition addDependency (r : ref) (opts : DependencyOptions) : M string :=
  a <- getAsset r ;;
  if a_frozen a then throw AssetFrozenError
  else
    let dep :=
      {| d_id := dependencyId h opts (a_env a) (a_id a);
         d_options := opts; d_environment := a_env a;
         d_sourceAssetId := a_id a; d_sourcePath := a_filePath a |} in
    setAsset r (set_dependencies (a_dependencies a ++ [dep]) a) ;;
    ret (d_id dep).

(** Modelled from the spec: [Cache.get] and [Cache.set] (absent) are
    asynchronous.  What a lookup finds on the disk: the entry written
    last when no write of the key is in flight; otherwise the host's
    schedule decides between the entry from before the write, nothing (a
    half-written entry is a read error, which is a miss) and the entry
    written, with which the write is over. *)
Definition cache_read (key : string) (n : nat)
    : M (option (list Asset)) :=
  st <- get_state ;;
  match inflight st !! key with
  | None => ret (artifacts st !! key)
  | Some before =>
    match race h key n with
    | NotStarted => ret before
    | Torn => ret None
    | Landed =>
      put_state (with_inflight (delete key (inflight st)) st) ;;
      ret (artifacts st !! key)
    end
  end.

(** Modelled from the spec: awaiting the promise of [Cache.get] gives the
    records found as new objects, or null when there is no entry. *)
Definition cache_await (key : string) (n : nat) : M (option (list ref)) :=
  found <- cache_read key n ;;
  match found with
  | None => ret None
  | Some records => rs <- mapM allocAsset records ;; ret (Some rs)
  end.

(** Modelled from the spec: calling [Cache.get] begins the lookup and
    returns its promise. *)
Definition cache_get (key : string) : M (M (option (list ref))) :=
  emit (EvCacheGet key) ;;
  st <- get_state ;;
  put_state (with_lookups (S (lookups st)) st) ;;
  ret (cache_await key (lookups st)).

(** Modelled from the spec: calling [Cache.set] serializes the asset
    records and begins the write; the entry is in flight until a lookup
    finds it complete. *)
Definition cache_set (key : string) (assets : list ref) : M unit :=
  records <- mapM getAsset assets ;;
  emit (EvCacheSet key assets) ;;
  st <- get_state ;;
  put_state
    (with_inflight
       (match inflight st !! key with
        | Some _ => inflight st
        | None => <[key := artifacts st !! key]> (inflight st)
        end)
       (with_artifacts (<[key := records]> (artifacts st)) st)).

(** ** [summarizeRequest] *)

Definition BUFFER_LIMIT : Z := 5000000.

Record Summary := {
  s_content : Blob;
  s_hash : string;
  s_size : Z
}.

(** The variables [content] and [size] the tap closes over. *)
Record TapState := {
  tap_content : Blob;
  tap_size : Z
}.

(** The callback given to [TapStream].  When the size first exceeds the
    limit it calls [fs.createReadStream] for the content; that stream is
    not read here. *)
Definition tap (path : FilePath) (t : TapState) (buf : Buffer) : M TapState :=
  let size := tap_size t + Z.of_nat (length buf) in
  match tap_content t with
  | BBuffer content =>
    if size >? BUFFER_LIMIT
    then
      emit (EvCreateReadStream path) ;;
      ret {| tap_content := BStream path; tap_size := size |}
    else ret {| tap_content := BBuffer (content ++ buf); tap_size := size |}
  | other => ret {| tap_content := other; tap_size := size |}
  end.

(** Modelled from the spec: [TapStream] and [md5FromReadableStream] of
    [@parcel/utils] (absent).  Each chunk of the file is shown to the tap
    and passed on to the hasher, whose message grows by the chunk; the
    digest is taken at the end of the stream. *)
Fixpoint pipe_chunks (path : FilePath) (chunks : list Buffer)
    (acc : TapState * Buffer) : M (TapState * Buffer) :=
  match chunks with
  | [] => ret acc
  | buf :: rest =>
    t <- tap path (fst acc) buf ;;
    pipe_chunks path rest (t, snd acc ++ buf)
  end.

Definition pipe_stream (path : FilePath) (chunks : list Buffer)
    : M (TapState * Buffer) :=
  pipe_chunks path chunks ({| tap_content := BBuffer []; tap_size := 0 |}, []).

(** [md5FromString]. *)
Definition md5FromString (s : string) : string :=
  md5 h (list_byte_of_string s).

Definition summarizeRequest (req : AssetRequest) : M Summary :=
  match req_code req with
  | None =>
    emit (EvCreateReadStream (req_filePath req)) ;;
    chunks <- lift (createReadStream h (req_filePath req)) ;;
    out <- pipe_stream (req_filePath req) chunks ;;
    ret {| s_content := tap_content (fst out);
           s_hash := md5 h (snd out);
           s_size := tap_size (fst out) |}
  | Some code =>
    ret {| s_content := BString code;
           s_hash := md5FromString code;
           s_size := Z.of_nat (length (list_byte_of_string code)) |}
  end.

(** [Transformation.loadAsset]. *)
Definition loadAsset : M ref :=
  let req := request h in
  s <- summarizeRequest req ;;
  let idb :=
    match req_code req with
    | Some _ => s_hash s
    | None => req_filePath req
    end in
  let type := js_slice_from (extname (req_filePath req)) 1 in
  allocAsset
    {| a_id := assetId h idb type (req_env req); a_idBase := idb;
       a_filePath := req_filePath req; a_type := type;
       a_content := s_content s; a_ast := None; a_map := None;
       a_hash := s_hash s; a_env := req_env req; a_stats_time := 0;
       a_stats_size := s_size s; a_sideEffects := req_sideEffects req;
       a_isIsolated := false; a_meta := ""; a_dependencies := [];
       a_connectedFiles := []; a_symbols := []; a_outputHash := None;
       a_frozen := false |}.

(** ** The pipeline *)

Record TransformerWithNameAndConfig := {
  tn_name : PackageName;
  tn_plugin : option Transformer;
  tn_config : HookConfig
}.

(** The closure stored in [this.generate]: it holds the transformer, the
    config and the resolver of the call of [runTransformer] that made it. *)
Record GenerateFunc := {
  gf_transformer : Transformer;
  gf_config : HookConfig;
  gf_resolve : ResolveFn
}.

(** The closure stored in [this.postProcess]; it also holds the asset of
    that call, whose [createChildAsset] it uses. *)
Record PostProcessFunc := {
  pf_postProcess :
    list Asset -> HookConfig -> ResolveFn ->
    Res (list Asset * list TransformerResult);
  pf_config : HookConfig;
  pf_resolve : ResolveFn;
  pf_asset : ref
}.

Record Pipeline := {
  p_id : string;
  p_transformers : list TransformerWithNameAndConfig;
  p_configs : ConfigMap;
  p_generate : option GenerateFunc;
  p_postProcess : option PostProcessFunc
}.

Definition set_generate (g : GenerateFunc) (p : Pipeline) : Pipeline :=
  {| p_id := p_id p; p_transformers := p_transformers p;
     p_configs := p_configs p; p_generate := Some g;
     p_postProcess := p_postProcess p |}.

Definition set_postProcess (f : PostProcessFunc) (p : Pipeline) : Pipeline :=
  {| p_id := p_id p; p_transformers := p_transformers p;
     p_configs := p_configs p; p_generate := p_generate p;
     p_postProcess := Some f |}.

(** The constructor of [Pipeline]; both slots start out undefined. *)
Definition newPipeline (names : list PackageName)
    (plugins : list Transformer) (configs : ConfigMap) : M Pipeline :=
  let transformers :=
    imap (fun i name =>
            {| tn_name := name;
               tn_config := map_get configs name ≫= config_result_value;
               tn_plugin := plugins !! i |}) names in
  parcelConfig <- nullthrows (map_get configs "parcel") ;;
  nullthrows (config_result_value parcelConfig) ;;
  ret {| p_id := js_join ":" names; p_transformers := transformers;
         p_configs := configs; p_generate := None;
         p_postProcess := None |}.

(** Calling [this.generate]: the closure calls the transformer's
    [generate] when it has one and throws otherwise.  The event marks the
    call of the closure. *)
Definition no_generate_message : string :=
  "Asset has an AST but no generate method is available on the transform".

Definition callGenerate (g : GenerateFunc) (r : ref) : M GenerateOutput :=
  a <- getAsset r ;;
  emit (EvGenerate r a) ;;
  match t_generate (gf_transformer g) with
  | Some generate =>
    out <- lift (generate a (gf_config g) (gf_resolve g)) ;;
    setAsset r (view_merge a (fst out)) ;;
    ret (snd out)
  | None => throw (JsError no_generate_message)
  end.

(** [normalizeAssets]: a returned view becomes a result descriptor read
    from the asset behind it. *)
Definition resultOfAsset (a : Asset) : TransformerResult :=
  {| tr_type := a_type a; tr_content := a_content a; tr_ast := a_ast a;
     tr_map := a_map a; tr_dependencies := a_dependencies a;
     tr_connectedFiles := a_connectedFiles a; tr_env := Some (a_env a);
     tr_isIsolated := Some (a_isIsolated a); tr_meta := Some (a_meta a) |}.

Definition normalizeAssets (r : ref) (results : list TransformOutput)
    : M (list TransformerResult) :=
  mapM (fun result =>
          match result with
          | OutResult res => ret res
          | OutView => a <- getAsset r ;; ret (resultOfAsset a)
          end) results.

(** The steps of [runTransformer], in the order of its body. *)

(** Load config for the transformer. *)
Definition loadStageConfig (r : ref) (t : Transformer)
    (preloadedConfig : HookConfig) (resolve : ResolveFn) : M HookConfig :=
  match t_getConfig t with
  | Some getConfig =>
    callWithView r (EvGetConfig r) (fun a => getConfig a resolve)
  | None => ret preloadedConfig
  end.

(** If an ast exists on the asset, but we cannot reuse it, use the
    previous transform to generate code that we can re-parse. *)
Definition cannotReuse (t : Transformer) (ast : AST) : M bool :=
  match t_canReuseAST t with
  | None => ret true
  | Some canReuseAST =>
    emit (EvCanReuseAST ast) ;;
    b <- lift (canReuseAST ast) ;;
    ret (negb b)
  end.

Definition reconcileAST (p : Pipeline) (r : ref) (t : Transformer) : M unit :=
  a <- getAsset r ;;
  match a_ast a with
  | None => ret tt
  | Some ast =>
    cannot <- cannotReuse t ast ;;
    if cannot then
      match p_generate p with
      | Some generate =>
        output <- callGenerate generate r ;;
        modifyAsset r (fun a' =>
          set_ast None (set_content (BString (go_code output)) a'))
      | None => ret tt
      end
    else ret tt
  end.

(** Parse if there is no AST available from a previous transform. *)
Definition parseStage (r : ref) (t : Transformer) (config : HookConfig)
    (resolve : ResolveFn) : M unit :=
  a <- getAsset r ;;
  match a_ast a, t_parse t with
  | None, Some parse =>
    ast <- callWithView r (EvParse r) (fun a' => parse a' config resolve) ;;
    modifyAsset r (set_ast ast)
  | _, _ => ret tt
  end.

(** Transform. *)
Definition transformStage (r : ref) (t : Transformer) (config : HookConfig)
    (resolve : ResolveFn) : M (list TransformerResult) :=
  results <- callWithView r (EvTransform r)
               (fun a => t_transform t a config resolve) ;;
  normalizeAssets r results.

(** Create generate and postProcess functions that can be called later. *)
Definition remember (p : Pipeline) (r : ref) (t : Transformer)
    (config : HookConfig) (resolve : ResolveFn) : Pipeline :=
  let p1 :=
    set_generate {| gf_transformer := t; gf_config := config;
                    gf_resolve := resolve |} p in
  match t_postProcess t with
  | Some postProcess =>
    set_postProcess {| pf_postProcess := postProcess; pf_config := config;
                       pf_resolve := resolve; pf_asset := r |} p1
  | None => p1
  end.

Definition runTransformer (p : Pipeline) (r : ref)
    (transformer : option Transformer) (preloadedConfig : HookConfig)
    : M (Pipeline * list TransformerResult) :=
  match transformer with
  | None => throw (TypeError "transformer is undefined")
  | Some t =>
    a <- getAsset r ;;
    let resolve := resolveDependency h (a_env a) in
    config <- loadStageConfig r t preloadedConfig resolve ;;
    reconcileAST p r t ;;
    parseStage r t config resolve ;;
    results <- transformStage r t config resolve ;;
    ret (remember p r t config resolve, results)
  end.

(** [finalize]. *)
Definition finalize (generate : option GenerateFunc) (r : ref) : M ref :=
  a <- getAsset r ;;
  match a_ast a, generate with
  | Some _, Some g =>
    result <- callGenerate g r ;;
    modifyAsset r (fun a' =>
      set_map (go_map result) (set_content (BString (go_code result)) a')) ;;
    ret r
  | _, _ => ret r
  end.

(** The inner loop of [Pipeline.transform] over [inputAssets], for one
    transformer: it returns the pipeline, the assets it pushed to
    [finalAssets] and [resultingAssets]. *)
Fixpoint runStage (p : Pipeline) (initialType : string)
    (t : TransformerWithNameAndConfig) (inputAssets : list ref)
    : M (Pipeline * list ref * list ref) :=
  match inputAssets with
  | [] => ret (p, [], [])
  | r :: rest =>
    a <- getAsset r ;;
    if negb (String.eqb (a_type a) initialType) then
      out <- runStage p initialType t rest ;;
      ret (fst (fst out), r :: snd (fst out), snd out)
    else
      tr <- runTransformer p r (tn_plugin t) (tn_config t) ;;
      children <- mapM (createChildAsset r) (snd tr) ;;
      out <- runStage (fst tr) initialType t rest ;;
      ret (fst (fst out), snd (fst out), children ++ snd out)
  end.

(** The outer loop over [this.transformers]; [resultingAssets] is
    undefined until a transformer has run. *)
Fixpoint runStages (p : Pipeline) (initialType : string)
    (ts : list TransformerWithNameAndConfig) (inputAssets : list ref)
    (finalAssets : list ref) (resultingAssets : option (list ref))
    : M (Pipeline * list ref * option (list ref)) :=
  match ts with
  | [] => ret (p, finalAssets, resultingAssets)
  | t :: rest =>
    out <- runStage p initialType t inputAssets ;;
    runStages (fst (fst out)) initialType rest (snd out)
      (finalAssets ++ snd (fst out)) (Some (snd out))
  end.

(** [finalAssets.concat(resultingAssets)]: an undefined argument is
    appended as one element. *)
Definition concat_resulting (finalAssets : list ref)
    (resultingAssets : option (list ref)) : list (option ref) :=
  match resultingAssets with
  | Some l => map Some (finalAssets ++ l)
  | None => map Some finalAssets ++ [None]
  end.

(** The end of [Pipeline.transform]: every asset of
    [finalAssets.concat(resultingAssets)] is finalized with the closure
    remembered last. *)
Definition finishTransform (p : Pipeline) (finalAssets : list ref)
    (resultingAssets : option (list ref)) : M (Pipeline * list ref) :=
  assets <- promiseAll (fun asset => r <- nullthrows asset ;;
                                     finalize (p_generate p) r)
              (concat_resulting finalAssets resultingAssets) ;;
  ret (p, assets).

(** [Pipeline.transform]. *)
Definition Pipeline_transform (p : Pipeline) (initialAsset : ref)
    : M (Pipeline * list ref) :=
  a <- getAsset initialAsset ;;
  let initialType := a_type a in
  out <- runStages p initialType (p_transformers p) [initialAsset] [] None ;;
  finishTransform (fst (fst out)) (snd (fst out)) (snd out).

(** ** The driver *)

(** [this.loadConfig]: records the request, then asks the host. *)
Definition loadConfig (cr : ConfigRequest) : M Config :=
  st <- get_state ;;
  put_state (with_configRequests (configRequests st ++ [cr]) st) ;;
  emit (EvLoadConfig cr) ;;
  lift (loadConfigCallback h cr (parentNodeId h)).

(** [loadTransformerConfig]. *)
Definition loadTransformerConfig (filePath : FilePath) (plugin : PackageName)
    (parcelConfigPath : FilePath) : M Config :=
  loadConfig {| cr_filePath := filePath; cr_env := req_env (request h);
                cr_plugin := Some plugin; cr_actionType := None;
                cr_parcelConfigPath := Some parcelConfigPath |}.

Definition with_plain (c : Config) (pl : PlainConfig) : Config :=
  {| c_plain := pl; c_parcel := c_parcel c |}.

(** A method of a plugin that may be missing. *)
Definition callPluginMethod (f : option (PlainConfig -> Res PlainConfig))
    (c : Config) : M Config :=
  match f with
  | Some method => pl <- lift (method (c_plain c)) ;; ret (with_plain c pl)
  | None => throw (TypeError "plugin method is not a function")
  end.

(** The body of the loop over [config.devDeps] in [loadPipeline]. *)
Definition loadPluginConfig (parcelConfig : ParcelConfig)
    (filePath : FilePath) (configs : ConfigMap) (moduleName : PackageName)
    : M ConfigMap :=
  emit (EvLoadPlugin moduleName) ;;
  plugin <- lift (loadPlugin parcelConfig moduleName) ;;
  if pl_loadConfig plugin then
    thirdPartyConfig <-
      loadTransformerConfig filePath moduleName (resolvedPath parcelConfig) ;;
    thirdPartyConfig' <-
      (if rehydrate (c_plain thirdPartyConfig)
       then callPluginMethod (pl_rehydrateConfig plugin) thirdPartyConfig
       else if reload (c_plain thirdPartyConfig)
       then callPluginMethod (pl_load plugin) thirdPartyConfig
       else ret thirdPartyConfig) ;;
    ret (map_set configs moduleName thirdPartyConfig')
  else ret configs.

Fixpoint loadPluginConfigs (parcelConfig : ParcelConfig)
    (filePath : FilePath) (configs : ConfigMap)
    (moduleNames : list PackageName) : M ConfigMap :=
  match moduleNames with
  | [] => ret configs
  | moduleName :: rest =>
    configs' <- loadPluginConfig parcelConfig filePath configs moduleName ;;
    loadPluginConfigs parcelConfig filePath configs' rest
  end.

(** [loadPipeline]. *)
Definition loadPipeline (filePath : FilePath) : M Pipeline :=
  config <-
    loadConfig {| cr_filePath := filePath; cr_env := req_env (request h);
                  cr_plugin := None;
                  cr_actionType := Some "transformation";
                  cr_parcelConfigPath := None |} ;;
  nullthrows (config_result_value config) ;;
  match c_parcel config with
  | None => throw (TypeError "config.result is not a ParcelConfig")
  | Some parcelConfig =>
    configs <-
      loadPluginConfigs parcelConfig filePath [("parcel", config)]
        (map fst (devDeps (c_plain config))) ;;
    names <- lift (getTransformerNames parcelConfig filePath) ;;
    plugins <- lift (getTransformers parcelConfig filePath) ;;
    newPipeline names plugins configs
  end.

(** The synthetic path [loadNextPipeline] computes. *)
Definition nextFilePath (filePath : FilePath) (nextType : string) : FilePath :=
  js_slice filePath 0 (- Z.of_nat (String.length (extname filePath)))
  +:+ "." +:+ nextType.

(** [loadNextPipeline]. *)
Definition loadNextPipeline (filePath : FilePath) (nextType : string)
    (currentPipeline : Pipeline) : M (option Pipeline) :=
  nextPipeline <- loadPipeline (nextFilePath filePath nextType) ;;
  if String.eqb (p_id nextPipeline) (p_id currentPipeline)
  then ret None
  else ret (Some nextPipeline).

(** [getCacheKey]. *)
Definition assetKeyInfo (a : Asset) : AssetKeyInfo :=
  {| ki_filePath := a_filePath a; ki_hash := a_hash a; ki_type := a_type a |}.

Definition configKeyInfo (entry : PackageName * Config) : ConfigKeyInfo :=
  {| ki_resultHash := resultHash (c_plain (snd entry));
     ki_devDeps := devDeps (c_plain (snd entry)) |}.

Definition cacheKeyOf (assets : list Asset) (configs : ConfigMap) : string :=
  md5FromObject h
    (CacheKeyObject (map assetKeyInfo assets) (map configKeyInfo configs)
       (req_env (request h)) (opt_impactful h)).

Definition getCacheKey (assets : list ref) (configs : ConfigMap) : M string :=
  records <- mapM getAsset assets ;;
  ret (cacheKeyOf records configs).

(** [readFromCache]. *)
Definition cacheDisabled : bool :=
  negb (opt_cache h) || bool_decide (req_code (request h) <> None).

(** The call of [this.cache.get] is not awaited: [cachedAssets] is a
    promise, which is truthy, so [getCode] is called on the assets of the
    lookup whatever the cache holds; returning the promise from the async
    function awaits it. *)
Definition readFromCache (assets : list ref) (configs : ConfigMap)
    : M (option (list ref)) :=
  if cacheDisabled then ret None
  else
    cacheKey <- getCacheKey assets configs ;;
    cachedAssets <- cache_get cacheKey ;;
    promiseAll getCode assets ;;
    cachedAssets.

(** [writeToCache].  The commits are awaited; the promise of
    [this.cache.set] is dropped. *)
Definition writeToCache (assets : list ref) (configs : ConfigMap) : M unit :=
  cacheKey <- getCacheKey assets configs ;;
  promiseAll (commit (md5FromObject h (OptionsObject (opt_impactful h))))
    assets ;;
  cache_set cacheKey assets.

(** Calling [pipeline.postProcess]: the transformer's [postProcess] gets
    a view of every asset; each result becomes a child of the asset the
    closure holds. *)
Definition writeBack (entry : ref * (Asset * Asset)) : M unit :=
  setAsset (fst entry) (view_merge (fst (snd entry)) (snd (snd entry))).

Definition callPostProcess (f : PostProcessFunc) (assets : list ref)
    : M (option (list ref)) :=
  views <- mapM getAsset assets ;;
  emit (EvPostProcess assets) ;;
  out <- lift (pf_postProcess f views (pf_config f) (pf_resolve f)) ;;
  mapM writeBack (zip assets (zip views (fst out))) ;;
  children <- mapM (createChildAsset (pf_asset f)) (snd out) ;;
  ret (Some children).

(** [runPipeline], first part: the cache lookup for the initial asset,
    and the transformation when it misses. *)
Definition obtainAssets (pipeline : Pipeline) (initialAsset : ref)
    : M (Pipeline * list ref) :=
  initialCacheEntry <- readFromCache [initialAsset] (p_configs pipeline) ;;
  match initialCacheEntry with
  | Some assets => ret (pipeline, assets)
  | None =>
    out <- Pipeline_transform pipeline initialAsset ;;
    writeToCache (snd out) (p_configs pipeline) ;;
    ret out
  end.

(** [runPipeline], last part: the post-processing of the final assets. *)
Definition postProcessAssets (pipeline : Pipeline) (assets : list ref)
    (finalAssets : list ref) : M (list ref) :=
  match p_postProcess pipeline with
  | None => ret finalAssets
  | Some postProcess =>
    processedCacheEntry <- readFromCache finalAssets (p_configs pipeline) ;;
    match processedCacheEntry with
    | Some processedFinalAssets => ret processedFinalAssets
    | None =>
      processed <- callPostProcess postProcess assets ;;
      let processedFinalAssets := default [] processed in
      writeToCache processedFinalAssets (p_configs pipeline) ;;
      ret processedFinalAssets
    end
  end.

(** The recursion of [runPipeline] through [loadNextPipeline] need not
    end; a computation that runs out of fuel has no outcome. *)
Definition F (A : Type) : Type :=
  State -> option (Res A * State * list Event).

Definition total {A} (m : M A) : F A := fun st => Some (m st).

Definition fbind {A B} (m : F A) (f : A -> F B) : F B :=
  fun st =>
    match m st with
    | None => None
    | Some (Ok a, st1, ev1) =>
      match f a st1 with
      | None => None
      | Some (r, st2, ev2) => Some (r, st2, ev1 ++ ev2)
      end
    | Some (Throw e, st1, ev1) => Some (Throw e, st1, ev1)
    end.

(** The choice of the next pipeline for one asset of the loop. *)
Definition selectNextPipeline (pipeline : Pipeline) (initialAsset : ref)
    (initialType : string) (asset : ref) : M (option Pipeline) :=
  a <- getAsset asset ;;
  if negb (String.eqb (a_type a) initialType) then
    ia <- getAsset initialAsset ;;
    loadNextPipeline (a_filePath ia) (a_type a) pipeline
  else ret None.

(** [runPipeline], middle part: the loop over the assets. *)
Fixpoint dispatch (recur : Pipeline -> ref -> F (list ref))
    (pipeline : Pipeline) (initialAsset : ref) (initialType : string)
    (assets : list ref) (finalAssets : list ref) : F (list ref) :=
  match assets with
  | [] => total (ret finalAssets)
  | asset :: rest =>
    fbind (total (selectNextPipeline pipeline initialAsset initialType asset))
      (fun nextPipeline =>
         match nextPipeline with
         | Some next =>
           fbind (recur next asset) (fun nextPipelineAssets =>
             dispatch recur pipeline initialAsset initialType rest
               (finalAssets ++ nextPipelineAssets))
         | None =>
           dispatch recur pipeline initialAsset initialType rest
             (finalAssets ++ [asset])
         end)
  end.

(** [runPipeline]. *)
Fixpoint runPipeline (fuel : nat) (pipeline : Pipeline) (initialAsset : ref)
    : F (list ref) :=
  match fuel with
  | O => fun _ => None
  | S fuel' =>
    fbind (total (getAsset initialAsset)) (fun a =>
    let initialType := a_type a in
    fbind (total (obtainAssets pipeline initialAsset)) (fun out =>
    fbind (dispatch (runPipeline fuel') (fst out) initialAsset initialType
             (snd out) [])
      (fun finalAssets =>
         total (postProcessAssets (fst out) (snd out) finalAssets))))
  end.

(** [run]. *)
Definition run (fuel : nat) : F (list ref * list ConfigRequest) :=
  fbind (total (emit (EvReport "transforming") ;;
                asset <- loadAsset ;;
                a <- getAsset asset ;;
                pipeline <- loadPipeline (a_filePath a) ;;
                ret (pipeline, asset))) (fun pa =>
  fbind (runPipeline fuel (fst pa) (snd pa)) (fun assets =>
  total (st <- get_state ;; ret (assets, configRequests st)))).

(** ** [MutableAsset.addURLDependency] *)

(** The object [URL.parse] returns. *)
Record Url := {
  u_protocol : option string;
  u_slashes : option bool;
  u_auth : option string;
  u_host : option string;
  u_port : option string;
  u_hostname : option string;
  u_hash : option string;
  u_search : option string;
  u_query : option string;
  u_pathname : option string;
  u_path : option string;
  u_href : option string
}.

Definition set_pathname (pn : option string) (u : Url) : Url :=
  {| u_protocol := u_protocol u; u_slashes := u_slashes u;
     u_auth := u_auth u; u_host := u_host u; u_port := u_port u;
     u_hostname := u_hostname u; u_hash := u_hash u;
     u_search := u_search u; u_query := u_query u; u_pathname := pn;
     u_path := u_path u; u_href := u_href u |}.

(** [isURL] of [@parcel/utils], Node's [url] module and the global
    [decodeURIComponent]. *)
Record UrlLib := {
  isURL_util : string -> bool;
  URL_parse : string -> Res Url;
  URL_format : Url -> Res string;
  decodeURIComponent : string -> Res string
}.

Variable u : UrlLib.

(** [{...base, ...opts}]: a field present in [opts] wins, also when its
    value is [undefined]. *)
Definition overrides {A} (base over : Field A) : Field A :=
  match over with
  | Absent => base
  | _ => over
  end.

Definition spread (base opts : DependencyOptions) : DependencyOptions :=
  {| moduleSpecifier := overrides (moduleSpecifier base) (moduleSpecifier opts);
     isAsync := overrides (isAsync base) (isAsync opts);
     isEntry := overrides (isEntry base) (isEntry opts);
     isOptional := overrides (isOptional base) (isOptional opts);
     isURL := overrides (isURL base) (isURL opts);
     dep_env := overrides (dep_env base) (dep_env opts);
     dep_meta := overrides (dep_meta base) (dep_meta opts) |}.

Definition urlDependencyOptions (specifier : string) : DependencyOptions :=
  {| moduleSpecifier := Value specifier; isAsync := Value true;
     isEntry := Absent; isOptional := Absent; isURL := Value true;
     dep_env := Absent; dep_meta := Absent |}.

(** [addURLDependency] on the view of the asset [r]. *)
Definition addURLDependency (r : ref) (url : string)
    (opts : DependencyOptions) : M string :=
  if isURL_util u url then ret url
  else
    parsed <- lift (URL_parse u url) ;;
    match u_pathname parsed with
    | None => ret url
    | Some pathname =>
      specifier <- lift (decodeURIComponent u pathname) ;;
      id <- addDependency r (spread (urlDependencyOptions specifier) opts) ;;
      lift (URL_format u (set_pathname (Some id) parsed))
    end.

End Engine.

(** ** Vocabulary of the properties *)

(** The number of bytes of a sequence of chunks. *)
Definition total_bytes (chunks : list Buffer) : Z :=
  Z.of_nat (length (concat chunks)).

(** The asset behind [r] replaced by [a]. *)
Definition stored (r : ref) (a : Asset) (st : State) : State :=
  with_heap (<[r := a]> (heap st)) st.

(** The calls of [this.generate] among the events: the asset each was
    called on, as it was then. *)
Definition generate_calls (evs : list Event) : list (ref * Asset) :=
  flat_map (fun e =>
              match e with
              | EvGenerate r a => [(r, a)]
              | _ => []
              end) evs.

(** The stage cannot reuse the AST: it does not declare [canReuseAST], or
    [canReuseAST] returns false for it. *)
Definition cannot_reuse (t : Transformer) (ast : AST) : Prop :=
  t_canReuseAST t = None
  \/ exists canReuseAST,
       t_canReuseAST t = Some canReuseAST /\ canReuseAST ast = Ok false.

(** The event of asking a stage that declares [canReuseAST]. *)
Definition reuse_events (t : Transformer) (ast : AST) : list Event :=
  match t_canReuseAST t with
  | Some _ => [EvCanReuseAST ast]
  | None => []
  end.

(** The dependency [addDependency] appends for the options [o]. *)
Definition dependencyOf (h : Host) (a : Asset) (o : DependencyOptions)
    : Dependency :=
  {| d_id := dependencyId h o (a_env a) (a_id a); d_options := o;
     d_environment := a_env a; d_sourceAssetId := a_id a;
     d_sourcePath := a_filePath a |}.

(** [normalizeAssets] as a function of the asset behind the view. *)
Definition normalized (a : Asset) (outs : list TransformOutput)
    : list TransformerResult :=
  map (fun o =>
         match o with
         | OutResult res => res
         | OutView => resultOfAsset a
         end) outs.

(** The references are objects of the store. *)
Definition valid (st : State) (assets : list ref) : Prop :=
  Forall (fun r => (r < length (heap st))%nat) assets.

(** An outcome with [evs] emitted before it. *)
Definition after_events {A} (evs : list Event)
    (out : option (Res A * State * list Event))
    : option (Res A * State * list Event) :=
  match out with
  | Some (res, st, ev) => Some (res, st, evs ++ ev)
  | None => None
  end.

(** The path with its extension replaced by a type, as the specification
    words it: the stem, a dot, the type. *)
Definition replace_extension (stem type : string) : FilePath :=
  stem +:+ "." +:+ type.

(** The content of the asset can be read: when it is a stream, the file
    behind it opens. *)
Definition readable (h : Host) (a : Asset) : Prop :=
  forall path,
    a_content a = BStream path ->
    exists chunks, createReadStream h path = Ok chunks.

(** A computation that creates no object. *)
Definition keeps_size {A} (m : M A) : Prop :=
  forall st res st' ev,
    m st = (res, st', ev) -> length (heap st') = length (heap st).

(** ** Sample inputs *)

(** A host for the examples: the hashes are the serialized inputs. *)
Definition sampleKey (o : JsObject) : string :=
  match o with
  | CacheKeyObject assets _ env _ =>
    js_join "|"
      (map (fun k => ki_filePath k +:+ ":" +:+ ki_hash k +:+ ":" +:+ ki_type k)
         assets) +:+ "@" +:+ env
  | OptionsObject _ => "options"
  end.

Definition sampleHost (req : AssetRequest) (cache : bool)
    (fs : FilePath -> Res (list Buffer))
    (loadCfg : ConfigRequest -> string -> Res Config) : Host :=
  {| request := req; parentNodeId := "node0"; opt_cache := cache;
     opt_impactful := {| minify := None; hot := None; scopeHoist := None |};
     createReadStream := fs;
     loadConfigCallback := loadCfg;
     resolveDependency := fun _ from to => Ok to;
     md5 := string_of_list_byte;
     md5FromObject := sampleKey;
     assetId := fun idBase type env => idBase +:+ "." +:+ type;
     childIdBase := fun id type => id +:+ "/" +:+ type;
     childHash := fun _ content =>
       match content with
       | BString s => s
       | BBuffer b => string_of_list_byte b
       | BStream path => path
       end;
     outputHashOf := fun content optionsHash =>
       match content with
       | BString s => s +:+ "#" +:+ optionsHash
       | BBuffer b => string_of_list_byte b +:+ "#" +:+ optionsHash
       | BStream path => path +:+ "#" +:+ optionsHash
       end;
     dependencyId := fun opts env source =>
       source +:+ ":" +:+ default "" (field_value (moduleSpecifier opts));
     race := fun _ _ => Landed |}.

Definition noConfig (cr : ConfigRequest) (parent : string) : Res Config :=
  Throw (HostError "no config").

Definition emptyState : State :=
  {| heap := []; artifacts := ∅; inflight := ∅; lookups := 0%nat; blobs := ∅;
     configRequests := [] |}.

Definition fileRequest (path : FilePath) : AssetRequest :=
  {| req_filePath := path; req_code := None; req_env := "browser";
     req_sideEffects := None |}.

(** A file of 5,100,000 bytes, read in one chunk, and a short one. *)
Definition bigChunk : Buffer := repeat "x"%byte (Z.to_nat 5100000).
Definition bigFile : list Buffer := [bigChunk].
Definition smallFile : list Buffer :=
  [["h"; "e"]%byte; ["l"; "l"; "o"]%byte].

Definition bigFileHost : Host :=
  sampleHost (fileRequest "/src/big.bin") true (fun _ => Ok bigFile) noConfig.

Definition smallFileHost : Host :=
  sampleHost (fileRequest "/src/a.txt") true (fun _ => Ok smallFile) noConfig.

(** Two stages after [BabelTransformer.js]: [tsStage] parses and
    generates its own dialect; [babelStage] reuses only babel ASTs. *)
Definition tsAst : AST :=
  {| ast_type := "ts"; ast_version := "3.7.0"; ast_program := "T" |}.

Definition babelAst : AST :=
  {| ast_type := "babel"; ast_version := "7.4.0"; ast_program := "B" |}.

Definition tsStage : Transformer :=
  {| t_getConfig := None;
     t_canReuseAST := Some (fun ast => Ok (String.eqb (ast_type ast) "ts"));
     t_parse := Some (fun a _ _ => Ok (a, Some tsAst));
     t_transform := fun a _ _ => Ok (a, [OutView]);
     t_generate :=
       Some (fun a _ _ => Ok (a, {| go_code := "emitted by ts";
                                    go_map := None |}));
     t_postProcess := None |}.

Definition babelStage : Transformer :=
  {| t_getConfig := None;
     t_canReuseAST :=
       Some (fun ast => Ok (String.eqb (ast_type ast) "babel"));
     t_parse := Some (fun a _ _ => Ok (a, Some babelAst));
     t_transform := fun a _ _ => Ok (a, [OutView]);
     t_generate :=
       Some (fun a _ _ => Ok (a, {| go_code := "emitted by babel";
                                    go_map := None |}));
     t_postProcess := None |}.

(** A stage with [transform] only. *)
Definition plainStage : Transformer :=
  {| t_getConfig := None; t_canReuseAST := None; t_parse := None;
     t_transform := fun a _ _ => Ok (a, [OutView]);
     t_generate := None; t_postProcess := None |}.

Definition sampleAsset (path : FilePath) (type : string) (content : Blob)
    (ast : option AST) : Asset :=
  {| a_id := path; a_idBase := path; a_filePath := path; a_type := type;
     a_content := content; a_ast := ast; a_map := None; a_hash := "h0";
     a_env := "browser"; a_stats_time := 0; a_stats_size := 0;
     a_sideEffects := None; a_isIsolated := false; a_meta := "";
     a_dependencies := []; a_connectedFiles := []; a_symbols := [];
     a_outputHash := None; a_frozen := false |}.

Definition stateOf (assets : list Asset) : State :=
  {| heap := assets; artifacts := ∅; inflight := ∅; lookups := 0%nat;
     blobs := ∅; configRequests := [] |}.

Definition basicHost : Host :=
  sampleHost (fileRequest "/src/a.js") true (fun _ => Ok smallFile) noConfig.

Definition closureOf (t : Transformer) : GenerateFunc :=
  {| gf_transformer := t; gf_config := None;
     gf_resolve := resolveDependency basicHost "browser" |}.

Definition pipelineOf (names : list PackageName)
    (stages : list Transformer) (generate : option GenerateFunc) : Pipeline :=
  {| p_id := js_join ":" names;
     p_transformers :=
       imap (fun i name => {| tn_name := name; tn_plugin := stages !! i;
                              tn_config := None |}) names;
     p_configs := []; p_generate := generate; p_postProcess := None |}.

(** An asset that left [tsStage] with its AST. *)
Definition tsAsset : Asset :=
  sampleAsset "/src/a.js" "js" (BString "source") (Some tsAst).

(** Stand-ins for the URL helpers that agree with them on relative
    paths without escapes, query or fragment, and on a lone percent sign,
    which does not decode. *)
Definition relativeUrlLib : UrlLib :=
  {| isURL_util := fun s => String.prefix "http" s;
     URL_parse := fun s =>
       Ok {| u_protocol := None; u_slashes := None; u_auth := None;
             u_host := None; u_port := None; u_hostname := None;
             u_hash := None; u_search := None; u_query := None;
             u_pathname := Some s; u_path := Some s; u_href := Some s |};
     URL_format := fun parsed => Ok (default "" (u_pathname parsed));
     decodeURIComponent := fun s =>
       if String.eqb s "%" then Throw URIError else Ok s |}.

Definition noOptions : DependencyOptions :=
  {| moduleSpecifier := Absent; isAsync := Absent; isEntry := Absent;
     isOptional := Absent; isURL := Absent; dep_env := Absent;
     dep_meta := Absent |}.

(** [{isAsync: false}]. *)
Definition syncOptions : DependencyOptions :=
  {| moduleSpecifier := Absent; isAsync := Value false; isEntry := Absent;
     isOptional := Absent; isURL := Absent; dep_env := Absent;
     dep_meta := Absent |}.

(** [{isAsync: undefined}]. *)
Definition undefinedAsyncOptions : DependencyOptions :=
  {| moduleSpecifier := Absent; isAsync := Undefined; isEntry := Absent;
     isOptional := Absent; isURL := Absent; dep_env := Absent;
     dep_meta := Absent |}.

Definition cssAsset : Asset :=
  sampleAsset "/src/a.css" "css" (BString "body{}") None.

(** The same asset after [commit]. *)
Definition frozenCssAsset : Asset :=
  set_committed "body{}#options" cssAsset.

(** A stage whose [transform] returns no result. *)
Definition dropStage : Transformer :=
  {| t_getConfig := None; t_canReuseAST := None; t_parse := None;
     t_transform := fun a _ _ => Ok (a, []);
     t_generate := None; t_postProcess := None |}.

Definition stageOf (name : PackageName) (t : Transformer)
    : TransformerWithNameAndConfig :=
  {| tn_name := name; tn_plugin := Some t; tn_config := None |}.

Definition jsAsset : Asset :=
  sampleAsset "/src/a.js" "js" (BString "source") None.

(** A stage that keeps the assets marked in their metadata. *)
Definition selectStage : Transformer :=
  {| t_getConfig := None; t_canReuseAST := None; t_parse := None;
     t_transform := fun a _ _ =>
       Ok (a, if String.eqb (a_meta a) "keep" then [OutView] else []);
     t_generate := None; t_postProcess := None |}.

Definition keptAsset : Asset :=
  {| a_id := "/src/b.js"; a_idBase := "/src/b.js";
     a_filePath := "/src/b.js"; a_type := "js";
     a_content := BString "kept"; a_ast := None; a_map := None;
     a_hash := "h1"; a_env := "browser"; a_stats_time := 0;
     a_stats_size := 0; a_sideEffects := None; a_isIsolated := false;
     a_meta := "keep"; a_dependencies := []; a_connectedFiles := [];
     a_symbols := []; a_outputHash := None; a_frozen := false |}.

(** A stage that emits one new result. *)
Definition upperResult : TransformerResult :=
  {| tr_type := "js"; tr_content := BString "HELLO"; tr_ast := None;
     tr_map := None; tr_dependencies := []; tr_connectedFiles := [];
     tr_env := None; tr_isIsolated := None; tr_meta := None |}.

Definition upperStage : Transformer :=
  {| t_getConfig := None; t_canReuseAST := None; t_parse := None;
     t_transform := fun a _ _ => Ok (a, [OutResult upperResult]);
     t_generate := None; t_postProcess := None |}.

Definition upperPipeline : Pipeline :=
  pipelineOf ["upper"] [upperStage] None.

(** A store whose cache has an entry for [jsAsset]. *)
Definition cachedAsset : Asset :=
  sampleAsset "/src/a.js" "js" (BString "CACHED") None.

Definition hitState : State :=
  {| heap := [jsAsset];
     artifacts := {[ "/src/a.js:h0:js@browser" := [cachedAsset] ]};
     inflight := ∅; lookups := 0%nat; blobs := ∅; configRequests := [] |}.

(** The assets of an outcome, when there is one. *)
Definition assets_of {A} (out : Res (A * list ref) * State * list Event)
    : option (list ref) :=
  match fst (fst out) with
  | Ok x => Some (snd x)
  | Throw _ => None
  end.

(** A host whose disk is slow: a write in flight has never begun when a
    lookup meets it. *)
Definition slowDiskHost : Host :=
  {| request := request basicHost; parentNodeId := parentNodeId basicHost;
     opt_cache := opt_cache basicHost;
     opt_impactful := opt_impactful basicHost;
     createReadStream := createReadStream basicHost;
     loadConfigCallback := loadConfigCallback basicHost;
     resolveDependency := resolveDependency basicHost;
     md5 := md5 basicHost; md5FromObject := md5FromObject basicHost;
     assetId := assetId basicHost; childIdBase := childIdBase basicHost;
     childHash := childHash basicHost;
     outputHashOf := outputHashOf basicHost;
     dependencyId := dependencyId basicHost;
     race := fun _ _ => NotStarted |}.

(** A host with the cache option off. *)
Definition offHost : Host :=
  sampleHost (fileRequest "/src/a.js") false (fun _ => Ok smallFile) noConfig.

(** A [postProcess] that returns one new result. *)
Definition postResult : TransformerResult :=
  {| tr_type := "ts"; tr_content := BString "POST"; tr_ast := None;
     tr_map := None; tr_dependencies := []; tr_connectedFiles := [];
     tr_env := None; tr_isIsolated := None; tr_meta := None |}.

Definition postHook (assets : list Asset) (config : HookConfig)
    (resolve : ResolveFn) : Res (list Asset * list TransformerResult) :=
  Ok (assets, [postResult]).

Definition postClosure : PostProcessFunc :=
  {| pf_postProcess := postHook; pf_config := None;
     pf_resolve := resolveDependency basicHost "browser";
     pf_asset := 0%nat |}.

Definition postPipeline : Pipeline :=
  {| p_id := "post"; p_transformers := []; p_configs := [];
     p_generate := None; p_postProcess := Some postClosure |}.

(** The child [upperStage] creates for [jsAsset]. *)
Definition upperChild : Asset :=
  Eval vm_compute in
    default jsAsset
      (heap (snd (fst (createChildAsset basicHost 0%nat upperResult
                         (stateOf [jsAsset])))) !! 1%nat).

(** Three pipelines chosen by extension: [.ts] files are split into a
    [js] and a [ts] asset and post-processed, [.js] files go through
    [upperStage], and files without extension through a stage that emits
    a [js] asset. *)
Definition jsResult (content : string) : TransformerResult :=
  {| tr_type := "js"; tr_content := BString content; tr_ast := None;
     tr_map := None; tr_dependencies := []; tr_connectedFiles := [];
     tr_env := None; tr_isIsolated := None; tr_meta := None |}.

Definition tsResult (content : string) : TransformerResult :=
  {| tr_type := "ts"; tr_content := BString content; tr_ast := None;
     tr_map := None; tr_dependencies := []; tr_connectedFiles := [];
     tr_env := None; tr_isIsolated := None; tr_meta := None |}.

Definition splitStage : Transformer :=
  {| t_getConfig := None; t_canReuseAST := None; t_parse := None;
     t_transform := fun a _ _ =>
       Ok (a, [OutResult (jsResult "JS1"); OutResult (tsResult "TS2")]);
     t_generate := None; t_postProcess := Some postHook |}.

Definition makeStage : Transformer :=
  {| t_getConfig := None; t_canReuseAST := None; t_parse := None;
     t_transform := fun a _ _ => Ok (a, [OutResult (jsResult "all:")]);
     t_generate := None; t_postProcess := None |}.

(** A [ts] stage that hands its AST on with the [js] asset it emits. *)
Definition tsToJsStage : Transformer :=
  {| t_getConfig := None;
     t_canReuseAST := Some (fun ast => Ok (String.eqb (ast_type ast) "ts"));
     t_parse := Some (fun a _ _ => Ok (a, Some tsAst));
     t_transform := fun a _ _ =>
       Ok (a, [OutResult
                 {| tr_type := "js"; tr_content := a_content a;
                    tr_ast := a_ast a; tr_map := None;
                    tr_dependencies := []; tr_connectedFiles := [];
                    tr_env := None; tr_isIsolated := None;
                    tr_meta := None |}]);
     t_generate :=
       Some (fun a _ _ => Ok (a, {| go_code := "emitted by ts";
                                    go_map := None |}));
     t_postProcess := None |}.

Definition parcelConfigOf (tsStages jsStages : list (PackageName * Transformer))
    : ParcelConfig :=
  let stagesFor path :=
    if String.eqb (extname path) ".ts" then tsStages
    else if String.eqb (extname path) ".js" then jsStages
    else [("make", makeStage)] in
  {| resolvedPath := "/.parcelrc";
     loadPlugin := fun _ =>
       Ok {| pl_loadConfig := false; pl_rehydrateConfig := None;
             pl_load := None |};
     getTransformerNames := fun path => Ok (map fst (stagesFor path));
     getTransformers := fun path => Ok (map snd (stagesFor path)) |}.

Definition configOf (pc : ParcelConfig) (cr : ConfigRequest)
    (parent : string) : Res Config :=
  Ok {| c_plain := {| resultHash := "rc"; devDeps := [("make", "1.0.0")];
                      rehydrate := false; reload := false;
                      pluginResult := None |};
        c_parcel := Some pc |}.

Definition splitConfig : ParcelConfig :=
  parcelConfigOf [("ts-split", splitStage)] [("upper", upperStage)].

Definition astConfig : ParcelConfig :=
  parcelConfigOf [("ts", tsToJsStage)] [("babel", babelStage)].

Definition splitHost : Host :=
  sampleHost (fileRequest "/src/a.ts") true (fun _ => Ok smallFile)
    (configOf splitConfig).

Definition makefileHost : Host :=
  sampleHost (fileRequest "/proj/Makefile") true (fun _ => Ok smallFile)
    (configOf splitConfig).

(** The outcome of a run, when it ends: the assets returned, with type
    and content, and the events. *)
Definition run_summary (out : option (Res (list ref * list ConfigRequest)
                                      * State * list Event))
    : option (option (list (ref * string * Blob)) * list Event) :=
  match out with
  | None => None
  | Some (Ok (assets, _), st, evs) =>
    Some (Some (omap (fun r => match heap st !! r with
                               | Some a => Some (r, a_type a, a_content a)
                               | None => None
                               end) assets), evs)
  | Some (Throw _, _, evs) => Some (None, evs)
  end.

(** The events and the store of a run that ends. *)
Definition events_of {A} (out : option (Res A * State * list Event))
    : list Event :=
  match out with
  | Some (_, _, evs) => evs
  | None => []
  end.

Definition store_of {A} (out : option (Res A * State * list Event)) : State :=
  match out with
  | Some (_, st, _) => st
  | None => emptyState
  end.

(** A host with the cache option off whose [ts] pipeline hands its tree
    on with the [js] asset it emits. *)
Definition astOffHost : Host :=
  sampleHost (fileRequest "/src/a.ts") false (fun _ => Ok smallFile)
    (configOf astConfig).

(** What an event is, and what each [transform] saw. *)
Definition event_name (e : Event) : string :=
  match e with
  | EvReport _ => "report"
  | EvCreateReadStream path => "read " +:+ path
  | EvLoadConfig cr => "loadConfig " +:+ cr_filePath cr
  | EvLoadPlugin name => "loadPlugin " +:+ name
  | EvGetConfig _ _ => "getConfig"
  | EvCanReuseAST ast => "canReuseAST " +:+ ast_type ast
  | EvGenerate _ _ => "generate"
  | EvParse _ _ => "parse"
  | EvTransform _ a => "transform " +:+ a_type a
  | EvPostProcess _ => "postProcess"
  | EvGetCode _ => "getCode"
  | EvCommit _ _ => "commit"
  | EvCacheGet key => "get " +:+ key
  | EvCacheSet key _ => "set " +:+ key
  end.

Definition transforms_seen (evs : list Event)
    : list (ref * string * option AST) :=
  omap (fun e =>
          match e with
          | EvTransform r a => Some (r, a_type a, a_ast a)
          | _ => None
          end) evs.


(** The asset [createChildAsset] makes of a parent and a result. *)
Definition childOf (h : Host) (p : Asset) (res : TransformerResult) : Asset :=
  {| a_id :=
       assetId h (childIdBase h (a_id p) (tr_type res)) (tr_type res)
         (default (a_env p) (tr_env res));
     a_idBase := childIdBase h (a_id p) (tr_type res);
     a_filePath := a_filePath p; a_type := tr_type res;
     a_content := tr_content res; a_ast := tr_ast res;
     a_map := tr_map res; a_hash := childHash h p (tr_content res);
     a_env := default (a_env p) (tr_env res); a_stats_time := 0;
     a_stats_size := a_stats_size p;
     a_sideEffects := a_sideEffects p;
     a_isIsolated := default (a_isIsolated p) (tr_isIsolated res);
     a_meta := default (a_meta p) (tr_meta res);
     a_dependencies := a_dependencies p;
     a_connectedFiles := a_connectedFiles p;
     a_symbols := a_symbols p; a_outputHash := None; a_frozen := false |}.

(** What each [parse] found as the content of its asset. *)
Definition parses_seen (evs : list Event) : list (ref * Blob) :=
  omap (fun e =>
          match e with
          | EvParse r a => Some (r, a_content a)
          | _ => None
          end) evs.

(** The dialect of the AST each call of [this.generate] was made on. *)
Definition generates_seen (evs : list Event) : list (ref * option string) :=
  map (fun ra => (fst ra, ast_type <$> a_ast (snd ra))) (generate_calls evs).

(** The store a later transformation starts from: no objects of its own
    yet, the caches as the earlier run left them, every write complete. *)
Definition later_run (st : State) : State :=
  {| heap := []; artifacts := artifacts st; inflight := ∅;
     lookups := 0%nat; blobs := blobs st; configRequests := [] |}.

(** Code printed by a dialect's [generate] names the dialect of the AST
    it was given. *)
Definition printed (dialect : string) (a : Asset) : GenerateOutput :=
  {| go_code :=
       dialect +:+ " printer on a "
       +:+ default "missing" (ast_type <$> a_ast a) +:+ " tree";
     go_map := None |}.

(** A [ts] stage that emits two assets, each with the tree it parsed. *)
Definition fanStage : Transformer :=
  {| t_getConfig := None;
     t_canReuseAST := Some (fun ast => Ok (String.eqb (ast_type ast) "ts"));
     t_parse := Some (fun a _ _ => Ok (a, Some tsAst));
     t_transform := fun a _ _ =>
       Ok (a, [OutResult
                 {| tr_type := "js"; tr_content := BString "first";
                    tr_ast := a_ast a; tr_map := None;
                    tr_dependencies := []; tr_connectedFiles := [];
                    tr_env := None; tr_isIsolated := None;
                    tr_meta := None |};
               OutResult
                 {| tr_type := "js"; tr_content := BString "second";
                    tr_ast := a_ast a; tr_map := None;
                    tr_dependencies := []; tr_connectedFiles := [];
                    tr_env := None; tr_isIsolated := None;
                    tr_meta := None |}]);
     t_generate := Some (fun a _ _ => Ok (a, printed "ts" a));
     t_postProcess := None |}.

(** A [babel] stage that reuses only babel trees. *)
Definition babelPrinterStage : Transformer :=
  {| t_getConfig := None;
     t_canReuseAST :=
       Some (fun ast => Ok (String.eqb (ast_type ast) "babel"));
     t_parse := Some (fun a _ _ => Ok (a, Some babelAst));
     t_transform := fun a _ _ => Ok (a, [OutView]);
     t_generate := Some (fun a _ _ => Ok (a, printed "babel" a));
     t_postProcess := None |}.

Definition fanPipeline : Pipeline :=
  pipelineOf ["fan"; "babel"] [fanStage; babelPrinterStage] None.

(** A stage without [generate] that emits one asset without a tree and
    one with the tree it parsed. *)
Definition mixedStage : Transformer :=
  {| t_getConfig := None; t_canReuseAST := None;
     t_parse := Some (fun a _ _ => Ok (a, Some tsAst));
     t_transform := fun a _ _ =>
       Ok (a, [OutResult (jsResult "plain");
               OutResult
                 {| tr_type := "js"; tr_content := BString "with tree";
                    tr_ast := a_ast a; tr_map := None;
                    tr_dependencies := []; tr_connectedFiles := [];
                    tr_env := None; tr_isIsolated := None;
                    tr_meta := None |}]);
     t_generate := None; t_postProcess := None |}.

(** A stage that parses and has no [generate], and one that reuses every
    tree. *)
Definition parseOnlyStage : Transformer :=
  {| t_getConfig := None; t_canReuseAST := None;
     t_parse := Some (fun a _ _ => Ok (a, Some tsAst));
     t_transform := fun a _ _ => Ok (a, [OutView]);
     t_generate := None; t_postProcess := None |}.

Definition anyTreeStage : Transformer :=
  {| t_getConfig := None; t_canReuseAST := Some (fun _ => Ok true);
     t_parse := Some (fun a _ _ => Ok (a, Some babelAst));
     t_transform := fun a _ _ => Ok (a, [OutView]);
     t_generate := Some (fun a _ _ => Ok (a, printed "babel" a));
     t_postProcess := None |}.

(** [.js] files go through [parseOnlyStage] and then [anyTreeStage]. *)
Definition reuseHost : Host :=
  sampleHost (fileRequest "/src/a.js") true (fun _ => Ok smallFile)
    (configOf (parcelConfigOf []
                 [("parse-only", parseOnlyStage);
                  ("any-tree", anyTreeStage)])).

(** [splitConfig] for a [.js] file: the pipeline is [upperStage]. *)
Definition upperHost : Host :=
  sampleHost (fileRequest "/src/a.js") true (fun _ => Ok smallFile)
    (configOf splitConfig).


(** The asset lists [postProcess] was called with, and the assets
    [getCode] was called on. *)
Definition postProcess_calls (evs : list Event) : list (list ref) :=
  omap (fun e =>
          match e with
          | EvPostProcess rs => Some rs
          | _ => None
          end) evs.

Definition getCode_calls (evs : list Event) : list ref :=
  omap (fun e =>
          match e with
          | EvGetCode r => Some r
          | _ => None
          end) evs.

(** ** Invariants of a computation *)

(** Whatever the outcome, the stores before and after are related by [R]
    and every event emitted satisfies [P]. *)
Definition respects {A} (R : State -> State -> Prop) (P : Event -> Prop)
    (m : M A) : Prop :=
  forall st res st' ev, m st = (res, st', ev) -> R st st' /\ Forall P ev.

(** The same of a computation that may not end, when it ends. *)
Definition respectsF {A} (R : State -> State -> Prop) (P : Event -> Prop)
    (m : F A) : Prop :=
  forall st res st' ev,
    m st = Some (res, st', ev) -> R st st' /\ Forall P ev.

(** A call of [this.generate] finds an AST on the asset. *)
Definition generate_sees_ast (e : Event) : Prop :=
  match e with
  | EvGenerate _ a => a_ast a <> None
  | _ => True
  end.

(** The calls of a transformer's hooks during [Pipeline.transform]. *)
Definition hook_event (e : Event) : bool :=
  match e with
  | EvGetConfig _ _ | EvCanReuseAST _ | EvGenerate _ _
  | EvParse _ _ | EvTransform _ _ => true
  | _ => false
  end.

(** A lookup in the artifact cache. *)
Definition cache_lookup (e : Event) : bool :=
  match e with
  | EvCacheGet _ => true
  | _ => false
  end.

(** The caches and the recorded config requests are the same. *)
Definition same_caches (st st' : State) : Prop :=
  artifacts st' = artifacts st /\ blobs st' = blobs st
  /\ configRequests st' = configRequests st.

(** The config request [loadPipeline] makes for a path. *)
Definition parcelRequest (h : Host) (filePath : FilePath) : ConfigRequest :=
  {| cr_filePath := filePath; cr_env := req_env (request h);
     cr_plugin := None; cr_actionType := Some "transformation";
     cr_parcelConfigPath := None |}.

(** The config request [loadTransformerConfig] makes for a plugin. *)
Definition pluginRequest (h : Host) (filePath : FilePath)
    (plugin : PackageName) (parcelConfigPath : FilePath) : ConfigRequest :=
  {| cr_filePath := filePath; cr_env := req_env (request h);
     cr_plugin := Some plugin; cr_actionType := None;
     cr_parcelConfigPath := Some parcelConfigPath |}.

(** Between the two stores no recorded request was dropped, and those
    that were added satisfy [Q]. *)
Definition records_more (Q : ConfigRequest -> Prop) (st st' : State) : Prop :=
  exists more,
    configRequests st' = configRequests st ++ more /\ Forall Q more.

(** The assets created since the store had [n] objects. *)
Definition created_since (n : nat) (st' : State) (assets : list ref) : Prop :=
  Forall (fun c => (n <= c < length (heap st'))%nat) assets.


(** ** Registering the core's classes with the serializer

    [registerCoreWithSerializer.js].  The serializer of [@parcel/utils]
    and the classes themselves are outside the files at hand: the
    serializer's table [T] and [registerSerializableClass], which leaves a
    table whether it returns or throws, and the name each class declares
    are parameters. *)

(** The classes of the list, in its order. *)
Inductive CoreClass :=
| AssetClass
| AssetGraphClass
| ConfigClass
| BundleGraphClass
| ParcelConfigClass
| DependencyClass
| EnvironmentClass
| BundleReferenceClass
| RequestGraphClass.

Definition coreClasses : list CoreClass :=
  [AssetClass; AssetGraphClass; ConfigClass; BundleGraphClass;
   ParcelConfigClass; DependencyClass; EnvironmentClass;
   BundleReferenceClass; RequestGraphClass].

(** [packageJson.version]: a string or another JSON value; the module
    throws when it is loaded unless it is a string. *)
Inductive JsonValue :=
| JsonString (s : string)
| JsonOther.

Definition packageVersionOf (version : JsonValue) : Res string :=
  match version with
  | JsonString s => Ok s
  | JsonOther => Throw (JsError "Expected package version to be a string")
  end.

Record Serializer (T : Type) := {
  registerSerializableClass : string -> CoreClass -> T -> Res unit * T;
  ctor_name : CoreClass -> string
}.
Arguments registerSerializableClass {T} s name ctor table.
Arguments ctor_name {T} s ctor.

(** The module's variable [registered] and the serializer's table. *)
Record SerializerState (T : Type) := {
  registered : bool;
  table : T
}.
Arguments registered {T} s.
Arguments table {T} s.

(** A call of [registerSerializableClass]. *)
Definition Registration : Type := string * CoreClass.

(** The name a class is registered under. *)
Definition registeredName {T} (s : Serializer T) (packageVersion : string)
    (ctor : CoreClass) : string :=
  packageVersion +:+ ":" +:+ ctor_name s ctor.

(** [register]. *)
Definition register {T} (s : Serializer T) (packageVersion : string)
    (ctor : CoreClass) (t : T) : Res unit * T * list Registration :=
  (registerSerializableClass s (registeredName s packageVersion ctor) ctor t,
   [(registeredName s packageVersion ctor, ctor)]).

(** The loop over the classes. *)
Fixpoint registerEach {T} (s : Serializer T) (packageVersion : string)
    (ctors : list CoreClass) (t : T) : Res unit * T * list Registration :=
  match ctors with
  | [] => (Ok tt, t, [])
  | ctor :: rest =>
    match register s packageVersion ctor t with
    | (Ok _, t1, calls1) =>
      match registerEach s packageVersion rest t1 with
      | (res, t2, calls2) => (res, t2, calls1 ++ calls2)
      end
    | (Throw e, t1, calls1) => (Throw e, t1, calls1)
    end
  end.

(** [registerCoreWithSerializer]. *)
Definition registerCoreWithSerializer {T} (s : Serializer T)
    (packageVersion : string) (st : SerializerState T)
    : Res unit * SerializerState T * list Registration :=
  if registered st then (Ok tt, st, [])
  else
    match registerEach s packageVersion coreClasses (table st) with
    | (Ok _, t, calls) => (Ok tt, {| registered := true; table := t |}, calls)
    | (Throw e, t, calls) =>
      (Throw e, {| registered := false; table := t |}, calls)
    end.

(** Calling it again and again, as long as it returns. *)
Fixpoint registerRepeatedly {T} (s : Serializer T) (packageVersion : string)
    (n : nat) (st : SerializerState T)
    : Res unit * SerializerState T * list Registration :=
  match n with
  | O => (Ok tt, st, [])
  | S n' =>
    match registerCoreWithSerializer s packageVersion st with
    | (Ok _, st1, calls1) =>
      match registerRepeatedly s packageVersion n' st1 with
      | (res, st2, calls2) => (res, st2, calls1 ++ calls2)
      end
    | (Throw e, st1, calls1) => (Throw e, st1, calls1)
    end
  end.

(** ** Scope hoisting: names and references

    [scope-hoisting/src/utils.js].  [toIdentifier] and [identifier] are
    those of [@babel/types]. *)

(** A component of a name: ['default'] is kept as it is. *)
Definition nameComponent (toIdentifier : string -> string) (name : string)
    : string :=
  if String.eqb name "default" then name else toIdentifier name.

(** [getName(asset, type, ...rest)]; of the asset only its id is used. *)
Definition getName (toIdentifier : string -> string) (assetId : string)
    (type : string) (rest : list string) : string :=
  "$" +:+ toIdentifier assetId +:+ "$" +:+ type
  +:+ (match rest with
       | [] => ""
       | _ => "$" +:+ js_join "$" (map (nameComponent toIdentifier) rest)
       end).

(** An identifier node as [t.identifier] builds it. *)
Record IdentifierNode := {
  id_name : string
}.

Definition getIdentifier (toIdentifier : string -> string)
    (assetId : string) (type : string) (rest : list string)
    : IdentifierNode :=
  {| id_name := getName toIdentifier assetId type rest |}.

Definition getExportIdentifier (toIdentifier : string -> string)
    (assetId : string) (name : string) : IdentifierNode :=
  getIdentifier toIdentifier assetId "export" [name].

(** A node of the AST is an object, compared by identity; an identifier
    carries a name. *)
Record Node := {
  n_id : nat;
  n_name : string
}.

(** A path that refers to a binding, with what [shake.js] asks Babel
    about it: the binding a name resolves to in the path's scope (a
    binding is an object; it is named by a number), the kinds of its
    parent and grandparent, whether the grandparent's [left] is the
    parent, the name of the parent's callee when that is an identifier,
    whether the parent's first argument is the node, and the parent's
    second argument (absent, or with its name if it has one). *)
Record NodePath := {
  np_node : Node;
  np_getBinding : string -> option nat;
  np_parent_isMemberExpression : bool;
  np_grandparent_isAssignmentExpression : bool;
  np_grandparent_left_is_parent : bool;
  np_parent_isCallExpression : bool;
  np_parent_callee_name : option string;
  np_parent_first_argument_is_node : bool;
  np_parent_second_argument : option (option string)
}.

(** The path of a binding's declaration, with what [isPure] asks about
    it. *)
Record DeclarationPath := {
  dp_isVariableDeclarator : bool;
  dp_id_isIdentifier : bool;
  dp_init_isPure : bool;
  dp_init_isIdentifier : bool;
  dp_init_isThisExpression : bool;
  dp_isPure : bool
}.

(** Babel's [Binding]: its path, the paths that refer to it and the two
    counters [dereference] maintains. *)
Record Binding := {
  b_path : DeclarationPath;
  referencePaths : list NodePath;
  references : Z;
  referenced : bool
}.

(** What [scope.getBinding] answers, by name. *)
Abbreviation Scope := (gmap string Binding).

(** [Array.prototype.findIndex]: the first index whose element passes the
    test, or -1. *)
Fixpoint findIndex {A} (test : A -> bool) (l : list A) : Z :=
  match l with
  | [] => -1
  | x :: rest =>
    if test x then 0
    else
      let i := findIndex test rest in
      if i <? 0 then -1 else i + 1
  end.

(** [array.splice(i, 1)] for an index [i] that is not negative. *)
Definition splice1 {A} (i : Z) (l : list A) : list A :=
  take (Z.to_nat i) l ++ drop (S (Z.to_nat i)) l.

(** Babel's [binding.dereference()]: [this.references--;
    this.referenced = !!this.references]. *)
Definition dereference (b : Binding) : Binding :=
  {| b_path := b_path b;
     referencePaths := referencePaths b;
     references := references b - 1;
     referenced := negb (references b - 1 =? 0) |}.

Definition same_node (node : Node) (v : NodePath) : bool :=
  Nat.eqb (n_id (np_node v)) (n_id node).

(** [removeReference(node, scope)]. *)
Definition removeReference (node : Node) (scope : Scope) : Scope :=
  match scope !! n_name node with
  | Some binding =>
    let i := findIndex (same_node node) (referencePaths binding) in
    if i >=? 0 then
      let b := dereference binding in
      <[n_name node :=
          {| b_path := b_path b;
             referencePaths := splice1 i (referencePaths b);
             references := references b;
             referenced := referenced b |}]> scope
    else scope
  | None => scope
  end.

(** The walk of [removePathBindingRecursive]: the visitor calls
    [removeReference] on every identifier node [walkSimple] meets below
    [path.node], in the order of the walk. *)
Definition removeReferences (identifiers : list Node) (scope : Scope)
    : Scope :=
  fold_left (fun s node => removeReference node s) identifiers scope.

(** ** Tree shaking: which bindings are unused

    [scope-hoisting/src/shake.js]: [isPure], [isExportAssignment],
    [isUnusedWildcard] and [getUnusedBinding].  The bindings are the
    objects of a store; [getUnusedBinding] and [isUnusedWildcard] call
    each other, and the calls need not end. *)

(** [isPure(binding)]. *)
Definition isPure (binding : Binding) : bool :=
  let path := b_path binding in
  if dp_isVariableDeclarator path && dp_id_isIdentifier path
  then dp_init_isPure path || dp_init_isIdentifier path
       || dp_init_isThisExpression path
  else dp_isPure path.

(** [isExportAssignment(path)]: the parent of the path is a member
    expression, and that member expression is the left side of an
    assignment.  Whether the path is the object or the property of the
    member expression is not looked at. *)
Definition isExportAssignment (path : NodePath) : bool :=
  np_parent_isMemberExpression path
  && np_grandparent_isAssignmentExpression path
  && np_grandparent_left_is_parent path.

(** The first three conjuncts of [isUnusedWildcard(path)]: the path is
    the first argument of a call of [$parcel$exportWildcard]. *)
Definition isWildcardArgument (path : NodePath) : bool :=
  np_parent_isCallExpression path
  && bool_decide (np_parent_callee_name path = Some "$parcel$exportWildcard")
  && np_parent_first_argument_is_node path.

(** [array.some(test)] for a test that may throw or not end: the
    elements after the first that passes are not tested. *)
Fixpoint some_of {A} (test : A -> option (Res bool)) (l : list A)
    : option (Res bool) :=
  match l with
  | [] => Some (Ok false)
  | x :: rest =>
    match test x with
    | Some (Ok true) => Some (Ok true)
    | Some (Ok false) => some_of test rest
    | other => other
    end
  end.

(** [isUnusedWildcard(path)], given [getUnusedBinding]. *)
Definition isUnusedWildcard
    (getUnused : (string -> option nat) -> option string
                 -> option (Res (option nat)))
    (path : NodePath) : option (Res bool) :=
  if isWildcardArgument path then
    match np_parent_second_argument path with
    | None => Some (Throw (TypeError "Cannot read property 'name'"))
    | Some name =>
      match getUnused (np_getBinding path) name with
      | Some (Ok unused) => Some (Ok (negb (bool_decide (unused <> None))))
      | Some (Throw e) => Some (Throw e)
      | None => None
      end
    end
  else Some (Ok false).

(** The test of [bailout]: [!isExportAssignment(path) &&
    !isUnusedWildcard(path)]. *)
Definition isRealUse
    (getUnused : (string -> option nat) -> option string
                 -> option (Res (option nat)))
    (path : NodePath) : option (Res bool) :=
  if negb (isExportAssignment path) then
    match isUnusedWildcard getUnused path with
    | Some (Ok unusedWildcard) => Some (Ok (negb unusedWildcard))
    | other => other
    end
  else Some (Ok false).

(** [getUnusedBinding(path, name)], with the [getBinding] of the path's
    scope for the path: the binding if it is safe to remove, or null. *)
Fixpoint getUnusedBinding (fuel : nat) (bindings : list Binding)
    (getBinding : string -> option nat) (name : option string)
    : option (Res (option nat)) :=
  match fuel with
  | O => None
  | S fuel' =>
    match name ≫= getBinding with
    | None => Some (Ok None)
    | Some id =>
      match bindings !! id with
      | None => Some (Throw (DanglingReference id))
      | Some binding =>
        let pure := isPure binding in
        if negb (referenced binding) && pure then Some (Ok (Some id))
        else
          match some_of (isRealUse (getUnusedBinding fuel' bindings))
                  (referencePaths binding) with
          | Some (Ok bailout) =>
            if negb bailout && pure then Some (Ok (Some id))
            else Some (Ok None)
          | Some (Throw e) => Some (Throw e)
          | None => None
          end
      end
    end
  end.

(** ** The views of an asset

    [public/Asset.js]: the objects of the classes [BaseAsset], [Asset]
    and [MutableAsset], each with its private field [#asset], and the
    WeakMap [_assetToInternalAsset], whose keys are objects. *)

Inductive ViewClass :=
| BaseAssetView
| AssetView
| MutableAssetView.

Record View := {
  v_class : ViewClass;
  v_asset : ref
}.

(** An object is its index in [view_objects]; an index beyond the list
    stands for an object that is not a view. *)
Record Views := {
  view_objects : list View;
  weak_map : gmap nat ref
}.

Definition noViews : Views := {| view_objects := []; weak_map := ∅ |}.

(** [new BaseAsset(asset)], [new Asset(asset)], [new MutableAsset(asset)]:
    the constructor of [BaseAsset] enters the new object in the map. *)
Definition newView (c : ViewClass) (asset : ref) (vs : Views) : nat * Views :=
  let v := length (view_objects vs) in
  (v, {| view_objects := view_objects vs ++ [{| v_class := c;
                                                 v_asset := asset |}];
         weak_map := <[v := asset]> (weak_map vs) |}).

(** [assetToInternalAsset]. *)
Definition assetToInternalAsset (object : nat) (vs : Views) : Res ref :=
  match weak_map vs !! object with
  | Some asset => Ok asset
  | None => Throw NullThrows
  end.

(** The views made by a sequence of constructor calls. *)
Definition construct (calls : list (ViewClass * ref)) : Views :=
  fold_left (fun vs call => snd (newView (fst call) (snd call) vs)) calls
    noViews.

(** ** The Babel transformer

    [BabelTransformer.js].  [semver], [babel7], [@babel/generator],
    [relativeUrl], the source map class and the functions of [./config]
    are outside the files at hand. *)
Record BabelLib := {
  semver_satisfies : string -> string -> Res bool;
  has_babel_config : ConfigValue -> bool;
  babel7 : Asset -> HookConfig -> Res (Asset * option AST);
  relativeUrl : string -> FilePath -> string;
  babel_generate : string -> bool -> string -> Res (string * string);
  newSourceMap : string -> string -> SourceMap;
  config_rehydrate : PlainConfig -> Res PlainConfig;
  opt_projectRoot : string;
  opt_sourceMaps : bool
}.

(** [canReuseAST]: [semver.satisfies] is asked only for a babel AST, and
    may throw on a version it cannot read. *)
Definition babel_canReuseAST (b : BabelLib) (ast : AST) : Res bool :=
  if String.eqb (ast_type ast) "babel"
  then semver_satisfies b (ast_version ast) "^7.0.0"
  else Ok false.

(** [transform]: with a Babel config the asset gets the AST [babel7]
    returns; the asset is the only result. *)
Definition babel_transform (b : BabelLib) (asset : Asset)
    (config : HookConfig) (resolve : ResolveFn)
    : Res (Asset * list TransformOutput) :=
  match config with
  | Some c =>
    if has_babel_config b c then
      res_bind (babel7 b asset config) (fun out =>
        Ok (set_ast (snd out) (fst out), [OutView]))
    else Ok (asset, [OutView])
  | None => Ok (asset, [OutView])
  end.

(** [generate]: reading [asset.ast.program] fails without an AST. *)
Definition babel_generate_hook (b : BabelLib) (asset : Asset)
    (config : HookConfig) (resolve : ResolveFn)
    : Res (Asset * GenerateOutput) :=
  let sourceFileName := relativeUrl b (opt_projectRoot b) (a_filePath asset) in
  match a_ast asset with
  | None => Throw (TypeError "Cannot read property 'program' of null")
  | Some ast =>
    res_bind (babel_generate b (ast_program ast) (opt_sourceMaps b)
                sourceFileName)
      (fun generated =>
         Ok (asset,
             {| go_code := fst generated;
                go_map := Some (newSourceMap b (snd generated)
                                  sourceFileName) |}))
  end.

(** The transformer: no [getConfig], no [parse], no [postProcess]. *)
Definition BabelTransformer (b : BabelLib) : Transformer :=
  {| t_getConfig := None;
     t_canReuseAST := Some (babel_canReuseAST b);
     t_parse := None;
     t_transform := babel_transform b;
     t_generate := Some (babel_generate_hook b);
     t_postProcess := None |}.

(** The plugin as [loadPipeline] finds it: it has [loadConfig] and
    [rehydrateConfig], and no [load]. *)
Definition BabelPlugin (b : BabelLib) : LoadedPlugin :=
  {| pl_loadConfig := true;
     pl_rehydrateConfig := Some (config_rehydrate b);
     pl_load := None |}.

(** ** Vocabulary and samples for the serializer, the scope and Babel *)

(** The registrations of the classes, in the order of the list. *)
Definition registrationsOf {T} (s : Serializer T) (packageVersion : string)
    (ctors : list CoreClass) : list Registration :=
  map (fun ctor => (registeredName s packageVersion ctor, ctor)) ctors.

(** A serializer that keeps the names and refuses a name it has. *)
Definition sampleSerializer : Serializer (list string) :=
  {| registerSerializableClass := fun name ctor t =>
       if bool_decide (name ∈ t)
       then (Throw (JsError "Name already registered with serializer"), t)
       else (Ok tt, t ++ [name]);
     ctor_name := fun ctor =>
       match ctor with
       | AssetClass => "Asset"
       | AssetGraphClass => "AssetGraph"
       | ConfigClass => "Config"
       | BundleGraphClass => "BundleGraph"
       | ParcelConfigClass => "ParcelConfig"
       | DependencyClass => "Dependency"
       | EnvironmentClass => "Environment"
       | BundleReferenceClass => "BundleReference"
       | RequestGraphClass => "RequestGraph"
       end |}.

(** The list without the first element that passes the test. *)
Fixpoint remove_first {A} (test : A -> bool) (l : list A) : list A :=
  match l with
  | [] => []
  | x :: rest => if test x then rest else x :: remove_first test rest
  end.

(** The counters of a binding agree with its reference paths. *)
Definition counted (b : Binding) : Prop :=
  references b = Z.of_nat (length (referencePaths b))
  /\ referenced b = negb (references b =? 0).

Definition counts_consistent (scope : Scope) : Prop :=
  forall name b, scope !! name = Some b -> counted b.

(** A scope with one binding that two identifier nodes refer to. *)
Definition nodeX1 : Node := {| n_id := 1; n_name := "x" |}.
Definition nodeX2 : Node := {| n_id := 2; n_name := "x" |}.
Definition nodeY : Node := {| n_id := 3; n_name := "y" |}.

(** A path to a node in a place that tells nothing more. *)
Definition plainPath (node : Node) : NodePath :=
  {| np_node := node; np_getBinding := fun _ => None;
     np_parent_isMemberExpression := false;
     np_grandparent_isAssignmentExpression := false;
     np_grandparent_left_is_parent := false;
     np_parent_isCallExpression := false;
     np_parent_callee_name := None;
     np_parent_first_argument_is_node := false;
     np_parent_second_argument := None |}.

(** The declaration [var x = ...] with a pure initializer, or not. *)
Definition declarator (pure : bool) : DeclarationPath :=
  {| dp_isVariableDeclarator := true; dp_id_isIdentifier := true;
     dp_init_isPure := pure; dp_init_isIdentifier := false;
     dp_init_isThisExpression := false; dp_isPure := false |}.

Definition sampleBinding (paths : list NodePath) : Binding :=
  {| b_path := declarator true; referencePaths := paths;
     references := Z.of_nat (length paths);
     referenced := negb (Z.of_nat (length paths) =? 0) |}.

Definition sampleScope : Scope :=
  {[ "x" := sampleBinding [plainPath nodeX1; plainPath nodeX2] ]}.

(** [x.a = 1]: the reference to [x] is the object of an assigned
    member. *)
Definition exportAssignmentPath (node : Node) : NodePath :=
  {| np_node := node; np_getBinding := fun _ => None;
     np_parent_isMemberExpression := true;
     np_grandparent_isAssignmentExpression := true;
     np_grandparent_left_is_parent := true;
     np_parent_isCallExpression := false;
     np_parent_callee_name := None;
     np_parent_first_argument_is_node := false;
     np_parent_second_argument := None |}.

(** Two bindings: one only assigned to through its members, one read. *)
Definition shakeBindings : list Binding :=
  [sampleBinding [exportAssignmentPath nodeX1];
   sampleBinding [plainPath nodeY]].

Definition shakeScope (name : string) : option nat :=
  if String.eqb name "x" then Some 0%nat
  else if String.eqb name "y" then Some 1%nat
  else None.

(** Stand-ins for the libraries of the Babel transformer. *)
Definition sampleBabelLib : BabelLib :=
  {| semver_satisfies := fun version range =>
       Ok (String.prefix "7." version);
     has_babel_config := fun c => negb (String.eqb c "");
     babel7 := fun a config => Ok (a, Some babelAst);
     relativeUrl := fun root path => path;
     babel_generate := fun program sourceMaps name => Ok (program, "");
     newSourceMap := fun mappings name => name;
     config_rehydrate := fun c => Ok c;
     opt_projectRoot := "/";
     opt_sourceMaps := true |}.

(** A Parcel config whose plugin is the Babel transformer, and a host
    whose configs ask to be reloaded. *)
Definition babelParcelConfig : ParcelConfig :=
  {| resolvedPath := "/.parcelrc";
     loadPlugin := fun _ => Ok (BabelPlugin sampleBabelLib);
     getTransformerNames := fun _ => Ok ["babel"];
     getTransformers := fun _ => Ok [BabelTransformer sampleBabelLib] |}.

Definition reloadConfig (cr : ConfigRequest) (parent : string) : Res Config :=
  Ok {| c_plain := {| resultHash := "rc"; devDeps := [("babel", "7.0.0")];
                      rehydrate := false; reload := true;
                      pluginResult := None |};
        c_parcel := None |}.

Definition reloadHost : Host :=
  sampleHost (fileRequest "/src/a.js") true (fun _ => Ok smallFile)
    reloadConfig.

(** A reference that [getUnusedBinding] does not count as a use: one for
    which [isExportAssignment] holds, or the first argument of a call of
    [$parcel$exportWildcard]. *)
Definition discounted (path : NodePath) : Prop :=
  isExportAssignment path = true \/ isWildcardArgument path = true.

(** The pipeline is the same but for the closures it remembers, and a
    [postProcess] it had is not forgotten. *)
Definition same_pipeline (p p' : Pipeline) : Prop :=
  p_id p' = p_id p
  /\ p_transformers p' = p_transformers p
  /\ p_configs p' = p_configs p
  /\ (p_postProcess p <> None -> p_postProcess p' <> None).

(** * Properties *)

(** ** The monad *)

Lemma bind_ok {A B} (m : M A) (f : A -> M B) st a st1 ev1 :
  m st = (Ok a, st1, ev1) ->
  bind m f st = (let '(r, st2, ev2) := f a st1 in (r, st2, ev1 ++ ev2)).
Proof. intros E. unfold bind. rewrite E. reflexivity. Qed.

Lemma bind_throw {A B} (m : M A) (f : A -> M B) st e st1 ev1 :
  m st = (Throw e, st1, ev1) ->
  bind m f st = (Throw e, st1, ev1).
Proof. intros E. unfold bind. rewrite E. reflexivity. Qed.

Lemma bind_inv_ok {A B} (m : M A) (f : A -> M B) st (b : B) st' ev :
  bind m f st = (Ok b, st', ev) ->
  exists a st1 ev1 ev2,
    m st = (Ok a, st1, ev1) /\ f a st1 = (Ok b, st', ev2)
    /\ ev = ev1 ++ ev2.
Proof.
  unfold bind. destruct (m st) as [[[a|e] st1] ev1]; [|discriminate].
  destruct (f a st1) as [[res st2] ev2] eqn:Ef. intros H.
  inversion H; subst. exists a, st1, ev1, ev2. auto.
Qed.

Lemma bind_inv {A B} (m : M A) (f : A -> M B) st res st' ev :
  bind m f st = (res, st', ev) ->
  (exists a st1 ev1 ev2,
     m st = (Ok a, st1, ev1) /\ f a st1 = (res, st', ev2)
     /\ ev = ev1 ++ ev2)
  \/ (exists e, m st = (Throw e, st', ev) /\ res = Throw e).
Proof.
  unfold bind. destruct (m st) as [[[a|e] st1] ev1].
  - destruct (f a st1) as [[res2 st2] ev2] eqn:Ef. intros H.
    inversion H; subst. left. exists a, st1, ev1, ev2. auto.
  - intros H. inversion H; subst. right. exists e. auto.
Qed.

(** When no call fails, [promiseAll] is [mapM]. *)
Lemma promiseAll_mapM {A B} (f : A -> M B) (l : list A) st ys st' ev :
  mapM f l st = (Ok ys, st', ev) ->
  promiseAll f l st = (Ok ys, st', ev).
Proof.
  revert st ys st' ev. induction l as [|x l IH]; intros st ys st' ev H.
  - exact H.
  - simpl in H. apply bind_inv_ok in H.
    destruct H as (y & s1 & e1 & e2 & H1 & H & ->).
    apply bind_inv_ok in H.
    destruct H as (ys' & s2 & e3 & e4 & H2 & H & ->).
    inversion H; subst. simpl. rewrite H1, (IH _ _ _ _ H2).
    rewrite app_nil_r. reflexivity.
Qed.

Lemma promiseAll_ok_inv {A B} (f : A -> M B) (x : A) (l : list A)
    st ys st' ev :
  promiseAll f (x :: l) st = (Ok ys, st', ev) ->
  exists y ys' st1 ev1 ev2,
    f x st = (Ok y, st1, ev1)
    /\ promiseAll f l st1 = (Ok ys', st', ev2)
    /\ ys = y :: ys' /\ ev = ev1 ++ ev2.
Proof.
  simpl. destruct (f x st) as [[y st1] ev1] eqn:Ef.
  destruct (promiseAll f l st1) as [[ys' st2] ev2] eqn:El.
  destruct y as [y|e]; [|discriminate].
  destruct ys' as [ys'|e]; [|discriminate].
  intros H. inversion H; subst.
  exists y, ys', st1, ev1, ev2. auto.
Qed.

Lemma promiseAll_ext {A B} (f g : A -> M B) (l : list A) :
  (forall x st, f x st = g x st) ->
  forall st, promiseAll f l st = promiseAll g l st.
Proof.
  intros Hfg. induction l as [|x l IH]; intros st; [reflexivity|].
  simpl. rewrite Hfg. destruct (g x st) as [[y st1] ev1].
  rewrite IH. reflexivity.
Qed.

Lemma promiseAll_map {A B C} (f : B -> M C) (k : A -> B) (l : list A)
    (st : State) :
  promiseAll f (map k l) st = promiseAll (fun x => f (k x)) l st.
Proof.
  revert st. induction l as [|x l IH]; intros st; [reflexivity|].
  simpl. destruct (f (k x) st) as [[y st1] ev1].
  rewrite IH. reflexivity.
Qed.

(** ** Paths *)

Example extname_ts : extname "/src/app.ts" = ".ts".
Proof. reflexivity. Qed.
Example extname_two : extname "index.coffee.md" = ".md".
Proof. reflexivity. Qed.
Example extname_none : extname "/proj/Makefile" = "".
Proof. reflexivity. Qed.
Example extname_dotfile : extname "/proj/.babelrc" = "".
Proof. reflexivity. Qed.
Example extname_dotdir : extname "/proj.d/Makefile" = "".
Proof. reflexivity. Qed.
Example extname_trailing_dot : extname "index." = ".".
Proof. reflexivity. Qed.
Example extname_dotdot : extname ".." = "".
Proof. reflexivity. Qed.

(** ** [summarizeRequest] *)

Section Summarize.

Variable h : Host.

Lemma total_bytes_nil : total_bytes [] = 0.
Proof. reflexivity. Qed.

Lemma total_bytes_cons (c : Buffer) (cs : list Buffer) :
  total_bytes (c :: cs) = Z.of_nat (length c) + total_bytes cs.
Proof.
  unfold total_bytes. simpl. rewrite length_app. lia.
Qed.

Lemma total_bytes_nonneg (cs : list Buffer) : 0 <= total_bytes cs.
Proof. unfold total_bytes. lia. Qed.

Lemma total_bytes_take_le (cs : list Buffer) (n : nat) :
  total_bytes (take n cs) <= total_bytes cs.
Proof.
  revert n. induction cs as [|c cs IH]; intros [|n]; simpl.
  - lia.
  - lia.
  - rewrite total_bytes_nil. apply total_bytes_nonneg.
  - rewrite !total_bytes_cons. specialize (IH n). lia.
Qed.

(** Once the content is a stream the tap only counts. *)
Lemma pipe_stream_kept (path p : FilePath) (chunks : list Buffer)
    (size : Z) (msg : Buffer) (st : State) :
  pipe_chunks path chunks
    ({| tap_content := BStream p; tap_size := size |}, msg) st
  = (Ok ({| tap_content := BStream p;
            tap_size := size + total_bytes chunks |},
         msg ++ concat chunks), st, []).
Proof.
  revert size msg. induction chunks as [|c cs IH]; intros size msg.
  - simpl. rewrite total_bytes_nil, Z.add_0_r, app_nil_r. reflexivity.
  - cbn [pipe_chunks fst snd tap tap_content tap_size].
    unfold bind at 1. unfold ret at 1.
    rewrite IH.
    rewrite total_bytes_cons, Z.add_assoc, <- app_assoc. reflexivity.
Qed.

(** While the content is a buffer that fits, it holds every byte read;
    the first chunk that takes the size over the limit replaces it by a
    stream, for which the file is opened once more. *)
Lemma pipe_stream_buffer (path : FilePath) (chunks : list Buffer)
    (content : Buffer) (size : Z) (msg : Buffer) (st : State) :
  size <= BUFFER_LIMIT ->
  pipe_chunks path chunks
    ({| tap_content := BBuffer content; tap_size := size |}, msg) st
  = (Ok ({| tap_content :=
              if size + total_bytes chunks >? BUFFER_LIMIT
              then BStream path
              else BBuffer (content ++ concat chunks);
            tap_size := size + total_bytes chunks |},
         msg ++ concat chunks), st,
     if size + total_bytes chunks >? BUFFER_LIMIT
     then [EvCreateReadStream path]
     else []).
Proof.
  revert content size msg.
  induction chunks as [|c cs IH]; intros content size msg Hsize.
  - simpl. rewrite total_bytes_nil, Z.add_0_r, !app_nil_r.
    destruct (Z.gtb_spec size BUFFER_LIMIT) as [Hgt|_]; [lia|reflexivity].
  - rewrite total_bytes_cons, Z.add_assoc.
    pose proof (total_bytes_nonneg cs) as Hcs.
    destruct (Z.gtb_spec (size + Z.of_nat (length c)) BUFFER_LIMIT)
      as [Hgt|Hle].
    + assert (Hstep :
        pipe_chunks path (c :: cs)
          ({| tap_content := BBuffer content; tap_size := size |}, msg) st
        = match pipe_chunks path cs
                  ({| tap_content := BStream path;
                      tap_size := size + Z.of_nat (length c) |}, msg ++ c) st
          with
          | (res, st', ev) => (res, st', EvCreateReadStream path :: ev)
          end).
      { cbn [pipe_chunks fst snd tap tap_content tap_size].
        destruct (Z.gtb_spec (size + Z.of_nat (length c)) BUFFER_LIMIT)
          as [_|Hle]; [|lia].
        unfold bind, emit, ret.
        destruct (pipe_chunks path cs _ st) as [[[x|e] st'] ev];
          reflexivity. }
      rewrite Hstep, pipe_stream_kept, <- app_assoc.
      destruct (Z.gtb_spec (size + Z.of_nat (length c) + total_bytes cs)
                  BUFFER_LIMIT) as [_|Hle]; [reflexivity|lia].
    + assert (Hstep :
        pipe_chunks path (c :: cs)
          ({| tap_content := BBuffer content; tap_size := size |}, msg) st
        = pipe_chunks path cs
            ({| tap_content := BBuffer (content ++ c);
                tap_size := size + Z.of_nat (length c) |}, msg ++ c) st).
      { cbn [pipe_chunks fst snd tap tap_content tap_size].
        destruct (Z.gtb_spec (size + Z.of_nat (length c)) BUFFER_LIMIT)
          as [Hgt|_]; [lia|].
        unfold bind, ret.
        destruct (pipe_chunks path cs _ st) as [[[x|e] st'] ev];
          reflexivity. }
      rewrite Hstep, IH by exact Hle. rewrite <- !app_assoc. reflexivity.
Qed.

Lemma pipe_stream_spec (path : FilePath) (chunks : list Buffer)
    (st : State) :
  pipe_stream path chunks st
  = (Ok ({| tap_content :=
              if total_bytes chunks >? BUFFER_LIMIT
              then BStream path
              else BBuffer (concat chunks);
            tap_size := total_bytes chunks |},
         concat chunks), st,
     if total_bytes chunks >? BUFFER_LIMIT
     then [EvCreateReadStream path]
     else []).
Proof.
  unfold pipe_stream. rewrite pipe_stream_buffer.
  - reflexivity.
  - unfold BUFFER_LIMIT. lia.
Qed.

(** What [summarizeRequest] returns for a request that names a file. *)
Lemma summarizeRequest_file (req : AssetRequest) (chunks : list Buffer)
    (st : State) :
  req_code req = None ->
  createReadStream h (req_filePath req) = Ok chunks ->
  summarizeRequest h req st
  = (Ok {| s_content :=
             if total_bytes chunks >? BUFFER_LIMIT
             then BStream (req_filePath req)
             else BBuffer (concat chunks);
           s_hash := md5 h (concat chunks);
           s_size := total_bytes chunks |},
     st,
     EvCreateReadStream (req_filePath req)
     :: (if total_bytes chunks >? BUFFER_LIMIT
         then [EvCreateReadStream (req_filePath req)]
         else [])).
Proof.
  intros Hcode Hread. unfold summarizeRequest. rewrite Hcode.
  unfold bind, emit, lift. rewrite Hread. unfold ret.
  rewrite pipe_stream_spec. rewrite app_nil_r. reflexivity.
Qed.

End Summarize.

Lemma total_bytes_bigFile : total_bytes bigFile = 5100000.
Proof.
  unfold total_bytes, bigFile, bigChunk.
  change (concat [?c]) with (c ++ []).
  rewrite app_nil_r, repeat_length. apply Z2Nat.id. lia.
Qed.

(** C3 (as amended).  For a request that names a file, the content
    [summarizeRequest] returns is the buffer of all the bytes read, and the
    file was opened once, exactly when the cumulative size never exceeds
    [BUFFER_LIMIT], which is 5,000,000 bytes; it is a stream over the
    request's path, for which the file was opened a second time, exactly
    when some cumulative size exceeds that limit. *)
Theorem summarizeRequest_buffer_or_stream (h : Host) (req : AssetRequest)
    (chunks : list Buffer) (st : State) :
  req_code req = None ->
  createReadStream h (req_filePath req) = Ok chunks ->
  exists s ev,
    summarizeRequest h req st = (Ok s, st, ev)
    /\ (s_content s = BBuffer (concat chunks)
        /\ ev = [EvCreateReadStream (req_filePath req)]
        <-> forall n, total_bytes (take n chunks) <= 5000000)
    /\ (s_content s = BStream (req_filePath req)
        /\ ev = [EvCreateReadStream (req_filePath req);
                 EvCreateReadStream (req_filePath req)]
        <-> exists n, total_bytes (take n chunks) > 5000000).
Proof.
  intros Hcode Hread. do 2 eexists. split.
  - apply summarizeRequest_file; eassumption.
  - simpl s_content. change BUFFER_LIMIT with 5000000.
    destruct (Z.gtb_spec (total_bytes chunks) 5000000) as [Hgt|Hle]; split.
    + split; [intros [Hc _]; discriminate Hc|].
      intros Hall. specialize (Hall (length chunks)).
      rewrite firstn_all in Hall. lia.
    + split; [intros _|intros _; split; reflexivity].
      exists (length chunks). rewrite firstn_all. lia.
    + split; [intros _ n|intros _; split; reflexivity].
      pose proof (total_bytes_take_le chunks n). lia.
    + split; [intros [Hc _]; discriminate Hc|].
      intros [n Hn]. pose proof (total_bytes_take_le chunks n). lia.
Qed.

Lemma summarizeRequest_buffer_or_stream_witness :
  exists s ev,
    summarizeRequest bigFileHost (fileRequest "/src/big.bin") emptyState
    = (Ok s, emptyState, ev)
    /\ (s_content s = BBuffer (concat bigFile)
        /\ ev = [EvCreateReadStream "/src/big.bin"]
        <-> forall n, total_bytes (take n bigFile) <= 5000000)
    /\ (s_content s = BStream "/src/big.bin"
        /\ ev = [EvCreateReadStream "/src/big.bin";
                 EvCreateReadStream "/src/big.bin"]
        <-> exists n, total_bytes (take n bigFile) > 5000000).
Proof.
  apply (summarizeRequest_buffer_or_stream bigFileHost
           (fileRequest "/src/big.bin") bigFile emptyState);
    reflexivity.
Defined.

(** A file of 5,100,000 bytes stays below 5 MiB (5,242,880 bytes), yet its
    content is a stream, not a buffer, and the file was opened twice. *)
Lemma summarizeRequest_5MiB_counterexample :
  total_bytes bigFile <= 5 * 1024 * 1024
  /\ exists s,
       summarizeRequest bigFileHost (fileRequest "/src/big.bin") emptyState
       = (Ok s, emptyState,
          [EvCreateReadStream "/src/big.bin";
           EvCreateReadStream "/src/big.bin"])
       /\ s_content s = BStream "/src/big.bin".
Proof.
  split.
  - rewrite total_bytes_bigFile. lia.
  - pose proof (summarizeRequest_file bigFileHost
                  (fileRequest "/src/big.bin") bigFile emptyState
                  eq_refl eq_refl) as H.
    rewrite total_bytes_bigFile in H.
    eexists. split; [exact H|reflexivity].
Qed.

(** C4.  For a request that names a file, the hash [summarizeRequest]
    returns is the md5 of all the bytes of the file and the size is their
    number, whatever the chunks and on either side of the buffering
    threshold; only the content depends on the threshold, and with it
    whether the file is opened a second time for the stream. *)
Theorem summarizeRequest_hash_of_bytes (h : Host) (req : AssetRequest)
    (chunks : list Buffer) (st : State) :
  req_code req = None ->
  createReadStream h (req_filePath req) = Ok chunks ->
  exists s,
    summarizeRequest h req st
    = (Ok s, st,
       EvCreateReadStream (req_filePath req)
       :: (if total_bytes chunks >? BUFFER_LIMIT
           then [EvCreateReadStream (req_filePath req)]
           else []))
    /\ s_hash s = md5 h (concat chunks)
    /\ s_size s = Z.of_nat (length (concat chunks))
    /\ s_content s
       = (if total_bytes chunks >? BUFFER_LIMIT
          then BStream (req_filePath req)
          else BBuffer (concat chunks)).
Proof.
  intros Hcode Hread. eexists. split.
  - apply summarizeRequest_file; eassumption.
  - repeat split.
Qed.

(** A file above the threshold and one below it. *)
Lemma summarizeRequest_hash_of_bytes_witness :
  (exists s,
     summarizeRequest bigFileHost (fileRequest "/src/big.bin") emptyState
     = (Ok s, emptyState,
        EvCreateReadStream "/src/big.bin"
        :: (if total_bytes bigFile >? BUFFER_LIMIT
            then [EvCreateReadStream "/src/big.bin"]
            else []))
     /\ s_hash s = md5 bigFileHost (concat bigFile)
     /\ s_size s = Z.of_nat (length (concat bigFile))
     /\ s_content s
        = (if total_bytes bigFile >? BUFFER_LIMIT
           then BStream "/src/big.bin"
           else BBuffer (concat bigFile)))
  /\ (exists s,
        summarizeRequest smallFileHost (fileRequest "/src/a.txt") emptyState
        = (Ok s, emptyState,
           EvCreateReadStream "/src/a.txt"
           :: (if total_bytes smallFile >? BUFFER_LIMIT
               then [EvCreateReadStream "/src/a.txt"]
               else []))
        /\ s_hash s = md5 smallFileHost (concat smallFile)
        /\ s_size s = Z.of_nat (length (concat smallFile))
        /\ s_content s
           = (if total_bytes smallFile >? BUFFER_LIMIT
              then BStream "/src/a.txt"
              else BBuffer (concat smallFile))).
Proof.
  split.
  - exact (summarizeRequest_hash_of_bytes bigFileHost
             (fileRequest "/src/big.bin") bigFile emptyState
             eq_refl eq_refl).
  - exact (summarizeRequest_hash_of_bytes smallFileHost
             (fileRequest "/src/a.txt") smallFile emptyState
             eq_refl eq_refl).
Defined.

(** Above the threshold the content is the stream, and the hash and the
    size are still those of the bytes. *)
Example summarizeRequest_big_file :
  exists s,
    summarizeRequest bigFileHost (fileRequest "/src/big.bin") emptyState
    = (Ok s, emptyState,
       [EvCreateReadStream "/src/big.bin";
        EvCreateReadStream "/src/big.bin"])
    /\ s_hash s = md5 bigFileHost (concat bigFile)
    /\ s_size s = 5100000
    /\ s_content s = BStream "/src/big.bin".
Proof.
  pose proof (summarizeRequest_file bigFileHost
                (fileRequest "/src/big.bin") bigFile emptyState
                eq_refl eq_refl) as H.
  rewrite total_bytes_bigFile in H.
  eexists. split; [exact H|]. repeat split.
Qed.

(** The same file read in other chunks has the same hash and size. *)
Lemma summarizeRequest_chunking (h1 h2 : Host) (req : AssetRequest)
    (chunks1 chunks2 : list Buffer) (st : State) :
  req_code req = None ->
  md5 h1 = md5 h2 ->
  createReadStream h1 (req_filePath req) = Ok chunks1 ->
  createReadStream h2 (req_filePath req) = Ok chunks2 ->
  concat chunks1 = concat chunks2 ->
  exists s1 s2 ev,
    summarizeRequest h1 req st = (Ok s1, st, ev)
    /\ summarizeRequest h2 req st = (Ok s2, st, ev)
    /\ s_hash s1 = s_hash s2 /\ s_size s1 = s_size s2.
Proof.
  intros Hcode Hmd5 H1 H2 Hbytes.
  rewrite (summarizeRequest_file h1 req chunks1 st Hcode H1).
  rewrite (summarizeRequest_file h2 req chunks2 st Hcode H2).
  assert (Ht : total_bytes chunks1 = total_bytes chunks2).
  { unfold total_bytes. rewrite Hbytes. reflexivity. }
  rewrite Ht.
  do 3 eexists. repeat split; simpl.
  - rewrite Hmd5, Hbytes. reflexivity.
Qed.

(** ** The store and the hooks *)

Lemma getAsset_ok (r : ref) (a : Asset) (st : State) :
  heap st !! r = Some a -> getAsset r st = (Ok a, st, []).
Proof. intros E. unfold getAsset. rewrite E. reflexivity. Qed.

Lemma setAsset_stored (r : ref) (a : Asset) (st : State) :
  setAsset r a st = (Ok tt, stored r a st, []).
Proof. reflexivity. Qed.

Lemma heap_stored (r : ref) (a b : Asset) (st : State) :
  heap st !! r = Some b -> heap (stored r a st) !! r = Some a.
Proof.
  intros E. simpl. apply list_lookup_insert_eq.
  eapply lookup_lt_Some. exact E.
Qed.

Lemma stored_stored (r : ref) (a b : Asset) (st : State) :
  stored r a (stored r b st) = stored r a st.
Proof.
  unfold stored, with_heap. simpl. rewrite list_insert_insert_eq.
  reflexivity.
Qed.

Lemma modifyAsset_ok (r : ref) (f : Asset -> Asset) (a : Asset) (st : State) :
  heap st !! r = Some a ->
  modifyAsset r f st = (Ok tt, stored r (f a) st, []).
Proof.
  intros E. unfold modifyAsset, bind. rewrite (getAsset_ok r a st E).
  reflexivity.
Qed.

Lemma callWithView_ok {A} (r : ref) (ev : Asset -> Event)
    (hook : Asset -> Res (Asset * A)) (st : State) (a a' : Asset) (x : A) :
  heap st !! r = Some a ->
  hook a = Ok (a', x) ->
  callWithView r ev hook st = (Ok x, stored r (view_merge a a') st, [ev a]).
Proof.
  intros E Hk. unfold callWithView, bind. rewrite (getAsset_ok r a st E).
  unfold emit, lift. rewrite Hk. reflexivity.
Qed.

Lemma callWithView_throw {A} (r : ref) (ev : Asset -> Event)
    (hook : Asset -> Res (Asset * A)) (st : State) (a : Asset) (e : Error) :
  heap st !! r = Some a ->
  hook a = Throw e ->
  callWithView r ev hook st = (Throw e, st, [ev a]).
Proof.
  intros E Hk. unfold callWithView, bind. rewrite (getAsset_ok r a st E).
  unfold emit, lift. rewrite Hk. reflexivity.
Qed.

Lemma generate_calls_app (e1 e2 : list Event) :
  generate_calls (e1 ++ e2) = generate_calls e1 ++ generate_calls e2.
Proof. unfold generate_calls. apply flat_map_app. Qed.

Lemma callGenerate_ok (g : GenerateFunc) (r : ref) (st : State)
    (a a' : Asset) (out : GenerateOutput) generate :
  heap st !! r = Some a ->
  t_generate (gf_transformer g) = Some generate ->
  generate a (gf_config g) (gf_resolve g) = Ok (a', out) ->
  callGenerate g r st
  = (Ok out, stored r (view_merge a a') st, [EvGenerate r a]).
Proof.
  intros E Hg Hk. unfold callGenerate, bind.
  rewrite (getAsset_ok r a st E). unfold emit. rewrite Hg.
  unfold lift. rewrite Hk. reflexivity.
Qed.

(** Whatever the closure does, calling it is one call. *)
Lemma callGenerate_once (g : GenerateFunc) (r : ref) (st : State) (a : Asset)
    res st' ev :
  heap st !! r = Some a ->
  callGenerate g r st = (res, st', ev) ->
  ev = [EvGenerate r a].
Proof.
  intros E. unfold callGenerate, bind.
  rewrite (getAsset_ok r a st E). unfold emit.
  destruct (t_generate (gf_transformer g)) as [generate|].
  - unfold lift.
    destruct (generate a (gf_config g) (gf_resolve g)) as [[a' out]|e];
      simpl; intros H; inversion H; reflexivity.
  - simpl. intros H. inversion H. reflexivity.
Qed.

(** The closure of a transformer without [generate] throws. *)
Lemma callGenerate_missing (g : GenerateFunc) (r : ref) (st : State)
    (a : Asset) :
  heap st !! r = Some a ->
  t_generate (gf_transformer g) = None ->
  callGenerate g r st
  = (Throw (JsError no_generate_message), st, [EvGenerate r a]).
Proof.
  intros E Hg. unfold callGenerate, bind.
  rewrite (getAsset_ok r a st E). unfold emit. rewrite Hg. reflexivity.
Qed.

(** ** The steps of [runTransformer] *)

Lemma loadStageConfig_quiet (r : ref) (t : Transformer) (pre : HookConfig)
    (resolve : ResolveFn) st res st' ev :
  loadStageConfig r t pre resolve st = (res, st', ev) ->
  generate_calls ev = [].
Proof.
  unfold loadStageConfig. destruct (t_getConfig t) as [getConfig|].
  - unfold callWithView, bind, getAsset.
    destruct (heap st !! r) as [a|]; simpl.
    + unfold lift. destruct (getConfig a resolve) as [[a' c]|e]; simpl;
        intros H; inversion H; reflexivity.
    + intros H. inversion H. reflexivity.
  - intros H. inversion H. reflexivity.
Qed.

Lemma cannotReuse_true (t : Transformer) (ast : AST) (st : State) :
  cannot_reuse t ast ->
  cannotReuse t ast st = (Ok true, st, reuse_events t ast).
Proof.
  unfold cannotReuse, reuse_events. intros [Hn|[f [Hf Hr]]].
  - rewrite Hn. reflexivity.
  - rewrite Hf. unfold bind, emit, lift. rewrite Hr. reflexivity.
Qed.

Lemma cannotReuse_false (t : Transformer) (ast : AST) (st : State) f :
  t_canReuseAST t = Some f ->
  f ast = Ok true ->
  cannotReuse t ast st = (Ok false, st, [EvCanReuseAST ast]).
Proof.
  intros Hf Hr. unfold cannotReuse. rewrite Hf.
  unfold bind, emit, lift. rewrite Hr. reflexivity.
Qed.

Lemma reuse_events_quiet (t : Transformer) (ast : AST) :
  generate_calls (reuse_events t ast) = [].
Proof. unfold reuse_events. destruct (t_canReuseAST t); reflexivity. Qed.

(** A stage that can reuse the AST leaves the asset alone. *)
Lemma reconcileAST_reuse (p : Pipeline) (r : ref) (t : Transformer)
    (st : State) (a : Asset) (ast : AST) f :
  heap st !! r = Some a ->
  a_ast a = Some ast ->
  t_canReuseAST t = Some f ->
  f ast = Ok true ->
  reconcileAST p r t st = (Ok tt, st, [EvCanReuseAST ast]).
Proof.
  intros E Hast Hf Hr. unfold reconcileAST, bind.
  rewrite (getAsset_ok r a st E). rewrite Hast.
  rewrite (cannotReuse_false t ast st f Hf Hr). reflexivity.
Qed.

(** A stage that cannot reuse the AST calls the remembered closure once,
    whatever comes of it. *)
Lemma reconcileAST_once (p : Pipeline) (r : ref) (t : Transformer)
    (st : State) (a : Asset) (ast : AST) (g : GenerateFunc) res st' ev :
  heap st !! r = Some a ->
  a_ast a = Some ast ->
  cannot_reuse t ast ->
  p_generate p = Some g ->
  reconcileAST p r t st = (res, st', ev) ->
  generate_calls ev = [(r, a)].
Proof.
  intros E Hast Hc Hg. unfold reconcileAST, bind.
  rewrite (getAsset_ok r a st E). rewrite Hast.
  rewrite (cannotReuse_true t ast st Hc). rewrite Hg. simpl.
  destruct (callGenerate g r st) as [[resG stG] evG] eqn:EG.
  pose proof (callGenerate_once g r st a resG stG evG E EG) as ->.
  destruct resG as [out|e].
  - unfold modifyAsset, bind, getAsset.
    destruct (heap stG !! r) as [a'|]; simpl; intros H; inversion H;
      rewrite !generate_calls_app, reuse_events_quiet; reflexivity.
  - intros H. inversion H.
    rewrite !generate_calls_app, reuse_events_quiet. reflexivity.
Qed.

(** When the closure returns, its code is the content and the AST is
    gone. *)
Lemma reconcileAST_regenerate (p : Pipeline) (r : ref) (t : Transformer)
    (st : State) (a a' : Asset) (ast : AST) (g : GenerateFunc)
    (out : GenerateOutput) generate :
  heap st !! r = Some a ->
  a_ast a = Some ast ->
  cannot_reuse t ast ->
  p_generate p = Some g ->
  t_generate (gf_transformer g) = Some generate ->
  generate a (gf_config g) (gf_resolve g) = Ok (a', out) ->
  reconcileAST p r t st
  = (Ok tt,
     stored r (set_ast None (set_content (BString (go_code out))
                               (view_merge a a'))) st,
     reuse_events t ast ++ [EvGenerate r a]).
Proof.
  intros E Hast Hc Hg Hgen Hout. unfold reconcileAST, bind.
  rewrite (getAsset_ok r a st E). rewrite Hast.
  rewrite (cannotReuse_true t ast st Hc). rewrite Hg.
  rewrite (callGenerate_ok g r st a a' out generate E Hgen Hout).
  rewrite (modifyAsset_ok r _ (view_merge a a')).
  - rewrite stored_stored. reflexivity.
  - eapply heap_stored. exact E.
Qed.

Lemma parseStage_skip (r : ref) (t : Transformer) (config : HookConfig)
    (resolve : ResolveFn) (st : State) (a : Asset) (ast : AST) :
  heap st !! r = Some a ->
  a_ast a = Some ast ->
  parseStage r t config resolve st = (Ok tt, st, []).
Proof.
  intros E Hast. unfold parseStage, bind.
  rewrite (getAsset_ok r a st E). rewrite Hast. reflexivity.
Qed.

Lemma parseStage_none (r : ref) (t : Transformer) (config : HookConfig)
    (resolve : ResolveFn) (st : State) (a : Asset) :
  heap st !! r = Some a ->
  t_parse t = None ->
  parseStage r t config resolve st = (Ok tt, st, []).
Proof.
  intros E Hp. unfold parseStage, bind.
  rewrite (getAsset_ok r a st E). rewrite Hp.
  destruct (a_ast a); reflexivity.
Qed.

Lemma parseStage_parse (r : ref) (t : Transformer) (config : HookConfig)
    (resolve : ResolveFn) (st : State) (a a' : Asset) parse newAst :
  heap st !! r = Some a ->
  a_ast a = None ->
  t_parse t = Some parse ->
  parse a config resolve = Ok (a', newAst) ->
  parseStage r t config resolve st
  = (Ok tt, stored r (set_ast newAst (view_merge a a')) st, [EvParse r a]).
Proof.
  intros E Hast Hp Hout. unfold parseStage, bind.
  rewrite (getAsset_ok r a st E). rewrite Hast, Hp.
  rewrite (callWithView_ok r (EvParse r) _ st a a' newAst E Hout).
  rewrite (modifyAsset_ok r _ (view_merge a a')).
  - rewrite stored_stored. reflexivity.
  - eapply heap_stored. exact E.
Qed.

(** The events of [parseStage]: at most the call of [parse], on the asset
    as it is. *)
Lemma parseStage_events (r : ref) (t : Transformer) (config : HookConfig)
    (resolve : ResolveFn) (st : State) (a : Asset) res st' ev :
  heap st !! r = Some a ->
  parseStage r t config resolve st = (res, st', ev) ->
  ev = match a_ast a, t_parse t with
       | None, Some _ => [EvParse r a]
       | _, _ => []
       end.
Proof.
  intros E. unfold parseStage, bind.
  rewrite (getAsset_ok r a st E).
  destruct (a_ast a) as [ast|]; [intros H; inversion H; reflexivity|].
  destruct (t_parse t) as [parse|]; [|intros H; inversion H; reflexivity].
  destruct (parse a config resolve) as [[a' newAst]|e] eqn:EP.
  - rewrite (callWithView_ok r (EvParse r) _ st a a' newAst E EP).
    rewrite (modifyAsset_ok r _ (view_merge a a'))
      by (eapply heap_stored; exact E).
    intros H. inversion H. reflexivity.
  - rewrite (callWithView_throw r (EvParse r) _ st a e E EP).
    intros H. inversion H. reflexivity.
Qed.

Lemma normalizeAssets_quiet (r : ref) (outs : list TransformOutput)
    st res st' ev :
  normalizeAssets r outs st = (res, st', ev) -> ev = [] /\ st' = st.
Proof.
  unfold normalizeAssets. revert res st' ev.
  induction outs as [|o outs IH]; intros res st' ev.
  - intros H. inversion H. auto.
  - simpl. unfold bind at 1.
    destruct o as [x|].
    + simpl. unfold bind at 1.
      destruct (mapM _ outs st) as [[resM stM] evM] eqn:EM.
      destruct (IH _ _ _ eq_refl) as [-> ->].
      destruct resM; simpl; intros H; inversion H; auto.
    + unfold bind at 1. unfold getAsset.
      destruct (heap st !! r) as [a|]; simpl.
      * unfold bind at 1.
        destruct (mapM _ outs st) as [[resM stM] evM] eqn:EM.
        destruct (IH _ _ _ eq_refl) as [-> ->].
        destruct resM; simpl; intros H; inversion H; auto.
      * intros H. inversion H. auto.
Qed.

(** The events of [transformStage]: the call of [transform], on the
    asset as it is. *)
Lemma transformStage_events (r : ref) (t : Transformer)
    (config : HookConfig) (resolve : ResolveFn) (st : State) (a : Asset)
    res st' ev :
  heap st !! r = Some a ->
  transformStage r t config resolve st = (res, st', ev) ->
  ev = [EvTransform r a].
Proof.
  intros E. unfold transformStage, bind.
  destruct (t_transform t a config resolve) as [[a' outs]|e] eqn:ET.
  - rewrite (callWithView_ok r (EvTransform r) _ st a a' outs E ET).
    destruct (normalizeAssets r outs _) as [[resN stN] evN] eqn:EN.
    destruct (normalizeAssets_quiet _ _ _ _ _ _ EN) as [-> _].
    intros H. inversion H. reflexivity.
  - rewrite (callWithView_throw r (EvTransform r) _ st a e E ET).
    intros H. inversion H. reflexivity.
Qed.

Lemma parseStage_throw (r : ref) (t : Transformer) (config : HookConfig)
    (resolve : ResolveFn) (st : State) (a : Asset) parse e :
  heap st !! r = Some a ->
  a_ast a = None ->
  t_parse t = Some parse ->
  parse a config resolve = Throw e ->
  parseStage r t config resolve st = (Throw e, st, [EvParse r a]).
Proof.
  intros E Hast Hp Hout. unfold parseStage, bind.
  rewrite (getAsset_ok r a st E). rewrite Hast, Hp.
  rewrite (callWithView_throw r (EvParse r) _ st a e E Hout).
  reflexivity.
Qed.

Lemma parseStage_quiet (r : ref) (t : Transformer) (config : HookConfig)
    (resolve : ResolveFn) st res st' ev :
  parseStage r t config resolve st = (res, st', ev) ->
  generate_calls ev = [].
Proof.
  destruct (heap st !! r) as [a|] eqn:E.
  - intros H. rewrite (parseStage_events _ _ _ _ _ _ _ _ _ E H).
    destruct (a_ast a), (t_parse t); reflexivity.
  - unfold parseStage, bind, getAsset. rewrite E.
    intros H. inversion H. reflexivity.
Qed.

Lemma transformStage_quiet (r : ref) (t : Transformer) (config : HookConfig)
    (resolve : ResolveFn) st res st' ev :
  transformStage r t config resolve st = (res, st', ev) ->
  generate_calls ev = [].
Proof.
  destruct (heap st !! r) as [a|] eqn:E.
  - intros H. rewrite (transformStage_events _ _ _ _ _ _ _ _ _ E H).
    reflexivity.
  - unfold transformStage, bind, callWithView, bind, getAsset. rewrite E.
    intros H. inversion H. reflexivity.
Qed.

(** [runTransformer] after the config is loaded. *)
Lemma runTransformer_unfold (h : Host) (p : Pipeline) (r : ref)
    (t : Transformer) (pre config : HookConfig) (st st1 : State)
    (a0 : Asset) (ev0 : list Event) :
  heap st !! r = Some a0 ->
  loadStageConfig r t pre (resolveDependency h (a_env a0)) st
  = (Ok config, st1, ev0) ->
  runTransformer h p r (Some t) pre st
  = (let '(res, st2, ev) :=
       (reconcileAST p r t ;;
        parseStage r t config (resolveDependency h (a_env a0)) ;;
        results <- transformStage r t config
                     (resolveDependency h (a_env a0)) ;;
        ret (remember p r t config (resolveDependency h (a_env a0)),
             results)) st1 in
     (res, st2, ev0 ++ ev)).
Proof.
  intros E Hload. unfold runTransformer.
  rewrite (bind_ok _ _ st a0 st [] (getAsset_ok r a0 st E)).
  rewrite (bind_ok _ _ st config st1 ev0 Hload).
  destruct (bind _ _ st1) as [[res st2] ev]. reflexivity.
Qed.

(** The AST reuse law, for one run of [runTransformer] on an asset that
    carries an AST when the stage examines it, in terms of the closure
    the pipeline remembers at that moment, whichever call of
    [runTransformer] stored it.  If the stage's
    [canReuseAST] returns true, the remembered [generate] is not called,
    [parse] is not called and [transform] sees the asset with that AST.
    If the stage does not declare [canReuseAST] or it returns false, and a
    [generate] is remembered, it is called exactly once, on that asset;
    when it returns, its code is the content and the AST is null when
    [parse], if the stage has one, is called, and [transform] sees the AST
    that [parse] returned. *)
Lemma ast_reuse_law (h : Host) (p : Pipeline) (r : ref) (t : Transformer)
    (pre config : HookConfig) (st st1 : State) (a0 a1 : Asset) (ast : AST)
    (ev0 : list Event) :
  let resolve := resolveDependency h (a_env a0) in
  heap st !! r = Some a0 ->
  loadStageConfig r t pre resolve st = (Ok config, st1, ev0) ->
  heap st1 !! r = Some a1 ->
  a_ast a1 = Some ast ->
  (forall canReuseAST,
     t_canReuseAST t = Some canReuseAST ->
     canReuseAST ast = Ok true ->
     exists res st2,
       runTransformer h p r (Some t) pre st
       = (res, st2, ev0 ++ [EvCanReuseAST ast; EvTransform r a1]))
  /\ (forall g,
        cannot_reuse t ast ->
        p_generate p = Some g ->
        (forall res st2 evs,
           runTransformer h p r (Some t) pre st = (res, st2, evs) ->
           generate_calls evs = [(r, a1)])
        /\ (forall generate a2 output,
              t_generate (gf_transformer g) = Some generate ->
              generate a1 (gf_config g) (gf_resolve g) = Ok (a2, output) ->
              let a3 :=
                set_ast None
                  (set_content (BString (go_code output))
                     (view_merge a1 a2)) in
              a_content a3 = BString (go_code output)
              /\ a_ast a3 = None
              /\ match t_parse t with
                 | Some parse =>
                   exists res st2 evT,
                     runTransformer h p r (Some t) pre st
                     = (res, st2,
                        ev0 ++ reuse_events t ast
                        ++ [EvGenerate r a1; EvParse r a3] ++ evT)
                     /\ (forall a4 newAst,
                           parse a3 config resolve = Ok (a4, newAst) ->
                           evT = [EvTransform r
                                    (set_ast newAst (view_merge a3 a4))])
                 | None =>
                   exists res st2,
                     runTransformer h p r (Some t) pre st
                     = (res, st2,
                        ev0 ++ reuse_events t ast
                        ++ [EvGenerate r a1; EvTransform r a3])
                 end)).
Proof.
  intros resolve E0 Hload E1 Hast.
  pose proof (runTransformer_unfold h p r t pre config st st1 a0 ev0
                E0 Hload) as Hrun.
  fold resolve in Hrun.
  split.
  - intros f Hf Hr. rewrite Hrun.
    rewrite (bind_ok _ _ st1 tt st1 [EvCanReuseAST ast]
               (reconcileAST_reuse p r t st1 a1 ast f E1 Hast Hf Hr)).
    rewrite (bind_ok _ _ st1 tt st1 []
               (parseStage_skip r t config resolve st1 a1 ast E1 Hast)).
    unfold bind.
    destruct (transformStage r t config resolve st1)
      as [[resT stT] evT] eqn:ET.
    rewrite (transformStage_events _ _ _ _ _ _ _ _ _ E1 ET).
    destruct resT as [results|e]; simpl; eauto.
  - intros g Hc Hg. split.
    + intros res st2 evs. rewrite Hrun. unfold bind.
      destruct (reconcileAST p r t st1) as [[resR stR] evR] eqn:ER.
      pose proof (reconcileAST_once p r t st1 a1 ast g _ _ _
                    E1 Hast Hc Hg ER) as HR.
      assert (H0 : generate_calls ev0 = [])
        by exact (loadStageConfig_quiet _ _ _ _ _ _ _ _ Hload).
      destruct resR as [[]|e].
      * destruct (parseStage r t config resolve stR)
          as [[resP stP] evP] eqn:EP.
        pose proof (parseStage_quiet _ _ _ _ _ _ _ _ EP) as HP.
        destruct resP as [[]|e].
        -- destruct (transformStage r t config resolve stP)
             as [[resT stT] evT] eqn:ET.
           pose proof (transformStage_quiet _ _ _ _ _ _ _ _ ET) as HT.
           destruct resT as [results|e]; simpl; intros H; inversion H;
             rewrite !generate_calls_app, H0, HR, HP, HT; reflexivity.
        -- intros H. inversion H.
           rewrite !generate_calls_app, H0, HR, HP. reflexivity.
      * intros H. inversion H.
        rewrite !generate_calls_app, H0, HR. reflexivity.
    + intros generate a2 output Hgen Hout a3.
      split; [reflexivity|]. split; [reflexivity|].
      pose proof (reconcileAST_regenerate p r t st1 a1 a2 ast g output
                    generate E1 Hast Hc Hg Hgen Hout) as HR.
      fold a3 in HR.
      assert (E3 : heap (stored r a3 st1) !! r = Some a3)
        by (eapply heap_stored; exact E1).
      destruct (t_parse t) as [parse|] eqn:Hp.
      * destruct (parse a3 config resolve) as [[a4 newAst]|e] eqn:Hparse.
        -- pose proof (parseStage_parse r t config resolve _ a3 a4 parse
                         newAst E3 eq_refl Hp Hparse) as HP.
           rewrite stored_stored in HP.
           set (a5 := set_ast newAst (view_merge a3 a4)) in *.
           assert (E5 : heap (stored r a5 st1) !! r = Some a5)
             by (eapply heap_stored; exact E1).
           destruct (transformStage r t config resolve (stored r a5 st1))
             as [[resT stT] evT] eqn:ET.
           pose proof (transformStage_events _ _ _ _ _ _ _ _ _ E5 ET) as ->.
           rewrite Hrun.
           rewrite (bind_ok _ _ _ _ _ _ HR).
           rewrite (bind_ok _ _ _ _ _ _ HP).
           unfold bind. rewrite ET.
           destruct resT as [results|e]; simpl;
             do 3 eexists; (split; [rewrite <- !app_assoc; reflexivity|]);
             intros a4' newAst' Heq; inversion Heq; subst; reflexivity.
        -- pose proof (parseStage_throw r t config resolve _ a3 parse e
                         E3 eq_refl Hp Hparse) as HP.
           rewrite Hrun.
           rewrite (bind_ok _ _ _ _ _ _ HR).
           rewrite (bind_throw _ _ _ _ _ _ HP).
           exists (Throw e), (stored r a3 st1), [].
           split; [rewrite <- !app_assoc; reflexivity|].
           intros a4 newAst Heq. discriminate Heq.
      * pose proof (parseStage_none r t config resolve _ a3 E3 Hp) as HP.
        destruct (transformStage r t config resolve (stored r a3 st1))
          as [[resT stT] evT] eqn:ET.
        pose proof (transformStage_events _ _ _ _ _ _ _ _ _ E3 ET) as ->.
        rewrite Hrun.
        rewrite (bind_ok _ _ _ _ _ _ HR).
        rewrite (bind_ok _ _ _ _ _ _ HP).
        unfold bind. rewrite ET.
        destruct resT as [results|e]; simpl;
          do 2 eexists; rewrite <- !app_assoc; reflexivity.
Qed.

Lemma ast_reuse_law_witness :
  cannot_reuse babelStage tsAst
  /\ exists res st2,
       runTransformer basicHost
         (pipelineOf ["ts"; "babel"] [tsStage; babelStage]
            (Some (closureOf tsStage)))
         0%nat (Some babelStage) None (stateOf [tsAsset])
       = (res, st2,
          [EvCanReuseAST tsAst;
           EvGenerate 0%nat tsAsset;
           EvParse 0%nat
             (sampleAsset "/src/a.js" "js" (BString "emitted by ts") None);
           EvTransform 0%nat
             (sampleAsset "/src/a.js" "js" (BString "emitted by ts")
                (Some babelAst))]).
Proof.
  assert (Hc : cannot_reuse babelStage tsAst).
  { right. eexists. split; reflexivity. }
  split; [exact Hc|].
  destruct (ast_reuse_law basicHost
              (pipelineOf ["ts"; "babel"] [tsStage; babelStage]
                 (Some (closureOf tsStage)))
              0%nat babelStage None None (stateOf [tsAsset])
              (stateOf [tsAsset]) tsAsset tsAsset tsAst []
              eq_refl eq_refl eq_refl eq_refl) as [_ HB].
  destruct (HB (closureOf tsStage) Hc eq_refl) as [_ H2].
  destruct (H2 _ _ _ eq_refl eq_refl) as [_ [_ H3]].
  simpl in H3. destruct H3 as (res & st2 & evT & Hrun & HevT).
  rewrite (HevT _ _ eq_refl) in Hrun.
  exists res, st2. exact Hrun.
Defined.

(** Scenario S3: the second stage rejects the AST; the first stage's
    [generate] runs, then the second stage's [parse], then [transform]. *)
Example handoff_rejected :
  snd (runTransformer basicHost
         (pipelineOf ["ts"; "babel"] [tsStage; babelStage]
            (Some (closureOf tsStage)))
         0%nat (Some babelStage) None (stateOf [tsAsset]))
  = [EvCanReuseAST tsAst;
     EvGenerate 0%nat tsAsset;
     EvParse 0%nat
       (sampleAsset "/src/a.js" "js" (BString "emitted by ts") None);
     EvTransform 0%nat
       (sampleAsset "/src/a.js" "js" (BString "emitted by ts")
          (Some babelAst))].
Proof. vm_compute. reflexivity. Qed.

(** Scenario S2: the second stage accepts the AST and sees it as it is. *)
Example handoff_reused :
  snd (runTransformer basicHost
         (pipelineOf ["ts"; "ts"] [tsStage; tsStage]
            (Some (closureOf tsStage)))
         0%nat (Some tsStage) None (stateOf [tsAsset]))
  = [EvCanReuseAST tsAst; EvTransform 0%nat tsAsset].
Proof. vm_compute. reflexivity. Qed.

(** ** [addURLDependency] *)

Lemma addDependency_ok (h : Host) (r : ref) (o : DependencyOptions)
    (st : State) (a : Asset) :
  heap st !! r = Some a ->
  a_frozen a = false ->
  addDependency h r o st
  = (Ok (d_id (dependencyOf h a o)),
     stored r (set_dependencies (a_dependencies a ++ [dependencyOf h a o]) a)
       st,
     []).
Proof.
  intros E Hf. unfold addDependency, bind.
  rewrite (getAsset_ok r a st E). rewrite Hf. reflexivity.
Qed.

Lemma addDependency_frozen (h : Host) (r : ref) (o : DependencyOptions)
    (st : State) (a : Asset) :
  heap st !! r = Some a ->
  a_frozen a = true ->
  addDependency h r o st = (Throw AssetFrozenError, st, []).
Proof.
  intros E Hf. unfold addDependency, bind.
  rewrite (getAsset_ok r a st E). rewrite Hf. reflexivity.
Qed.

(** C10 (as amended).  [addURLDependency] on a view of the asset [a]
    returns its input and leaves the asset alone when the input is an
    absolute URL or has no pathname.  Otherwise an error of [URL.parse] or
    of [decodeURIComponent] is the outcome and the asset is left alone;
    when the pathname decodes and the asset is frozen, the outcome is
    [AssetFrozenError] and the asset is left alone; when it decodes and
    the asset is not frozen, exactly one dependency is appended.  Its
    options are the decoded pathname as specifier and [isURL] and
    [isAsync] true, each replaced by the field of [opts] when [opts] has
    that field, and the result is the URL formatted with the dependency's
    id as pathname. *)
Theorem addURLDependency_spec (h : Host) (u : UrlLib) (r : ref)
    (url : string) (opts : DependencyOptions) (st : State) (a : Asset) :
  heap st !! r = Some a ->
  (isURL_util u url = true ->
   addURLDependency h u r url opts st = (Ok url, st, []))
  /\ (forall e,
        isURL_util u url = false ->
        URL_parse u url = Throw e ->
        addURLDependency h u r url opts st = (Throw e, st, []))
  /\ (forall parsed,
        isURL_util u url = false ->
        URL_parse u url = Ok parsed ->
        u_pathname parsed = None ->
        addURLDependency h u r url opts st = (Ok url, st, []))
  /\ (forall parsed pathname e,
        isURL_util u url = false ->
        URL_parse u url = Ok parsed ->
        u_pathname parsed = Some pathname ->
        decodeURIComponent u pathname = Throw e ->
        addURLDependency h u r url opts st = (Throw e, st, []))
  /\ (forall parsed pathname specifier,
        isURL_util u url = false ->
        URL_parse u url = Ok parsed ->
        u_pathname parsed = Some pathname ->
        decodeURIComponent u pathname = Ok specifier ->
        let o := spread (urlDependencyOptions specifier) opts in
        let dep := dependencyOf h a o in
        moduleSpecifier o
        = overrides (Value specifier) (moduleSpecifier opts)
        /\ isURL o = overrides (Value true) (isURL opts)
        /\ isAsync o = overrides (Value true) (isAsync opts)
        /\ (a_frozen a = true ->
            addURLDependency h u r url opts st
            = (Throw AssetFrozenError, st, []))
        /\ (a_frozen a = false ->
            addURLDependency h u r url opts st
            = (URL_format u (set_pathname (Some (d_id dep)) parsed),
               stored r (set_dependencies (a_dependencies a ++ [dep]) a) st,
               []))).
Proof.
  intros E. split; [|split; [|split; [|split]]].
  - intros Hu. unfold addURLDependency. rewrite Hu. reflexivity.
  - intros e Hu Hp. unfold addURLDependency. rewrite Hu.
    unfold bind, lift. rewrite Hp. reflexivity.
  - intros parsed Hu Hp Hn. unfold addURLDependency. rewrite Hu.
    unfold bind, lift. rewrite Hp. simpl. rewrite Hn. reflexivity.
  - intros parsed pathname e Hu Hp Hn Hd. unfold addURLDependency.
    rewrite Hu.
    unfold bind at 1. unfold lift at 1. rewrite Hp. simpl. rewrite Hn.
    unfold bind at 1. unfold lift at 1. rewrite Hd. reflexivity.
  - intros parsed pathname specifier Hu Hp Hn Hd o dep.
    split; [reflexivity|]. split; [reflexivity|]. split; [reflexivity|].
    split; intros Hf; unfold addURLDependency; rewrite Hu;
      unfold bind at 1; unfold lift at 1; rewrite Hp; simpl; rewrite Hn;
      unfold bind at 1; unfold lift at 1; rewrite Hd; simpl;
      unfold bind.
    + rewrite (addDependency_frozen h r _ st a E Hf). reflexivity.
    + rewrite (addDependency_ok h r _ st a E Hf).
      subst dep o. unfold lift. simpl.
      destruct (URL_format u _); reflexivity.
Qed.

Lemma addURLDependency_spec_witness :
  addURLDependency basicHost relativeUrlLib 0%nat "img.png" noOptions
    (stateOf [cssAsset])
  = (Ok "/src/a.css:img.png",
     stateOf
       [set_dependencies
          [dependencyOf basicHost cssAsset (urlDependencyOptions "img.png")]
          cssAsset],
     []).
Proof.
  exact (proj2 (proj2 (proj2 (proj2 (proj2 (proj2 (proj2 (proj2
           (addURLDependency_spec basicHost relativeUrlLib 0%nat "img.png"
              noOptions (stateOf [cssAsset]) cssAsset eq_refl))))
           _ "img.png" "img.png" eq_refl eq_refl eq_refl eq_refl))))
           eq_refl).
Defined.

(** Three calls for a relative URL after which the asset does not have
    exactly one more dependency marked [isURL] and [isAsync]: with
    [{isAsync: false}] in [opts] the dependency that is added is not marked
    [isAsync]; on a view of a committed asset the call fails and nothing
    is added; for a pathname that does not decode the call fails and
    nothing is added. *)
Lemma addURLDependency_opts_counterexample :
  isURL_util relativeUrlLib "img.png" = false
  /\ (match heap (snd (fst (addURLDependency basicHost relativeUrlLib 0%nat
                              "img.png" syncOptions (stateOf [cssAsset]))))
            !! 0%nat with
      | Some a =>
        map (fun d => (isURL (d_options d), isAsync (d_options d)))
          (a_dependencies a)
      | None => []
      end) = [(Value true, Value false)]
  /\ addURLDependency basicHost relativeUrlLib 0%nat "img.png" noOptions
       (stateOf [frozenCssAsset])
     = (Throw AssetFrozenError, stateOf [frozenCssAsset], [])
  /\ isURL_util relativeUrlLib "%" = false
  /\ addURLDependency basicHost relativeUrlLib 0%nat "%" noOptions
       (stateOf [cssAsset])
     = (Throw URIError, stateOf [cssAsset], []).
Proof. repeat split; vm_compute; reflexivity. Qed.

(** [{isAsync: undefined}] in [opts] takes the mark away as well. *)
Example addURLDependency_undefined_field :
  (match heap (snd (fst (addURLDependency basicHost relativeUrlLib 0%nat
                           "img.png" undefinedAsyncOptions
                           (stateOf [cssAsset]))))
         !! 0%nat with
   | Some a =>
     map (fun d => (isURL (d_options d), isAsync (d_options d)))
       (a_dependencies a)
   | None => []
   end) = [(Value true, Undefined)].
Proof. vm_compute. reflexivity. Qed.

(** ** [Pipeline.transform] *)

Section Transform.

Variable h : Host.

Lemma bind_ret_l {A B} (a : A) (f : A -> M B) (st : State) :
  bind (ret a) f st = f a st.
Proof.
  unfold bind, ret. destruct (f a st) as [[res st'] ev]. reflexivity.
Qed.

Lemma mapM_ext {A B} (f g : A -> M B) (l : list A) :
  (forall x st, f x st = g x st) ->
  forall st, mapM f l st = mapM g l st.
Proof.
  intros Hfg. induction l as [|x l IH]; intros st; [reflexivity|].
  simpl. unfold bind at 1 3. rewrite Hfg.
  destruct (g x st) as [[[y|e] st1] ev1]; [|reflexivity].
  unfold bind. rewrite IH. reflexivity.
Qed.

Lemma mapM_map {A B C} (f : B -> M C) (k : A -> B) (l : list A) (st : State) :
  mapM f (map k l) st = mapM (fun x => f (k x)) l st.
Proof.
  revert st. induction l as [|x l IH]; intros st; [reflexivity|].
  simpl. unfold bind at 1 3.
  destruct (f (k x) st) as [[[y|e] st1] ev1]; [|reflexivity].
  unfold bind. rewrite IH. reflexivity.
Qed.

(** With an empty working set a stage runs no transformer. *)
Lemma runStages_empty (p : Pipeline) (ty : string)
    (ts : list TransformerWithNameAndConfig) (fin : list ref)
    (resulting : option (list ref)) (st : State) :
  runStages h p ty ts [] fin resulting st
  = (Ok (p, fin, match ts with [] => resulting | _ :: _ => Some [] end),
     st, []).
Proof.
  revert fin resulting. induction ts as [|t ts IH]; intros fin resulting.
  - reflexivity.
  - simpl. rewrite bind_ret_l. simpl. rewrite IH, app_nil_r.
    destruct ts; reflexivity.
Qed.

(** Finalizing the assets set aside, when nothing else is left. *)
Lemma finishTransform_final_only (p : Pipeline) (fin : list ref) (st : State) :
  finishTransform p fin (Some []) st
  = (let '(res, st', ev) := promiseAll (finalize (p_generate p)) fin st in
     (match res with Ok l => Ok (p, l) | Throw e => Throw e end, st', ev)).
Proof.
  unfold finishTransform, concat_resulting. rewrite app_nil_r.
  unfold bind at 1. rewrite promiseAll_map.
  rewrite (promiseAll_ext _ (finalize (p_generate p)))
    by (intros x s; apply bind_ret_l).
  destruct (promiseAll (finalize (p_generate p)) fin st)
    as [[[l|e] st'] ev].
  - simpl. rewrite app_nil_r. reflexivity.
  - reflexivity.
Qed.

(** An asset of the initial type whose transformer returns no result
    leaves nothing in the stage's output. *)
Lemma runStage_no_result (p p1 : Pipeline) (ty : string)
    (t : TransformerWithNameAndConfig) (r : ref) (rest : list ref)
    (st st1 : State) (a : Asset) (ev1 : list Event) :
  heap st !! r = Some a ->
  a_type a = ty ->
  runTransformer h p r (tn_plugin t) (tn_config t) st
  = (Ok (p1, []), st1, ev1) ->
  runStage h p ty t (r :: rest) st
  = (let '(out, st2, ev2) := runStage h p1 ty t rest st1 in
     (out, st2, ev1 ++ ev2)).
Proof.
  intros E Hty Hrun. simpl.
  rewrite (bind_ok _ _ st a st [] (getAsset_ok r a st E)).
  rewrite Hty, String.eqb_refl. simpl.
  rewrite (bind_ok _ _ st _ st1 ev1 Hrun). simpl.
  rewrite bind_ret_l. unfold bind.
  destruct (runStage h p1 ty t rest st1) as [[[[[p2 f] rs]|e] st2] ev2];
    simpl; rewrite ?app_nil_r; reflexivity.
Qed.

(** C9.  In [Pipeline.transform], an asset of the initial type whose
    transformer returns an empty list yields no child and is not set
    aside: the stage's output is that of the rest of the working set.
    When it was the whole working set, the working set is empty, the
    remaining stages run nothing, and the pipeline returns exactly the
    finalized assets that were set aside before for their type; for the
    initial asset of a pipeline that is the empty list. *)
Theorem empty_result_shrinks_working_set (p p1 : Pipeline) (ty : string)
    (t : TransformerWithNameAndConfig) (r : ref) (st st1 : State)
    (a : Asset) (ev1 : list Event) :
  heap st !! r = Some a ->
  a_type a = ty ->
  runTransformer h p r (tn_plugin t) (tn_config t) st
  = (Ok (p1, []), st1, ev1) ->
  (forall rest,
     runStage h p ty t (r :: rest) st
     = (let '(out, st2, ev2) := runStage h p1 ty t rest st1 in
        (out, st2, ev1 ++ ev2)))
  /\ (forall ts fin resulting,
        (out <- runStages h p ty (t :: ts) [r] fin resulting ;;
         finishTransform (fst (fst out)) (snd (fst out)) (snd out)) st
        = (let '(res, st2, ev2) :=
             promiseAll (finalize (p_generate p1)) fin st1 in
           (match res with Ok l => Ok (p1, l) | Throw e => Throw e end,
            st2, ev1 ++ ev2)))
  /\ (forall ts,
        p_transformers p = t :: ts ->
        Pipeline_transform h p r st = (Ok (p1, []), st1, ev1)).
Proof.
  intros E Hty Hrun.
  assert (Hstage : forall rest,
            runStage h p ty t (r :: rest) st
            = (let '(out, st2, ev2) := runStage h p1 ty t rest st1 in
               (out, st2, ev1 ++ ev2)))
    by (intros rest; eapply runStage_no_result; eassumption).
  assert (Hall : forall ts fin resulting,
            (out <- runStages h p ty (t :: ts) [r] fin resulting ;;
             finishTransform (fst (fst out)) (snd (fst out)) (snd out)) st
            = (let '(res, st2, ev2) :=
                 promiseAll (finalize (p_generate p1)) fin st1 in
               (match res with Ok l => Ok (p1, l) | Throw e => Throw e end,
                st2, ev1 ++ ev2))).
  { intros ts fin resulting.
    assert (Hone : runStage h p ty t [r] st = (Ok (p1, [], []), st1, ev1)).
    { rewrite Hstage. simpl. rewrite app_nil_r. reflexivity. }
    unfold bind at 1. simpl runStages.
    rewrite (bind_ok _ _ st _ st1 ev1 Hone). simpl.
    rewrite runStages_empty, app_nil_r. simpl.
    assert (Hres : match ts with [] => Some [] | _ :: _ => Some [] end
                   = Some (@nil ref)) by (destruct ts; reflexivity).
    rewrite Hres, finishTransform_final_only.
    destruct (promiseAll (finalize (p_generate p1)) fin st1)
      as [[res st2] ev2].
    rewrite app_nil_r. reflexivity. }
  split; [exact Hstage|]. split; [exact Hall|].
  intros ts Hts. unfold Pipeline_transform.
  rewrite (bind_ok _ _ st a st [] (getAsset_ok r a st E)).
  rewrite Hts, Hty. simpl app.
  specialize (Hall ts [] None). simpl in Hall.
  destruct (bind _ _ st) as [[res st2] ev2]. inversion Hall.
  rewrite app_nil_r. reflexivity.
Qed.

End Transform.

Lemma empty_result_shrinks_working_set_witness :
  exists p1,
    Pipeline_transform basicHost (pipelineOf ["drop"] [dropStage] None)
      0%nat (stateOf [jsAsset])
    = (Ok (p1, []), stateOf [jsAsset], [EvTransform 0%nat jsAsset]).
Proof.
  eexists.
  refine (proj2 (proj2 (empty_result_shrinks_working_set basicHost
            (pipelineOf ["drop"] [dropStage] None) _ "js"
            (stageOf "drop" dropStage) 0%nat (stateOf [jsAsset]) _
            jsAsset _ eq_refl eq_refl eq_refl)) [] eq_refl).
Defined.

(** A working set of two assets, the first of which yields nothing: the
    output holds the child of the second only. *)
Example one_of_two_dropped :
  match fst (fst (runStage basicHost (pipelineOf ["select"] [] None) "js"
                    (stageOf "select" selectStage) [0%nat; 1%nat]
                    (stateOf [jsAsset; keptAsset]))) with
  | Ok out => Some (snd (fst out), snd out)
  | Throw _ => None
  end = Some ([], [2%nat]).
Proof. vm_compute. reflexivity. Qed.

(** ** An AST with no [generate] to regenerate code from *)

Lemma normalizeAssets_ok (r : ref) (outs : list TransformOutput)
    (st : State) (a : Asset) :
  heap st !! r = Some a ->
  normalizeAssets r outs st = (Ok (normalized a outs), st, []).
Proof.
  intros E. unfold normalizeAssets, normalized.
  induction outs as [|o outs IH]; [reflexivity|].
  simpl. destruct o as [res|].
  - rewrite bind_ret_l. rewrite (bind_ok _ _ _ _ _ _ IH). reflexivity.
  - assert (Hview : (a0 <- getAsset r ;; ret (resultOfAsset a0)) st
                    = (Ok (resultOfAsset a), st, [])).
    { rewrite (bind_ok _ _ _ _ _ _ (getAsset_ok r a st E)). reflexivity. }
    rewrite (bind_ok _ _ _ _ _ _ Hview).
    rewrite (bind_ok _ _ _ _ _ _ IH). reflexivity.
Qed.

Lemma transformStage_ok (r : ref) (t : Transformer) (config : HookConfig)
    (resolve : ResolveFn) (st : State) (a a' : Asset)
    (outs : list TransformOutput) :
  heap st !! r = Some a ->
  t_transform t a config resolve = Ok (a', outs) ->
  transformStage r t config resolve st
  = (Ok (normalized (view_merge a a') outs),
     stored r (view_merge a a') st, [EvTransform r a]).
Proof.
  intros E Ht. unfold transformStage.
  rewrite (bind_ok _ _ _ _ _ _
             (callWithView_ok r (EvTransform r) _ st a a' outs E Ht)).
  rewrite (normalizeAssets_ok r outs _ (view_merge a a'))
    by (eapply heap_stored; exact E).
  reflexivity.
Qed.

(** Without a remembered closure nothing is regenerated and nothing
    fails. *)
Lemma reconcileAST_no_closure (p : Pipeline) (r : ref) (t : Transformer)
    (st : State) (a : Asset) (ast : AST) :
  heap st !! r = Some a ->
  a_ast a = Some ast ->
  cannot_reuse t ast ->
  p_generate p = None ->
  reconcileAST p r t st = (Ok tt, st, reuse_events t ast).
Proof.
  intros E Hast Hc Hg. unfold reconcileAST, bind.
  rewrite (getAsset_ok r a st E). rewrite Hast.
  rewrite (cannotReuse_true t ast st Hc). rewrite Hg. simpl.
  rewrite app_nil_r. reflexivity.
Qed.

(** An asset carries an AST the stage cannot reuse.  When the remembered
    closure belongs to a transformer without [generate], [runTransformer]
    fails with the error of the closure, and so does [finalize] for an
    asset that carries an AST at the end of the pipeline.  When no closure
    is remembered nothing fails: [parse] is not called and [transform]
    sees the asset with its AST. *)
Lemma closure_without_generate (h : Host) (p : Pipeline) (r : ref)
    (t : Transformer) (pre config : HookConfig) (st st1 : State)
    (a0 a1 : Asset) (ast : AST) (ev0 : list Event) :
  let resolve := resolveDependency h (a_env a0) in
  heap st !! r = Some a0 ->
  loadStageConfig r t pre resolve st = (Ok config, st1, ev0) ->
  heap st1 !! r = Some a1 ->
  a_ast a1 = Some ast ->
  cannot_reuse t ast ->
  (forall g,
     p_generate p = Some g ->
     t_generate (gf_transformer g) = None ->
     runTransformer h p r (Some t) pre st
     = (Throw (JsError no_generate_message), st1,
        ev0 ++ reuse_events t ast ++ [EvGenerate r a1]))
  /\ (forall g,
        t_generate (gf_transformer g) = None ->
        finalize (Some g) r st1
        = (Throw (JsError no_generate_message), st1, [EvGenerate r a1]))
  /\ (p_generate p = None ->
      exists res st2,
        runTransformer h p r (Some t) pre st
        = (res, st2, ev0 ++ reuse_events t ast ++ [EvTransform r a1])
        /\ forall a2 outs,
             t_transform t a1 config resolve = Ok (a2, outs) ->
             res = Ok (remember p r t config resolve,
                       normalized (view_merge a1 a2) outs)).
Proof.
  intros resolve E0 Hload E1 Hast Hc.
  pose proof (runTransformer_unfold h p r t pre config st st1 a0 ev0
                E0 Hload) as Hrun.
  fold resolve in Hrun.
  split; [|split].
  - intros g Hg Hnone. rewrite Hrun.
    assert (HR : reconcileAST p r t st1
                 = (Throw (JsError no_generate_message), st1,
                    reuse_events t ast ++ [EvGenerate r a1])).
    { unfold reconcileAST, bind.
      rewrite (getAsset_ok r a1 st1 E1). rewrite Hast.
      rewrite (cannotReuse_true t ast st1 Hc). rewrite Hg.
      rewrite (callGenerate_missing g r st1 a1 E1 Hnone).
      reflexivity. }
    rewrite (bind_throw _ _ _ _ _ _ HR). reflexivity.
  - intros g Hnone. unfold finalize, bind.
    rewrite (getAsset_ok r a1 st1 E1). rewrite Hast.
    rewrite (callGenerate_missing g r st1 a1 E1 Hnone). reflexivity.
  - intros Hg. rewrite Hrun.
    rewrite (bind_ok _ _ _ _ _ _
               (reconcileAST_no_closure p r t st1 a1 ast E1 Hast Hc Hg)).
    rewrite (bind_ok _ _ _ _ _ _
               (parseStage_skip r t config resolve st1 a1 ast E1 Hast)).
    destruct (t_transform t a1 config resolve) as [[a2 outs]|e] eqn:Ht.
    + rewrite (bind_ok _ _ _ _ _ _
                 (transformStage_ok r t config resolve st1 a1 a2 outs
                    E1 Ht)).
      simpl. do 2 eexists. split.
      * reflexivity.
      * intros a2' outs' Heq. inversion Heq. reflexivity.
    + unfold bind at 1.
      destruct (transformStage r t config resolve st1)
        as [[resT stT] evT] eqn:ET.
      pose proof (transformStage_events _ _ _ _ _ _ _ _ _ E1 ET) as ->.
      destruct resT as [results|e']; simpl; do 2 eexists;
        (split; [rewrite ?app_nil_r; reflexivity|]);
        intros a2 outs Heq; discriminate Heq.
Qed.

(** [Pipeline.transform] called on an asset that carries an AST the first
    stage cannot reuse, when no [generate] is remembered: it does not
    fail, [transform] runs on the asset with that AST, and the pipeline
    returns its child.  ([run] never calls it so: the asset [loadAsset]
    makes has no AST and a committed asset has none.) *)
Example first_stage_with_foreign_ast :
  cannot_reuse babelStage tsAst
  /\ p_generate (pipelineOf ["babel"] [babelStage] None) = None
  /\ assets_of (Pipeline_transform basicHost
                  (pipelineOf ["babel"] [babelStage] None) 0%nat
                  (stateOf [tsAsset]))
     = Some [1%nat]
  /\ firstn 2 (snd (Pipeline_transform basicHost
                      (pipelineOf ["babel"] [babelStage] None) 0%nat
                      (stateOf [tsAsset])))
     = [EvCanReuseAST tsAst; EvTransform 0%nat tsAsset].
Proof.
  split; [|split; [|split]].
  - right. eexists. split; reflexivity.
  - reflexivity.
  - vm_compute. reflexivity.
  - vm_compute. reflexivity.
Qed.

(** ** The cache *)

Section Cache.

Variable h : Host.

Lemma mapM_getAsset (assets : list ref) (records : list Asset) (st : State) :
  Forall2 (fun r a => heap st !! r = Some a) assets records ->
  mapM getAsset assets st = (Ok records, st, []).
Proof.
  induction 1 as [|r a assets records Hr _ IH]; [reflexivity|].
  simpl. rewrite (bind_ok _ _ _ _ _ _ (getAsset_ok r a st Hr)).
  rewrite (bind_ok _ _ _ _ _ _ IH). reflexivity.
Qed.

Lemma getCacheKey_ok (assets : list ref) (records : list Asset)
    (configs : ConfigMap) (st : State) :
  Forall2 (fun r a => heap st !! r = Some a) assets records ->
  getCacheKey h assets configs st
  = (Ok (cacheKeyOf h records configs), st, []).
Proof.
  intros Hrec. unfold getCacheKey.
  rewrite (bind_ok _ _ _ _ _ _ (mapM_getAsset assets records st Hrec)).
  reflexivity.
Qed.

(** With the cache off, or inline code, a lookup reads nothing. *)
Lemma readFromCache_disabled (assets : list ref) (configs : ConfigMap)
    (st : State) :
  cacheDisabled h = true ->
  readFromCache h assets configs st = (Ok None, st, []).
Proof. intros Hd. unfold readFromCache. rewrite Hd. reflexivity. Qed.

(** [Cache.get] on a hit: the records become new objects at the end of
    the store. *)
Lemma mapM_allocAsset (records : list Asset) (st : State) :
  mapM allocAsset records st
  = (Ok (seq (length (heap st)) (length records)),
     with_heap (heap st ++ records) st, []).
Proof.
  revert st. induction records as [|a records IH]; intros st.
  - simpl. rewrite app_nil_r. destruct st; reflexivity.
  - simpl. unfold bind at 1. unfold allocAsset at 1.
    unfold bind at 1. rewrite IH. simpl.
    rewrite length_app, <- app_assoc. simpl.
    replace (length (heap st) + 1)%nat with (S (length (heap st))) by lia.
    reflexivity.
Qed.

(** [getCode] emits its event whatever the content and leaves the store
    alone. *)
Lemma getCode_events (r : ref) (a : Asset) (st : State) :
  heap st !! r = Some a ->
  exists res, getCode h r st = (res, st, [EvGetCode r]).
Proof.
  intros E. unfold getCode, bind.
  rewrite (getAsset_ok r a st E). unfold emit.
  destruct (a_content a) as [s|b|path]; simpl; eauto.
  unfold lift. destruct (createReadStream h path); simpl; eauto.
Qed.

Lemma getCode_ok (r : ref) (a : Asset) (st : State) :
  heap st !! r = Some a ->
  readable h a ->
  exists code, getCode h r st = (Ok code, st, [EvGetCode r]).
Proof.
  intros E Hr. unfold getCode, bind.
  rewrite (getAsset_ok r a st E). unfold emit.
  destruct (a_content a) as [s|b|path] eqn:Ec; simpl; eauto.
  destruct (Hr path Ec) as [chunks Hread].
  unfold lift. rewrite Hread. simpl. eauto.
Qed.

Lemma not_stream_readable (a : Asset) :
  (forall path, a_content a <> BStream path) -> readable h a.
Proof. intros Hns path Hc. destruct (Hns path Hc). Qed.

Lemma promiseAll_getCode_events (assets : list ref) (records : list Asset)
    (st : State) :
  Forall2 (fun r a => heap st !! r = Some a) assets records ->
  exists res,
    promiseAll (getCode h) assets st = (res, st, map EvGetCode assets).
Proof.
  induction 1 as [|r a assets records Hr _ [res IH]].
  - eexists. reflexivity.
  - destruct (getCode_events r a st Hr) as [res1 H1].
    simpl. rewrite H1, IH. eexists. reflexivity.
Qed.

Lemma promiseAll_getCode (assets : list ref) (records : list Asset)
    (st : State) :
  Forall2 (fun r a => heap st !! r = Some a) assets records ->
  Forall (readable h) records ->
  exists codes,
    promiseAll (getCode h) assets st
    = (Ok codes, st, map EvGetCode assets).
Proof.
  induction 1 as [|r a assets records Hr _ IH]; intros Hall.
  - eexists. reflexivity.
  - inversion Hall as [|? ? Ha Hrest]; subst.
    destruct (getCode_ok r a st Hr Ha) as [code H1].
    destruct (IH Hrest) as [codes H2].
    simpl. rewrite H1, H2. eexists. reflexivity.
Qed.

(** Calling [Cache.get] counts the lookup and gives the promise. *)
Lemma cache_get_call (key : string) (st : State) :
  cache_get h key st
  = (Ok (cache_await h key (lookups st)),
     with_lookups (S (lookups st)) st, [EvCacheGet key]).
Proof. reflexivity. Qed.

(** Awaiting it when no write of the key is in flight. *)
Lemma cache_await_miss (key : string) (n : nat) (st : State) :
  inflight st !! key = None ->
  artifacts st !! key = None ->
  cache_await h key n st = (Ok None, st, []).
Proof.
  intros Hs Hm. unfold cache_await, cache_read, bind, get_state.
  rewrite Hs. unfold ret. rewrite Hm. reflexivity.
Qed.

Lemma cache_await_hit (key : string) (n : nat) (st : State)
    (cached : list Asset) :
  inflight st !! key = None ->
  artifacts st !! key = Some cached ->
  cache_await h key n st
  = (Ok (Some (seq (length (heap st)) (length cached))),
     with_heap (heap st ++ cached) st, []).
Proof.
  intros Hs Hm. unfold cache_await, cache_read, get_state.
  unfold bind at 1. unfold bind at 1. rewrite Hs. unfold ret at 1.
  rewrite Hm. unfold bind. rewrite mapM_allocAsset. reflexivity.
Qed.

(** Awaiting it when a write of the key is in flight: the schedule
    decides what is found. *)
Lemma cache_await_race (key : string) (n : nat) (st : State)
    (before : option (list Asset)) :
  inflight st !! key = Some before ->
  cache_await h key n st
  = match race h key n with
    | NotStarted =>
      match before with
      | Some old =>
        (Ok (Some (seq (length (heap st)) (length old))),
         with_heap (heap st ++ old) st, [])
      | None => (Ok None, st, [])
      end
    | Torn => (Ok None, st, [])
    | Landed =>
      match artifacts st !! key with
      | Some cached =>
        (Ok (Some (seq (length (heap st)) (length cached))),
         with_heap (heap st ++ cached)
           (with_inflight (delete key (inflight st)) st), [])
      | None =>
        (Ok None, with_inflight (delete key (inflight st)) st, [])
      end
    end.
Proof.
  intros Hs. unfold cache_await, cache_read, get_state.
  unfold bind at 1. unfold bind at 1. rewrite Hs.
  destruct (race h key n).
  - unfold ret at 1. destruct before as [old|]; [|reflexivity].
    unfold bind. rewrite mapM_allocAsset. reflexivity.
  - reflexivity.
  - unfold bind at 1. unfold put_state, ret at 1.
    destruct (artifacts st !! key) as [cached|]; [|reflexivity].
    unfold bind. rewrite mapM_allocAsset. reflexivity.
Qed.

(** [readFromCache] with the cache on: the lookup is begun, [getCode] is
    called on every asset of the lookup, and then the outcome of the
    lookup is awaited. *)
Lemma readFromCache_enabled (assets : list ref) (records : list Asset)
    (configs : ConfigMap) (st : State) :
  cacheDisabled h = false ->
  Forall2 (fun r a => heap st !! r = Some a) assets records ->
  exists resC,
    promiseAll (getCode h) assets (with_lookups (S (lookups st)) st)
    = (resC, with_lookups (S (lookups st)) st, map EvGetCode assets)
    /\ readFromCache h assets configs st
       = match resC with
         | Ok _ =>
           let '(res, st', ev) :=
             cache_await h (cacheKeyOf h records configs) (lookups st)
               (with_lookups (S (lookups st)) st) in
           (res, st',
            EvCacheGet (cacheKeyOf h records configs)
            :: map EvGetCode assets ++ ev)
         | Throw e =>
           (Throw e, with_lookups (S (lookups st)) st,
            EvCacheGet (cacheKeyOf h records configs)
            :: map EvGetCode assets)
         end.
Proof.
  intros Hd Hrec.
  destruct (promiseAll_getCode_events assets records
              (with_lookups (S (lookups st)) st) Hrec) as [resC HC].
  exists resC. split; [exact HC|].
  unfold readFromCache. rewrite Hd.
  rewrite (bind_ok _ _ _ _ _ _ (getCacheKey_ok assets records configs st Hrec)).
  rewrite (bind_ok _ _ _ _ _ _ (cache_get_call _ st)).
  unfold bind. rewrite HC.
  destruct resC as [codes|e]; [|reflexivity].
  destruct (cache_await h _ _ _) as [[res st'] ev]. reflexivity.
Qed.

Lemma readFromCache_miss (assets : list ref) (records : list Asset)
    (configs : ConfigMap) (st : State) :
  cacheDisabled h = false ->
  Forall2 (fun r a => heap st !! r = Some a) assets records ->
  Forall (readable h) records ->
  inflight st !! cacheKeyOf h records configs = None ->
  artifacts st !! cacheKeyOf h records configs = None ->
  readFromCache h assets configs st
  = (Ok None, with_lookups (S (lookups st)) st,
     EvCacheGet (cacheKeyOf h records configs) :: map EvGetCode assets).
Proof.
  intros Hd Hrec Hread Hs Hmiss.
  destruct (readFromCache_enabled assets records configs st Hd Hrec)
    as (resC & HC & ->).
  destruct (promiseAll_getCode assets records
              (with_lookups (S (lookups st)) st) Hrec Hread) as [codes HC'].
  rewrite HC' in HC. inversion HC; subst resC.
  rewrite cache_await_miss by assumption. rewrite app_nil_r. reflexivity.
Qed.

Lemma readFromCache_hit (assets : list ref) (records cached : list Asset)
    (configs : ConfigMap) (st : State) :
  cacheDisabled h = false ->
  Forall2 (fun r a => heap st !! r = Some a) assets records ->
  Forall (readable h) records ->
  inflight st !! cacheKeyOf h records configs = None ->
  artifacts st !! cacheKeyOf h records configs = Some cached ->
  readFromCache h assets configs st
  = (Ok (Some (seq (length (heap st)) (length cached))),
     with_heap (heap st ++ cached) (with_lookups (S (lookups st)) st),
     EvCacheGet (cacheKeyOf h records configs) :: map EvGetCode assets).
Proof.
  intros Hd Hrec Hread Hs Hhit.
  destruct (readFromCache_enabled assets records configs st Hd Hrec)
    as (resC & HC & ->).
  destruct (promiseAll_getCode assets records
              (with_lookups (S (lookups st)) st) Hrec Hread) as [codes HC'].
  rewrite HC' in HC. inversion HC; subst resC.
  rewrite (cache_await_hit _ _ _ cached) by assumption.
  rewrite app_nil_r. reflexivity.
Qed.

End Cache.

Section CacheWrite.

Variable h : Host.

Lemma commit_ok (optionsHash : string) (r : ref) (a : Asset) (st : State) :
  heap st !! r = Some a ->
  commit h optionsHash r st
  = (Ok tt,
     stored r (set_committed (outputHashOf h (a_content a) optionsHash) a)
       (with_blobs
          (<[outputHashOf h (a_content a) optionsHash := a_content a]>
             (blobs st)) st),
     [EvCommit r optionsHash]).
Proof.
  intros E. unfold commit, bind.
  rewrite (getAsset_ok r a st E). reflexivity.
Qed.

Lemma valid_records (st : State) (assets : list ref) :
  valid st assets ->
  exists records, Forall2 (fun r a => heap st !! r = Some a) assets records.
Proof.
  induction 1 as [|r assets Hr _ [records IH]].
  - exists []. constructor.
  - destruct (lookup_lt_is_Some_2 _ _ Hr) as [a Ha].
    exists (a :: records). constructor; assumption.
Qed.

Lemma records_valid (st : State) (assets : list ref) (records : list Asset) :
  Forall2 (fun r a => heap st !! r = Some a) assets records ->
  valid st assets.
Proof.
  induction 1 as [|r a assets records Hr _ IH]; constructor.
  - eapply lookup_lt_Some. exact Hr.
  - exact IH.
Qed.

(** Committing a list of assets: one call each, in order; the store keeps
    its size and the artifact cache is untouched. *)
Lemma mapM_commit (optionsHash : string) (assets : list ref) (st : State) :
  valid st assets ->
  exists st',
    mapM (commit h optionsHash) assets st
    = (Ok (map (fun _ => tt) assets), st',
       map (fun r => EvCommit r optionsHash) assets)
    /\ length (heap st') = length (heap st)
    /\ artifacts st' = artifacts st
    /\ configRequests st' = configRequests st
    /\ inflight st' = inflight st
    /\ lookups st' = lookups st.
Proof.
  revert st. induction assets as [|r assets IH]; intros st Hv.
  - exists st. repeat split.
  - inversion Hv as [|? ? Hr Hrest]; subst.
    destruct (lookup_lt_is_Some_2 _ _ Hr) as [a Ha].
    pose proof (commit_ok optionsHash r a st Ha) as Hc.
    set (st1 := stored r _ _) in Hc.
    assert (Hlen : length (heap st1) = length (heap st))
      by (unfold st1; simpl; apply length_insert).
    destruct (IH st1) as (st' & Hm & Hl & Ha' & Hq & Hi & Hk).
    { unfold valid. rewrite Hlen. exact Hrest. }
    exists st'. split; [|split; [|split; [|split; [|split]]]].
    + simpl. rewrite (bind_ok _ _ _ _ _ _ Hc).
      rewrite (bind_ok _ _ _ _ _ _ Hm). simpl. rewrite app_nil_r.
      reflexivity.
    + rewrite Hl. exact Hlen.
    + rewrite Ha'. reflexivity.
    + rewrite Hq. reflexivity.
    + rewrite Hi. reflexivity.
    + rewrite Hk. reflexivity.
Qed.

(** [writeToCache] for assets of the store: every asset is committed and
    the list is stored under the key computed from the assets it was
    given, as they were before the commits; what is stored are the
    assets as they are afterwards. *)
Lemma writeToCache_spec (assets : list ref) (records : list Asset)
    (configs : ConfigMap) (st : State) :
  Forall2 (fun r a => heap st !! r = Some a) assets records ->
  exists st2 records2,
    writeToCache h assets configs st
    = (Ok tt, st2,
       map (fun r =>
              EvCommit r (md5FromObject h (OptionsObject (opt_impactful h))))
         assets
       ++ [EvCacheSet (cacheKeyOf h records configs) assets])
    /\ Forall2 (fun r a => heap st2 !! r = Some a) assets records2
    /\ artifacts st2
       = <[cacheKeyOf h records configs := records2]> (artifacts st)
    /\ length (heap st2) = length (heap st)
    /\ inflight st2
       = match inflight st !! cacheKeyOf h records configs with
         | Some _ => inflight st
         | None =>
           <[cacheKeyOf h records configs :=
               artifacts st !! cacheKeyOf h records configs]> (inflight st)
         end
    /\ lookups st2 = lookups st.
Proof.
  intros Hrec. unfold writeToCache.
  rewrite (bind_ok _ _ _ _ _ _ (getCacheKey_ok h assets records configs st
                                  Hrec)).
  destruct (mapM_commit
              (md5FromObject h (OptionsObject (opt_impactful h)))
              assets st (records_valid st assets records Hrec))
    as (st1 & Hm & Hlen & Hart & _ & Hin & Hk).
  rewrite (bind_ok _ _ _ _ _ _ (promiseAll_mapM _ _ _ _ _ _ Hm)).
  assert (Hv1 : valid st1 assets).
  { unfold valid. rewrite Hlen.
    exact (records_valid st assets records Hrec). }
  destruct (valid_records st1 assets Hv1) as [records2 Hrec2].
  eexists _, records2.
  split; [|split; [|split; [|split; [|split]]]].
  - unfold cache_set.
    rewrite (bind_ok _ _ _ _ _ _ (mapM_getAsset assets records2 st1 Hrec2)).
    reflexivity.
  - exact Hrec2.
  - simpl. rewrite Hart. reflexivity.
  - simpl. exact Hlen.
  - simpl. rewrite Hin, Hart. reflexivity.
  - simpl. exact Hk.
Qed.

End CacheWrite.

(** ** The assets a pipeline returns are objects of the store *)

Lemma keeps_size_bind {A B} (m : M A) (f : A -> M B) :
  keeps_size m -> (forall a, keeps_size (f a)) -> keeps_size (bind m f).
Proof.
  intros Hm Hf st res st' ev H.
  destruct (bind_inv _ _ _ _ _ _ H)
    as [(a & st1 & ev1 & ev2 & H1 & H2 & _)|(e & H1 & _)].
  - rewrite (Hf a _ _ _ _ H2). exact (Hm _ _ _ _ H1).
  - exact (Hm _ _ _ _ H1).
Qed.

Lemma keeps_size_ret {A} (a : A) : keeps_size (ret a).
Proof. intros st res st' ev H. inversion H. reflexivity. Qed.

Lemma keeps_size_throw {A} (e : Error) : keeps_size (@throw A e).
Proof. intros st res st' ev H. inversion H. reflexivity. Qed.

Lemma keeps_size_emit (e : Event) : keeps_size (emit e).
Proof. intros st res st' ev H. inversion H. reflexivity. Qed.

Lemma keeps_size_lift {A} (x : Res A) : keeps_size (lift x).
Proof. destruct x; [apply keeps_size_ret|apply keeps_size_throw]. Qed.

Lemma keeps_size_nullthrows {A} (x : option A) : keeps_size (nullthrows x).
Proof. destruct x; [apply keeps_size_ret|apply keeps_size_throw]. Qed.

Lemma getAsset_inv (r : ref) (a : Asset) st st' ev :
  getAsset r st = (Ok a, st', ev) ->
  heap st !! r = Some a /\ st' = st /\ ev = [].
Proof.
  unfold getAsset. destruct (heap st !! r); intros H; inversion H; auto.
Qed.

Lemma keeps_size_getAsset (r : ref) : keeps_size (getAsset r).
Proof.
  intros st res st' ev. unfold getAsset.
  destruct (heap st !! r); intros H; inversion H; reflexivity.
Qed.

Lemma keeps_size_setAsset (r : ref) (a : Asset) : keeps_size (setAsset r a).
Proof.
  intros st res st' ev H. inversion H. simpl. apply length_insert.
Qed.

Lemma keeps_size_modifyAsset (r : ref) (f : Asset -> Asset) :
  keeps_size (modifyAsset r f).
Proof.
  apply keeps_size_bind; [apply keeps_size_getAsset|].
  intros a. apply keeps_size_setAsset.
Qed.

Lemma keeps_size_mapM {A B} (f : A -> M B) (l : list A) :
  (forall x, keeps_size (f x)) -> keeps_size (mapM f l).
Proof.
  intros Hf. induction l as [|x l IH]; [apply keeps_size_ret|].
  simpl. apply keeps_size_bind; [apply Hf|]. intros y.
  apply keeps_size_bind; [exact IH|]. intros ys. apply keeps_size_ret.
Qed.

Lemma keeps_size_promiseAll {A B} (f : A -> M B) (l : list A) :
  (forall x, keeps_size (f x)) -> keeps_size (promiseAll f l).
Proof.
  intros Hf. induction l as [|x l IH]; [apply keeps_size_ret|].
  intros st res st' ev. simpl.
  destruct (f x st) as [[y st1] ev1] eqn:Ef.
  destruct (promiseAll f l st1) as [[ys st2] ev2] eqn:El.
  intros H. inversion H; subst.
  rewrite (IH _ _ _ _ El). exact (Hf _ _ _ _ _ Ef).
Qed.

Lemma keeps_size_callWithView {A} (r : ref) (ev : Asset -> Event)
    (hook : Asset -> Res (Asset * A)) :
  keeps_size (callWithView r ev hook).
Proof.
  apply keeps_size_bind; [apply keeps_size_getAsset|]. intros a.
  apply keeps_size_bind; [apply keeps_size_emit|]. intros _.
  apply keeps_size_bind; [apply keeps_size_lift|]. intros out.
  apply keeps_size_bind; [apply keeps_size_setAsset|]. intros _.
  apply keeps_size_ret.
Qed.

Lemma keeps_size_callGenerate (g : GenerateFunc) (r : ref) :
  keeps_size (callGenerate g r).
Proof.
  apply keeps_size_bind; [apply keeps_size_getAsset|]. intros a.
  apply keeps_size_bind; [apply keeps_size_emit|]. intros _.
  destruct (t_generate (gf_transformer g)); [|apply keeps_size_throw].
  apply keeps_size_bind; [apply keeps_size_lift|]. intros out.
  apply keeps_size_bind; [apply keeps_size_setAsset|]. intros _.
  apply keeps_size_ret.
Qed.

Lemma keeps_size_runTransformer (h : Host) (p : Pipeline) (r : ref)
    (t : option Transformer) (pre : HookConfig) :
  keeps_size (runTransformer h p r t pre).
Proof.
  unfold runTransformer. destruct t as [t|]; [|apply keeps_size_throw].
  apply keeps_size_bind; [apply keeps_size_getAsset|]. intros a.
  apply keeps_size_bind.
  { unfold loadStageConfig. destruct (t_getConfig t);
      [apply keeps_size_callWithView|apply keeps_size_ret]. }
  intros config. apply keeps_size_bind.
  { unfold reconcileAST.
    apply keeps_size_bind; [apply keeps_size_getAsset|]. intros a1.
    destruct (a_ast a1); [|apply keeps_size_ret].
    apply keeps_size_bind.
    { unfold cannotReuse. destruct (t_canReuseAST t);
        [|apply keeps_size_ret].
      apply keeps_size_bind; [apply keeps_size_emit|]. intros _.
      apply keeps_size_bind; [apply keeps_size_lift|]. intros b.
      apply keeps_size_ret. }
    intros [|]; [|apply keeps_size_ret].
    destruct (p_generate p); [|apply keeps_size_ret].
    apply keeps_size_bind; [apply keeps_size_callGenerate|]. intros out.
    apply keeps_size_modifyAsset. }
  intros _. apply keeps_size_bind.
  { unfold parseStage.
    apply keeps_size_bind; [apply keeps_size_getAsset|]. intros a1.
    destruct (a_ast a1), (t_parse t); try apply keeps_size_ret.
    apply keeps_size_bind; [apply keeps_size_callWithView|]. intros ast.
    apply keeps_size_modifyAsset. }
  intros _. apply keeps_size_bind.
  { unfold transformStage.
    apply keeps_size_bind; [apply keeps_size_callWithView|]. intros outs.
    unfold normalizeAssets. apply keeps_size_mapM. intros [res|].
    - apply keeps_size_ret.
    - apply keeps_size_bind; [apply keeps_size_getAsset|]. intros a1.
      apply keeps_size_ret. }
  intros results. apply keeps_size_ret.
Qed.

Lemma keeps_size_finalize (g : option GenerateFunc) (r : ref) :
  keeps_size (finalize g r).
Proof.
  unfold finalize.
  apply keeps_size_bind; [apply keeps_size_getAsset|]. intros a.
  destruct (a_ast a), g; try apply keeps_size_ret.
  apply keeps_size_bind; [apply keeps_size_callGenerate|]. intros out.
  apply keeps_size_bind; [apply keeps_size_modifyAsset|]. intros _.
  apply keeps_size_ret.
Qed.

Lemma valid_mono (st st' : State) (l : list ref) :
  (length (heap st) <= length (heap st'))%nat -> valid st l -> valid st' l.
Proof.
  intros Hle Hv. unfold valid in *. eapply Forall_impl; [exact Hv|].
  simpl. intros r Hr. lia.
Qed.

Lemma valid_app (st : State) (l1 l2 : list ref) :
  valid st l1 -> valid st l2 -> valid st (l1 ++ l2).
Proof. unfold valid. intros H1 H2. apply Forall_app. split; assumption. Qed.

Lemma createChildAsset_valid (h : Host) (parent : ref)
    (x : TransformerResult) st c st' ev :
  createChildAsset h parent x st = (Ok c, st', ev) ->
  (c < length (heap st'))%nat
  /\ (length (heap st) <= length (heap st'))%nat.
Proof.
  unfold createChildAsset. intros H.
  apply bind_inv_ok in H. destruct H as (a & s1 & e1 & e2 & H1 & H2 & _).
  pose proof (keeps_size_getAsset parent _ _ _ _ H1) as Hs.
  unfold allocAsset in H2. inversion H2; subst. simpl.
  rewrite length_app. simpl. lia.
Qed.

Lemma mapM_createChildAsset_valid (h : Host) (parent : ref)
    (xs : list TransformerResult) st cs st' ev :
  mapM (createChildAsset h parent) xs st = (Ok cs, st', ev) ->
  valid st' cs /\ (length (heap st) <= length (heap st'))%nat.
Proof.
  revert st cs st' ev. induction xs as [|x xs IH]; intros st cs st' ev H.
  - inversion H; subst. split; [constructor|lia].
  - simpl in H. apply bind_inv_ok in H.
    destruct H as (c & s1 & e1 & e2 & H1 & H & _).
    apply bind_inv_ok in H.
    destruct H as (cs' & s2 & e3 & e4 & H2 & H & _).
    inversion H; subst.
    destruct (createChildAsset_valid _ _ _ _ _ _ _ H1) as [Hc Hle1].
    destruct (IH _ _ _ _ H2) as [Hv Hle2].
    split; [|lia]. constructor; [lia|exact Hv].
Qed.

Section Valid.

Variable h : Host.

Lemma runStage_valid (p : Pipeline) (ty : string)
    (t : TransformerWithNameAndConfig) (inputs : list ref) st p' fin res
    st' ev :
  valid st inputs ->
  runStage h p ty t inputs st = (Ok (p', fin, res), st', ev) ->
  valid st' fin /\ valid st' res
  /\ (length (heap st) <= length (heap st'))%nat.
Proof.
  revert p st p' fin res st' ev.
  induction inputs as [|r inputs IH]; intros p st p' fin res st' ev Hv H.
  - inversion H; subst. split; [constructor|split; [constructor|lia]].
  - inversion Hv as [|? ? Hr Hrest]; subst.
    simpl in H. apply bind_inv_ok in H.
    destruct H as (a & s1 & e1 & e2 & H1 & H & _).
    pose proof (keeps_size_getAsset r _ _ _ _ H1) as Hs1.
    destruct (negb (String.eqb (a_type a) ty)).
    + apply bind_inv_ok in H.
      destruct H as ([[p2 fin2] res2] & s2 & e3 & e4 & H2 & H & _).
      destruct (IH p s1 p2 fin2 res2 s2 e3) as (Hf & Hres & Hle);
        [unfold valid; rewrite Hs1; exact Hrest|exact H2|].
      inversion H; subst. simpl.
      split; [|split; [exact Hres|lia]].
      constructor; [lia|exact Hf].
    + apply bind_inv_ok in H.
      destruct H as ([p1 results] & s2 & e3 & e4 & H2 & H & _).
      pose proof (keeps_size_runTransformer h p r _ _ _ _ _ _ H2) as Hs2.
      apply bind_inv_ok in H.
      destruct H as (children & s3 & e5 & e6 & H3 & H & _).
      destruct (mapM_createChildAsset_valid _ _ _ _ _ _ _ H3) as [Hc Hle3].
      apply bind_inv_ok in H.
      destruct H as ([[p2 fin2] res2] & s4 & e7 & e8 & H4 & H & _).
      simpl in *.
      destruct (IH p1 s3 p2 fin2 res2 s4 e7) as (Hf & Hres & Hle);
        [|exact H4|].
      { unfold valid in *. eapply Forall_impl; [exact Hrest|].
        simpl. intros x Hx. lia. }
      inversion H; subst.
      split; [exact Hf|]. split; [|lia].
      apply valid_app; [|exact Hres].
      eapply valid_mono; [exact Hle|exact Hc].
Qed.

Lemma runStages_valid (p : Pipeline) (ty : string)
    (ts : list TransformerWithNameAndConfig) (inputs fin0 : list ref)
    (res0 : option (list ref)) st p' fin res st' ev :
  valid st inputs ->
  valid st fin0 ->
  (forall l, res0 = Some l -> valid st l) ->
  runStages h p ty ts inputs fin0 res0 st = (Ok (p', fin, res), st', ev) ->
  valid st' fin /\ (forall l, res = Some l -> valid st' l).
Proof.
  revert p inputs fin0 res0 st p' fin res st' ev.
  induction ts as [|t ts IH];
    intros p inputs fin0 res0 st p' fin res st' ev Hi Hf Hr H.
  - inversion H; subst. split; assumption.
  - simpl in H. apply bind_inv_ok in H.
    destruct H as ([[p1 fin1] res1] & s1 & e1 & e2 & H1 & H & _).
    destruct (runStage_valid _ _ _ _ _ _ _ _ _ _ Hi H1)
      as (Hf1 & Hr1 & Hle).
    simpl in H.
    assert (Hf0 : valid s1 (fin0 ++ fin1))
      by (apply valid_app; [eapply valid_mono; eassumption|exact Hf1]).
    assert (Hr0 : forall l, Some res1 = Some l -> valid s1 l)
      by (intros l Hl; inversion Hl; subst; exact Hr1).
    exact (IH _ _ _ _ _ _ _ _ _ _ Hr1 Hf0 Hr0 H).
Qed.

Lemma finalize_returns (g : option GenerateFunc) (r : ref) st r' st' ev :
  finalize g r st = (Ok r', st', ev) -> r' = r.
Proof.
  unfold finalize. intros H. apply bind_inv_ok in H.
  destruct H as (a & s1 & e1 & e2 & _ & H & _).
  destruct (a_ast a), g; try (inversion H; reflexivity).
  apply bind_inv_ok in H. destruct H as (out & s2 & e3 & e4 & _ & H & _).
  apply bind_inv_ok in H. destruct H as (u & s3 & e5 & e6 & _ & H & _).
  inversion H. reflexivity.
Qed.

Lemma finalizeAll_valid (g : option GenerateFunc) (l : list (option ref))
    st assets st' ev :
  (forall r, In (Some r) l -> (r < length (heap st))%nat) ->
  promiseAll (fun asset => r <- nullthrows asset ;; finalize g r) l st
  = (Ok assets, st', ev) ->
  valid st' assets.
Proof.
  revert st assets st' ev.
  induction l as [|o l IH]; intros st assets st' ev Hv H.
  - inversion H; subst. constructor.
  - apply promiseAll_ok_inv in H.
    destruct H as (r' & rs & s1 & e1 & e3 & H1 & H2 & -> & _).
    apply bind_inv_ok in H1.
    destruct H1 as (r & s0 & e5 & e6 & Hn & Hfin & _).
    destruct o as [r0|]; [|discriminate Hn].
    inversion Hn; subst.
    pose proof (finalize_returns _ _ _ _ _ _ Hfin) as ->.
    pose proof (keeps_size_finalize g r _ _ _ _ Hfin) as Hs1.
    assert (Hs2 : length (heap st') = length (heap s1)).
    { eapply (keeps_size_promiseAll _ l); [|exact H2]. intros o1.
      apply keeps_size_bind; [apply keeps_size_nullthrows|].
      intros r1. apply keeps_size_finalize. }
    constructor.
    + rewrite Hs2, Hs1. apply Hv. left. reflexivity.
    + eapply IH; [|exact H2]. intros x Hx. rewrite Hs1.
      apply Hv. right. exact Hx.
Qed.

(** The assets [Pipeline.transform] returns are objects of the store it
    leaves. *)
Lemma Pipeline_transform_valid (p p' : Pipeline) (r : ref)
    (st st' : State) (assets : list ref) (ev : list Event) :
  Pipeline_transform h p r st = (Ok (p', assets), st', ev) ->
  valid st' assets.
Proof.
  intros H. unfold Pipeline_transform in H.
  apply bind_inv_ok in H. destruct H as (a' & s1 & e1 & e2 & H1 & H & _).
  destruct (getAsset_inv _ _ _ _ _ H1) as (E & -> & _).
  apply bind_inv_ok in H.
  destruct H as ([[p1 fin] res] & s2 & e3 & e4 & H2 & H & _).
  assert (Hr : valid st [r]).
  { constructor; [|constructor]. eapply lookup_lt_Some. exact E. }
  assert (Hnil : valid st []) by constructor.
  assert (Hnone : forall l : list ref, None = Some l -> valid st l)
    by (intros l Hl; discriminate Hl).
  destruct (runStages_valid _ _ _ _ _ _ _ _ _ _ _ _ Hr Hnil Hnone H2)
    as [Hfin Hres].
  simpl in H. unfold finishTransform in H.
  apply bind_inv_ok in H. destruct H as (rs & s3 & e5 & e6 & H3 & H & _).
  inversion H; subst.
  eapply finalizeAll_valid; [|exact H3].
  intros x Hx. unfold concat_resulting in Hx.
  destruct res as [l|].
  - apply in_map_iff in Hx. destruct Hx as (y & Hy & Hin).
    inversion Hy; subst.
    apply in_app_or in Hin. destruct Hin as [Hin|Hin].
    + exact (proj1 (List.Forall_forall _ _) Hfin _ Hin).
    + exact (proj1 (List.Forall_forall _ _) (Hres l eq_refl) _ Hin).
  - apply in_app_or in Hx. destruct Hx as [Hx|Hx].
    + apply in_map_iff in Hx. destruct Hx as (y & Hy & Hin).
      inversion Hy; subst.
      exact (proj1 (List.Forall_forall _ _) Hfin _ Hin).
    + destruct Hx as [Hx|[]]. discriminate Hx.
Qed.

End Valid.

(** ** A transformer without [generate] *)

Lemma createChildAsset_ok (h : Host) (parent : ref) (p : Asset)
    (res : TransformerResult) (st : State) :
  heap st !! parent = Some p ->
  createChildAsset h parent res st
  = (Ok (length (heap st)), with_heap (heap st ++ [childOf h p res]) st, []).
Proof.
  intros E. unfold createChildAsset.
  rewrite (bind_ok _ _ _ _ _ _ (getAsset_ok parent p st E)). reflexivity.
Qed.

(** A call of [runTransformer] that returns has stored the closure of its
    transformer in [this.generate]. *)
Lemma runTransformer_remembers (h : Host) (p : Pipeline) (r : ref)
    (t : Transformer) (pre : HookConfig) st p' results st' ev :
  runTransformer h p r (Some t) pre st = (Ok (p', results), st', ev) ->
  exists g, p_generate p' = Some g /\ gf_transformer g = t.
Proof.
  unfold runTransformer.
  intros H. apply bind_inv_ok in H.
  destruct H as (a & s1 & e1 & e2 & _ & H & _).
  apply bind_inv_ok in H. destruct H as (config & s2 & e3 & e4 & _ & H & _).
  apply bind_inv_ok in H. destruct H as (u1 & s3 & e5 & e6 & _ & H & _).
  apply bind_inv_ok in H. destruct H as (u2 & s4 & e7 & e8 & _ & H & _).
  apply bind_inv_ok in H. destruct H as (res & s5 & e9 & e10 & _ & H & _).
  inversion H; subst. unfold remember.
  destruct (t_postProcess t); eexists; split; reflexivity.
Qed.

(** One asset of the initial type for which the transformer returns one
    result: the stage ends with the child as its only resulting asset. *)
Lemma runStage_one (h : Host) (p p1 : Pipeline)
    (t : TransformerWithNameAndConfig) (r : ref) (a a' : Asset)
    (res : TransformerResult) (st st1 : State) (ev1 : list Event) :
  heap st !! r = Some a ->
  runTransformer h p r (tn_plugin t) (tn_config t) st
  = (Ok (p1, [res]), st1, ev1) ->
  heap st1 !! r = Some a' ->
  runStage h p (a_type a) t [r] st
  = (Ok (p1, [], [length (heap st1)]),
     with_heap (heap st1 ++ [childOf h a' res]) st1, ev1).
Proof.
  intros E Hrun E'. simpl.
  rewrite (bind_ok _ _ _ _ _ _ (getAsset_ok r a st E)).
  rewrite String.eqb_refl. change (negb true) with false. cbv iota.
  rewrite (bind_ok _ _ _ _ _ _ Hrun). simpl snd. simpl fst.
  assert (Hc : mapM (createChildAsset h r) [res] st1
               = (Ok [length (heap st1)],
                  with_heap (heap st1 ++ [childOf h a' res]) st1, [])).
  { simpl. rewrite (bind_ok _ _ _ _ _ _ (createChildAsset_ok h r a' res st1 E')).
    reflexivity. }
  rewrite (bind_ok _ _ _ _ _ _ Hc). simpl. rewrite app_nil_r. reflexivity.
Qed.

Lemma runStage_throws (h : Host) (p : Pipeline)
    (t : TransformerWithNameAndConfig) (r : ref) (rest : list ref)
    (a : Asset) (e : Error) (st st1 : State) (ev1 : list Event) :
  heap st !! r = Some a ->
  runTransformer h p r (tn_plugin t) (tn_config t) st = (Throw e, st1, ev1) ->
  runStage h p (a_type a) t (r :: rest) st = (Throw e, st1, ev1).
Proof.
  intros E Hrun. simpl.
  rewrite (bind_ok _ _ _ _ _ _ (getAsset_ok r a st E)).
  rewrite String.eqb_refl. change (negb true) with false. cbv iota.
  rewrite (bind_throw _ _ _ _ _ _ Hrun). reflexivity.
Qed.

Lemma runStages_cons (h : Host) (p : Pipeline) (ty : string)
    (t : TransformerWithNameAndConfig)
    (rest : list TransformerWithNameAndConfig) (inputs fin : list ref)
    (res : option (list ref)) :
  runStages h p ty (t :: rest) inputs fin res
  = (out <- runStage h p ty t inputs ;;
     runStages h (fst (fst out)) ty rest (snd out)
       (fin ++ snd (fst out)) (Some (snd out))).
Proof. reflexivity. Qed.

(** C7 (as amended).  The error of a missing [generate] is raised when
    the pipeline calls the generate closure it remembers and the
    transformer that closure was made for has no [generate]:
    (1) in [runTransformer], for an asset with an AST the stage cannot
    reuse; (2) in [finalize], for an asset that carries an AST.  (3) A
    stage that can reuse the AST does not call the closure, so nothing is
    detected there.  (4) A call of [runTransformer] that returns leaves the
    closure of its own transformer as the remembered one.  Hence, in
    [Pipeline.transform]: (5) when the first transformer has no
    [generate] and returns one asset of the initial type with an AST that
    the second transformer cannot reuse, the transformation fails with
    that error at the second stage; (6) when the only transformer has no
    [generate] and returns one asset with an AST, it fails with that
    error in [finalize]. *)
Theorem missing_generate_detected (h : Host) :
  (forall p r t pre config st st1 a0 a1 ast ev0 g,
     heap st !! r = Some a0 ->
     loadStageConfig r t pre (resolveDependency h (a_env a0)) st
     = (Ok config, st1, ev0) ->
     heap st1 !! r = Some a1 ->
     a_ast a1 = Some ast ->
     cannot_reuse t ast ->
     p_generate p = Some g ->
     t_generate (gf_transformer g) = None ->
     runTransformer h p r (Some t) pre st
     = (Throw (JsError no_generate_message), st1,
        ev0 ++ reuse_events t ast ++ [EvGenerate r a1]))
  /\ (forall g r st a1 ast,
        heap st !! r = Some a1 ->
        a_ast a1 = Some ast ->
        t_generate (gf_transformer g) = None ->
        finalize (Some g) r st
        = (Throw (JsError no_generate_message), st, [EvGenerate r a1]))
  /\ (forall p r t pre config st st1 a0 a1 ast ev0 canReuseAST,
        heap st !! r = Some a0 ->
        loadStageConfig r t pre (resolveDependency h (a_env a0)) st
        = (Ok config, st1, ev0) ->
        heap st1 !! r = Some a1 ->
        a_ast a1 = Some ast ->
        t_canReuseAST t = Some canReuseAST ->
        canReuseAST ast = Ok true ->
        exists res st2,
          runTransformer h p r (Some t) pre st
          = (res, st2, ev0 ++ [EvCanReuseAST ast; EvTransform r a1]))
  /\ (forall p r t pre st p1 results st1 ev,
        runTransformer h p r (Some t) pre st = (Ok (p1, results), st1, ev) ->
        exists g, p_generate p1 = Some g /\ gf_transformer g = t)
  /\ (forall p r0 a0 tA tB rest A B st p1 res st1 ev1 ast,
        p_transformers p = tA :: tB :: rest ->
        tn_plugin tA = Some A ->
        t_generate A = None ->
        tn_plugin tB = Some B ->
        t_getConfig B = None ->
        heap st !! r0 = Some a0 ->
        runTransformer h p r0 (Some A) (tn_config tA) st
        = (Ok (p1, [res]), st1, ev1) ->
        tr_type res = a_type a0 ->
        tr_ast res = Some ast ->
        cannot_reuse B ast ->
        exists st2 child,
          heap st2 !! length (heap st1) = Some child
          /\ a_ast child = Some ast
          /\ Pipeline_transform h p r0 st
             = (Throw (JsError no_generate_message), st2,
                ev1 ++ reuse_events B ast
                ++ [EvGenerate (length (heap st1)) child]))
  /\ (forall p r0 a0 tA A st p1 res st1 ev1 ast,
        p_transformers p = [tA] ->
        tn_plugin tA = Some A ->
        t_generate A = None ->
        heap st !! r0 = Some a0 ->
        runTransformer h p r0 (Some A) (tn_config tA) st
        = (Ok (p1, [res]), st1, ev1) ->
        tr_ast res = Some ast ->
        exists st2 child,
          heap st2 !! length (heap st1) = Some child
          /\ a_ast child = Some ast
          /\ Pipeline_transform h p r0 st
             = (Throw (JsError no_generate_message), st2,
                ev1 ++ [EvGenerate (length (heap st1)) child])).
Proof.
  assert (Hfin : forall g r st a1 ast,
             heap st !! r = Some a1 ->
             a_ast a1 = Some ast ->
             t_generate (gf_transformer g) = None ->
             finalize (Some g) r st
             = (Throw (JsError no_generate_message), st, [EvGenerate r a1])).
  { intros g r st a1 ast E1 Hast Hnone. unfold finalize, bind.
    rewrite (getAsset_ok r a1 st E1). rewrite Hast.
    rewrite (callGenerate_missing g r st a1 E1 Hnone). reflexivity. }
  assert (Hrun : forall p r t pre config st st1 a0 a1 ast ev0 g,
             heap st !! r = Some a0 ->
             loadStageConfig r t pre (resolveDependency h (a_env a0)) st
             = (Ok config, st1, ev0) ->
             heap st1 !! r = Some a1 ->
             a_ast a1 = Some ast ->
             cannot_reuse t ast ->
             p_generate p = Some g ->
             t_generate (gf_transformer g) = None ->
             runTransformer h p r (Some t) pre st
             = (Throw (JsError no_generate_message), st1,
                ev0 ++ reuse_events t ast ++ [EvGenerate r a1])).
  { intros p r t pre config st st1 a0 a1 ast ev0 g E0 Hload E1 Hast Hc
      Hg Hnone.
    exact (proj1 (closure_without_generate h p r t pre config st st1 a0 a1
                    ast ev0 E0 Hload E1 Hast Hc) g Hg Hnone). }
  assert (Hchild : forall p r0 a0 A pre st p1 res st1 ev1,
             heap st !! r0 = Some a0 ->
             runTransformer h p r0 (Some A) pre st
             = (Ok (p1, [res]), st1, ev1) ->
             exists a0', heap st1 !! r0 = Some a0').
  { intros p r0 a0 A pre st p1 res st1 ev1 E0 HA.
    apply lookup_lt_is_Some_2.
    rewrite (keeps_size_runTransformer h p r0 (Some A) pre _ _ _ _ HA).
    eapply lookup_lt_Some. exact E0. }
  split; [exact Hrun|]. split; [exact Hfin|]. split; [|split; [|split]].
  - intros p r t pre config st st1 a0 a1 ast ev0 canReuseAST
      E0 Hload E1 Hast Hsome Htrue.
    rewrite (runTransformer_unfold h p r t pre config st st1 a0 ev0 E0 Hload).
    rewrite (bind_ok _ _ _ _ _ _
               (reconcileAST_reuse p r t st1 a1 ast canReuseAST E1 Hast
                  Hsome Htrue)).
    rewrite (bind_ok _ _ _ _ _ _
               (parseStage_skip r t config _ st1 a1 ast E1 Hast)).
    unfold bind at 1.
    destruct (transformStage r t config _ st1) as [[resT stT] evT] eqn:ET.
    pose proof (transformStage_events _ _ _ _ _ _ _ _ _ E1 ET) as ->.
    destruct resT as [results|e']; simpl; do 2 eexists;
      rewrite ?app_nil_r; reflexivity.
  - intros p r t pre st p1 results st1 ev H.
    exact (runTransformer_remembers h p r t pre _ _ _ _ _ H).
  - intros p r0 a0 tA tB rest A B st p1 res st1 ev1 ast
      Hts HA HnoneA HB HcfgB E0 HrunA Hty Hast Hc.
    destruct (Hchild _ _ _ _ _ _ _ _ _ _ E0 HrunA) as [a0' E0'].
    destruct (runTransformer_remembers h p r0 A _ _ _ _ _ _ HrunA)
      as (g & Hg & HgA).
    set (c := length (heap st1)).
    set (child := childOf h a0' res).
    set (st2 := with_heap (heap st1 ++ [child]) st1).
    assert (Ec : heap st2 !! c = Some child).
    { unfold st2, c. simpl. rewrite lookup_app_r by lia.
      rewrite Nat.sub_diag. reflexivity. }
    exists st2, child. split; [exact Ec|]. split; [exact Hast|].
    assert (HrunB : runTransformer h p1 c (Some B) (tn_config tB) st2
                    = (Throw (JsError no_generate_message), st2,
                       [] ++ reuse_events B ast ++ [EvGenerate c child])).
    { apply (Hrun p1 c B (tn_config tB) (tn_config tB) st2 st2 child child
               ast [] g Ec); auto.
      - unfold loadStageConfig. rewrite HcfgB. reflexivity.
      - rewrite HgA. exact HnoneA. }
    rewrite <- HA in HrunA. rewrite <- HB in HrunB.
    assert (Hstages :
              runStages h p (a_type a0) (tA :: tB :: rest) [r0] [] None st
              = (Throw (JsError no_generate_message), st2,
                 ev1 ++ reuse_events B ast ++ [EvGenerate c child])).
    { rewrite runStages_cons.
      rewrite (bind_ok _ _ _ _ _ _
                 (runStage_one h p p1 tA r0 a0 a0' res st st1 ev1 E0 HrunA
                    E0')).
      simpl fst. simpl snd. fold c child st2.
      rewrite runStages_cons.
      assert (Hty' : a_type a0 = a_type child) by (symmetry; exact Hty).
      rewrite Hty'.
      rewrite (bind_throw _ _ _ _ _ _
                 (runStage_throws h p1 tB c [] child _ st2 st2 _ Ec HrunB)).
      reflexivity. }
    unfold Pipeline_transform.
    rewrite (bind_ok _ _ _ _ _ _ (getAsset_ok r0 a0 st E0)).
    rewrite Hts.
    rewrite (bind_throw _ _ _ _ _ _ Hstages). reflexivity.
  - intros p r0 a0 tA A st p1 res st1 ev1 ast Hts HA HnoneA E0 HrunA Hast.
    destruct (Hchild _ _ _ _ _ _ _ _ _ _ E0 HrunA) as [a0' E0'].
    destruct (runTransformer_remembers h p r0 A _ _ _ _ _ _ HrunA)
      as (g & Hg & HgA).
    set (c := length (heap st1)).
    set (child := childOf h a0' res).
    set (st2 := with_heap (heap st1 ++ [child]) st1).
    assert (Ec : heap st2 !! c = Some child).
    { unfold st2, c. simpl. rewrite lookup_app_r by lia.
      rewrite Nat.sub_diag. reflexivity. }
    exists st2, child. split; [exact Ec|]. split; [exact Hast|].
    rewrite <- HA in HrunA.
    assert (Hstages :
              runStages h p (a_type a0) [tA] [r0] [] None st
              = (Ok (p1, [], Some [c]), st2, ev1)).
    { rewrite runStages_cons.
      rewrite (bind_ok _ _ _ _ _ _
                 (runStage_one h p p1 tA r0 a0 a0' res st st1 ev1 E0 HrunA
                    E0')).
      simpl. rewrite app_nil_r. reflexivity. }
    unfold Pipeline_transform.
    rewrite (bind_ok _ _ _ _ _ _ (getAsset_ok r0 a0 st E0)).
    rewrite Hts.
    rewrite (bind_ok _ _ _ _ _ _ Hstages).
    simpl fst. simpl snd.
    unfold finishTransform. simpl concat_resulting.
    assert (HF : promiseAll
                   (fun asset => r <- nullthrows asset ;;
                                 finalize (p_generate p1) r)
                   [Some c] st2
                 = (Throw (JsError no_generate_message), st2,
                    [EvGenerate c child])).
    { simpl. unfold bind at 1. simpl. rewrite Hg.
      rewrite (Hfin g c st2 child ast Ec Hast)
        by (rewrite HgA; exact HnoneA).
      reflexivity. }
    rewrite (bind_throw _ _ _ _ _ _ HF). reflexivity.
Qed.

Lemma missing_generate_detected_witness :
  runTransformer basicHost
    (pipelineOf ["plain"; "babel"] [plainStage; babelStage]
       (Some (closureOf plainStage)))
    0%nat (Some babelStage) None (stateOf [tsAsset])
  = (Throw (JsError no_generate_message), stateOf [tsAsset],
     [EvCanReuseAST tsAst; EvGenerate 0%nat tsAsset])
  /\ fst (fst (Pipeline_transform basicHost
                 (pipelineOf ["parse-only"; "babel"]
                    [parseOnlyStage; babelStage] None)
                 0%nat (stateOf [jsAsset])))
     = Throw (JsError no_generate_message)
  /\ fst (fst (Pipeline_transform basicHost
                 (pipelineOf ["parse-only"] [parseOnlyStage] None)
                 0%nat (stateOf [jsAsset])))
     = Throw (JsError no_generate_message).
Proof.
  assert (Hc : cannot_reuse babelStage tsAst).
  { right. eexists. split; reflexivity. }
  split; [|split].
  - exact (proj1 (missing_generate_detected basicHost)
             (pipelineOf ["plain"; "babel"] [plainStage; babelStage]
                (Some (closureOf plainStage)))
             0%nat babelStage None None (stateOf [tsAsset])
             (stateOf [tsAsset]) tsAsset tsAsset tsAst []
             (closureOf plainStage)
             eq_refl eq_refl eq_refl eq_refl Hc eq_refl eq_refl).
  - destruct (runTransformer basicHost
                (pipelineOf ["parse-only"; "babel"]
                   [parseOnlyStage; babelStage] None)
                0%nat (Some parseOnlyStage) None (stateOf [jsAsset]))
      as [[[[p1 results]|e] st1] ev1] eqn:E;
      [|vm_compute in E; discriminate E].
    assert (Hres : exists res,
               results = [res] /\ tr_type res = "js"
               /\ tr_ast res = Some tsAst).
    { pose proof E as E'. vm_compute in E'. inversion E'.
      eexists. split; [reflexivity|]. split; reflexivity. }
    destruct Hres as (res & -> & Hty & Hast).
    destruct (proj1 (proj2 (proj2 (proj2 (proj2
                (missing_generate_detected basicHost)))))
                (pipelineOf ["parse-only"; "babel"]
                   [parseOnlyStage; babelStage] None)
                0%nat jsAsset (stageOf "parse-only" parseOnlyStage)
                (stageOf "babel" babelStage) [] parseOnlyStage babelStage
                (stateOf [jsAsset]) p1 res st1 ev1 tsAst
                eq_refl eq_refl eq_refl eq_refl eq_refl eq_refl E Hty Hast
                Hc) as (st2 & child & _ & _ & HT).
    rewrite HT. reflexivity.
  - destruct (runTransformer basicHost
                (pipelineOf ["parse-only"] [parseOnlyStage] None)
                0%nat (Some parseOnlyStage) None (stateOf [jsAsset]))
      as [[[[p1 results]|e] st1] ev1] eqn:E;
      [|vm_compute in E; discriminate E].
    assert (Hres : exists res, results = [res] /\ tr_ast res = Some tsAst).
    { pose proof E as E'. vm_compute in E'. inversion E'.
      eexists. split; reflexivity. }
    destruct Hres as (res & -> & Hast).
    destruct (proj2 (proj2 (proj2 (proj2 (proj2
                (missing_generate_detected basicHost)))))
                (pipelineOf ["parse-only"] [parseOnlyStage] None)
                0%nat jsAsset (stageOf "parse-only" parseOnlyStage)
                parseOnlyStage (stateOf [jsAsset]) p1 res st1 ev1 tsAst
                eq_refl eq_refl eq_refl eq_refl E Hast)
      as (st2 & child & _ & _ & HT).
    rewrite HT. reflexivity.
Defined.

(** A whole transformation in which a transformer without [generate]
    leaves an AST and nothing is detected.  The first stage of the [js]
    pipeline parses and has no [generate]; the second stage reuses the
    tree, so the closure of the first is never called; at the end the
    second stage's [generate] prints the code, and the run returns. *)
Lemma missing_generate_counterexample :
  t_generate parseOnlyStage = None
  /\ map event_name (events_of (run reuseHost 2 emptyState))
     = ["report"; "read /src/a.js"; "loadConfig /src/a.js";
        "loadPlugin make"; "get /src/a.js:hello:js@browser"; "getCode";
        "parse"; "transform js"; "canReuseAST ts"; "transform js";
        "generate"; "commit"; "set /src/a.js:hello:js@browser"]
  /\ transforms_seen (events_of (run reuseHost 2 emptyState))
     = [(0%nat, "js", Some tsAst); (1%nat, "js", Some tsAst)]
  /\ generates_seen (events_of (run reuseHost 2 emptyState))
     = [(2%nat, Some "ts")]
  /\ run_summary (run reuseHost 2 emptyState)
     = Some (Some [(2%nat, "js", BString "babel printer on a ts tree")],
             events_of (run reuseHost 2 emptyState)).
Proof.
  split; [reflexivity|].
  split; [|split; [|split]]; vm_compute; reflexivity.
Qed.

(** The pipeline-wide failures of the theorem, in two pipelines. *)
Example missing_generate_at_next_stage :
  Pipeline_transform basicHost
    (pipelineOf ["parse-only"; "babel"] [parseOnlyStage; babelStage] None)
    0%nat (stateOf [jsAsset])
  = (Throw (JsError no_generate_message),
     snd (fst (Pipeline_transform basicHost
                 (pipelineOf ["parse-only"; "babel"]
                    [parseOnlyStage; babelStage] None)
                 0%nat (stateOf [jsAsset]))),
     snd (Pipeline_transform basicHost
            (pipelineOf ["parse-only"; "babel"]
               [parseOnlyStage; babelStage] None)
            0%nat (stateOf [jsAsset])))
  /\ map event_name
       (snd (Pipeline_transform basicHost
               (pipelineOf ["parse-only"; "babel"]
                  [parseOnlyStage; babelStage] None)
               0%nat (stateOf [jsAsset])))
     = ["parse"; "transform js"; "canReuseAST ts"; "generate"].
Proof. split; vm_compute; reflexivity. Qed.

(** Between two pipelines no AST travels.  The [ts] pipeline leaves its
    tree on the [js] asset it emits; [finalize] prints the code and the
    commit of [writeToCache] consumes the tree, so the first stage of the
    [js] pipeline is not asked whether it can reuse it and parses the
    printed code. *)
Example ast_does_not_cross_pipelines :
  map event_name (events_of (run astOffHost 3 emptyState))
  = ["report"; "read /src/a.ts"; "loadConfig /src/a.ts"; "loadPlugin make";
     "parse"; "transform ts"; "generate"; "commit";
     "set /src/a.ts:hello:js@browser"; "loadConfig /src/a.js";
     "loadPlugin make"; "parse"; "transform js"; "generate"; "commit";
     "set /src/a.ts:emitted by ts:js@browser"]
  /\ transforms_seen (events_of (run astOffHost 3 emptyState))
     = [(0%nat, "ts", Some tsAst); (1%nat, "js", Some babelAst)]
  /\ run_summary (run astOffHost 3 emptyState)
     = Some (Some [(2%nat, "js", BString "emitted by babel")],
             events_of (run astOffHost 3 emptyState)).
Proof. split; [|split]; vm_compute; reflexivity. Qed.

(** The closure is one slot of the pipeline.  The stage without
    [generate] emits an asset without a tree and one with its tree; the
    next stage runs on the first, and its closure is the one called for
    the tree of the second: nothing is detected there either. *)
Example missing_generate_hidden_by_sibling :
  t_generate mixedStage = None
  /\ cannot_reuse babelPrinterStage tsAst
  /\ assets_of
       (Pipeline_transform basicHost
          (pipelineOf ["mixed"; "babel"] [mixedStage; babelPrinterStage]
             None) 0%nat (stateOf [jsAsset]))
     = Some [3%nat; 4%nat]
  /\ parses_seen
       (snd (Pipeline_transform basicHost
               (pipelineOf ["mixed"; "babel"]
                  [mixedStage; babelPrinterStage] None)
               0%nat (stateOf [jsAsset])))
     = [(0%nat, BString "source"); (1%nat, BString "plain");
        (2%nat, BString "babel printer on a ts tree")].
Proof.
  split; [reflexivity|]. split.
  - right. eexists. split; reflexivity.
  - split; vm_compute; reflexivity.
Qed.

(** ** [runPipeline]: the lookup before the pipeline *)

Section Driver.

Variable h : Host.

Lemma obtainAssets_miss (p p' : Pipeline) (r0 : ref) (st st0 st1 : State)
    (assets : list ref) (records1 : list Asset) (evR evT : list Event) :
  readFromCache h [r0] (p_configs p) st = (Ok None, st0, evR) ->
  Pipeline_transform h p r0 st0 = (Ok (p', assets), st1, evT) ->
  Forall2 (fun r a => heap st1 !! r = Some a) assets records1 ->
  exists st2 records2,
    obtainAssets h p r0 st
    = (Ok (p', assets), st2,
       evR ++ evT
       ++ map (fun r =>
                 EvCommit r
                   (md5FromObject h (OptionsObject (opt_impactful h))))
            assets
       ++ [EvCacheSet (cacheKeyOf h records1 (p_configs p)) assets])
    /\ Forall2 (fun r a => heap st2 !! r = Some a) assets records2
    /\ artifacts st2
       = <[cacheKeyOf h records1 (p_configs p) := records2]> (artifacts st1).
Proof.
  intros Hread Htr Hrec.
  destruct (writeToCache_spec h assets records1 (p_configs p) st1 Hrec)
    as (st2 & records2 & Hw & Hrec2 & Hart & _).
  exists st2, records2. split; [|split; assumption].
  unfold obtainAssets.
  rewrite (bind_ok _ _ _ _ _ _ Hread).
  rewrite (bind_ok _ _ _ _ _ _ Htr). simpl snd.
  rewrite (bind_ok _ _ _ _ _ _ Hw). simpl.
  rewrite app_nil_r. reflexivity.
Qed.

End Driver.

(** ** [runPipeline]: post-processing *)

Lemma mapM_silent {A B} (f : A -> M B) (l : list A) :
  (forall x st res st' ev, f x st = (res, st', ev) -> ev = []) ->
  forall st res st' ev, mapM f l st = (res, st', ev) -> ev = [].
Proof.
  intros Hf. induction l as [|x l IH]; intros st res st' ev.
  - intros H. inversion H. reflexivity.
  - simpl. unfold bind at 1.
    destruct (f x st) as [[[y|e] st1] ev1] eqn:Ef;
      pose proof (Hf _ _ _ _ _ Ef) as ->.
    + unfold bind at 1.
      destruct (mapM f l st1) as [[[ys|e] st2] ev2] eqn:Em;
        pose proof (IH _ _ _ _ Em) as ->;
        intros H; inversion H; reflexivity.
    + intros H. inversion H. reflexivity.
Qed.

Lemma getAsset_silent (r : ref) st res st' ev :
  getAsset r st = (res, st', ev) -> ev = [].
Proof.
  unfold getAsset. destruct (heap st !! r); intros H; inversion H;
    reflexivity.
Qed.

Lemma createChildAsset_silent (h : Host) (parent : ref)
    (x : TransformerResult) st res st' ev :
  createChildAsset h parent x st = (res, st', ev) -> ev = [].
Proof.
  unfold createChildAsset, bind, getAsset.
  destruct (heap st !! parent); intros H; inversion H; reflexivity.
Qed.

Lemma writeBack_silent (x : ref * (Asset * Asset)) st res st' ev :
  writeBack x st = (res, st', ev) -> ev = [].
Proof. intros H. inversion H. reflexivity. Qed.

(** When [pipeline.postProcess] returns, the transformer's [postProcess]
    was called once, with the assets the closure was given. *)
Lemma callPostProcess_events (h : Host) (f : PostProcessFunc)
    (assets : list ref) (st st1 : State) (processed : option (list ref))
    (evP : list Event) :
  callPostProcess h f assets st = (Ok processed, st1, evP) ->
  evP = [EvPostProcess assets]
  /\ exists children, processed = Some children.
Proof.
  unfold callPostProcess. intros H.
  apply bind_inv_ok in H. destruct H as (views & s1 & e1 & e1' & H1 & H & ->).
  apply mapM_silent in H1; [|exact getAsset_silent]. subst e1.
  apply bind_inv_ok in H. destruct H as ([] & s2 & e2 & e2' & H2 & H & ->).
  inversion H2; subst.
  apply bind_inv_ok in H. destruct H as (out & s3 & e3 & e3' & H3 & H & ->).
  assert (e3 = []) as ->.
  { unfold lift in H3. destruct (pf_postProcess f _ _ _); inversion H3;
      reflexivity. }
  apply bind_inv_ok in H. destruct H as (us & s4 & e4 & e4' & H4 & H & ->).
  apply mapM_silent in H4; [|exact writeBack_silent]. subst e4.
  apply bind_inv_ok in H.
  destruct H as (children & s5 & e5 & e5' & H5 & H & ->).
  apply mapM_silent in H5; [|apply createChildAsset_silent]. subst e5.
  inversion H; subst. split; [reflexivity|]. eexists. reflexivity.
Qed.

(** The assets [pipeline.postProcess] returns are new objects of the
    store. *)
Lemma callPostProcess_valid (h : Host) (f : PostProcessFunc)
    (assets : list ref) (st st1 : State) (processed : option (list ref))
    (evP : list Event) :
  callPostProcess h f assets st = (Ok processed, st1, evP) ->
  valid st1 (default [] processed).
Proof.
  unfold callPostProcess. intros H.
  apply bind_inv_ok in H. destruct H as (views & s1 & e1 & e1' & _ & H & _).
  apply bind_inv_ok in H. destruct H as ([] & s2 & e2 & e2' & _ & H & _).
  apply bind_inv_ok in H. destruct H as (out & s3 & e3 & e3' & _ & H & _).
  apply bind_inv_ok in H. destruct H as (us & s4 & e4 & e4' & _ & H & _).
  apply bind_inv_ok in H.
  destruct H as (children & s5 & e5 & e5' & H5 & H & _).
  inversion H; subst. simpl.
  exact (proj1 (mapM_createChildAsset_valid _ _ _ _ _ _ _ H5)).
Qed.

Section PostProcess.

Variable h : Host.

(** After a missed (or skipped) lookup, [postProcess] runs on [assets]
    and its result is committed and stored under its own key. *)
Lemma postProcessAssets_miss (p : Pipeline) (f : PostProcessFunc)
    (assets finalAssets : list ref) (st st1 : State)
    (processed : option (list ref)) (records : list Asset)
    (evR evP : list Event) (st0 : State) :
  p_postProcess p = Some f ->
  readFromCache h finalAssets (p_configs p) st = (Ok None, st0, evR) ->
  callPostProcess h f assets st0 = (Ok processed, st1, evP) ->
  Forall2 (fun r a => heap st1 !! r = Some a) (default [] processed) records ->
  exists st2 records2,
    postProcessAssets h p assets finalAssets st
    = (Ok (default [] processed), st2,
       evR ++ [EvPostProcess assets]
       ++ map (fun r =>
                 EvCommit r
                   (md5FromObject h (OptionsObject (opt_impactful h))))
            (default [] processed)
       ++ [EvCacheSet (cacheKeyOf h records (p_configs p))
             (default [] processed)])
    /\ Forall2 (fun r a => heap st2 !! r = Some a) (default [] processed)
         records2
    /\ artifacts st2
       = <[cacheKeyOf h records (p_configs p) := records2]> (artifacts st1).
Proof.
  intros Hf Hread Hcall Hrec.
  destruct (callPostProcess_events h f assets st0 st1 processed evP Hcall)
    as [-> _].
  destruct (writeToCache_spec h (default [] processed) records (p_configs p)
              st1 Hrec) as (st2 & records2 & Hw & Hrec2 & Hart & _).
  exists st2, records2. split; [|split; assumption].
  unfold postProcessAssets. rewrite Hf.
  rewrite (bind_ok _ _ _ _ _ _ Hread).
  rewrite (bind_ok _ _ _ _ _ _ Hcall).
  rewrite (bind_ok _ _ _ _ _ _ Hw). simpl.
  rewrite app_nil_r. reflexivity.
Qed.

End PostProcess.

Lemma cacheDisabled_true (h : Host) :
  opt_cache h = false \/ req_code (request h) <> None ->
  cacheDisabled h = true.
Proof.
  unfold cacheDisabled. intros [Hc|Hcode].
  - rewrite Hc. reflexivity.
  - rewrite (bool_decide_eq_true_2 _ Hcode). apply orb_true_r.
Qed.

(** C6.  When the cache option is false or the request carries inline
    code, a cache lookup reads nothing and reports a miss.  The writes
    are not affected: after [Pipeline.transform] every asset of its
    result is committed and the list is stored under its key, and the
    same is done with the result of [postProcess]. *)
Theorem cache_disabled_skips_reads_not_writes (h : Host) :
  opt_cache h = false \/ req_code (request h) <> None ->
  (forall assets configs st,
     readFromCache h assets configs st = (Ok None, st, []))
  /\ (forall p p' r0 st st1 assets evT,
        Pipeline_transform h p r0 st = (Ok (p', assets), st1, evT) ->
        exists records1 st2 records2,
          Forall2 (fun r a => heap st1 !! r = Some a) assets records1
          /\ obtainAssets h p r0 st
             = (Ok (p', assets), st2,
                evT
                ++ map (fun r =>
                          EvCommit r
                            (md5FromObject h
                               (OptionsObject (opt_impactful h))))
                     assets
                ++ [EvCacheSet (cacheKeyOf h records1 (p_configs p)) assets])
          /\ Forall2 (fun r a => heap st2 !! r = Some a) assets records2
          /\ artifacts st2
             = <[cacheKeyOf h records1 (p_configs p) := records2]>
                 (artifacts st1))
  /\ (forall p f assets finalAssets st st1 processed evP,
        p_postProcess p = Some f ->
        callPostProcess h f assets st = (Ok processed, st1, evP) ->
        exists records st2 records2,
          Forall2 (fun r a => heap st1 !! r = Some a) (default [] processed)
            records
          /\ postProcessAssets h p assets finalAssets st
             = (Ok (default [] processed), st2,
                [EvPostProcess assets]
                ++ map (fun r =>
                          EvCommit r
                            (md5FromObject h
                               (OptionsObject (opt_impactful h))))
                     (default [] processed)
                ++ [EvCacheSet (cacheKeyOf h records (p_configs p))
                      (default [] processed)])
          /\ Forall2 (fun r a => heap st2 !! r = Some a)
               (default [] processed) records2
          /\ artifacts st2
             = <[cacheKeyOf h records (p_configs p) := records2]>
                 (artifacts st1)).
Proof.
  intros Hoff. pose proof (cacheDisabled_true h Hoff) as Hd.
  split; [|split].
  - intros assets configs st. apply readFromCache_disabled. exact Hd.
  - intros p p' r0 st st1 assets evT Htr.
    destruct (valid_records st1 assets
                (Pipeline_transform_valid h p p' r0 st st1 assets evT Htr))
      as [records1 Hrec].
    destruct (obtainAssets_miss h p p' r0 st st st1 assets records1 [] evT
                (readFromCache_disabled h [r0] (p_configs p) st Hd) Htr Hrec)
      as (st2 & records2 & H1 & H2 & H3).
    exists records1, st2, records2. auto.
  - intros p f assets finalAssets st st1 processed evP Hf Hcall.
    destruct (valid_records st1 (default [] processed)
                (callPostProcess_valid h f assets st st1 processed evP
                   Hcall)) as [records Hrec].
    destruct (postProcessAssets_miss h p f assets finalAssets st st1
                processed records [] evP st Hf
                (readFromCache_disabled h finalAssets (p_configs p) st Hd)
                Hcall Hrec) as (st2 & records2 & H1 & H2 & H3).
    exists records, st2, records2. auto.
Qed.

Lemma lookup_extended (st : State) (more : list Asset) (assets : list ref)
    (records : list Asset) :
  Forall2 (fun r a => heap st !! r = Some a) assets records ->
  Forall2 (fun r a => heap (with_heap (heap st ++ more) st) !! r = Some a)
    assets records.
Proof.
  induction 1 as [|r a assets records Hr _ IH]; constructor; [|exact IH].
  simpl. rewrite lookup_app_l; [exact Hr|].
  eapply lookup_lt_Some. exact Hr.
Qed.

Lemma cache_disabled_skips_reads_not_writes_witness :
  readFromCache offHost [0%nat] [] hitState = (Ok None, hitState, [])
  /\ exists records1 st2 records2,
       Forall2 (fun r a =>
                  heap (with_heap [jsAsset; upperChild] hitState) !! r
                  = Some a) [1%nat] records1
       /\ obtainAssets offHost upperPipeline 0%nat hitState
          = (Ok (remember upperPipeline 0%nat upperStage None
                   (resolveDependency offHost "browser"), [1%nat]),
             st2,
             [EvTransform 0%nat jsAsset]
             ++ [EvCommit 1%nat "options"]
             ++ [EvCacheSet (cacheKeyOf offHost records1 []) [1%nat]])
       /\ Forall2 (fun r a => heap st2 !! r = Some a) [1%nat] records2
       /\ artifacts st2
          = <[cacheKeyOf offHost records1 [] := records2]>
              (artifacts hitState).
Proof.
  destruct (cache_disabled_skips_reads_not_writes offHost
              (or_introl eq_refl)) as (Hread & Hwrite & _).
  split; [apply Hread|].
  exact (Hwrite upperPipeline _ 0%nat hitState _ [1%nat] _ eq_refl).
Defined.

(** ** [runPipeline]: the dispatch on a changed type *)

Lemma string_length_app (s1 s2 : string) :
  String.length (s1 +:+ s2) = (String.length s1 + String.length s2)%nat.
Proof.
  induction s1 as [|c s1 IH]; [reflexivity|].
  change (String c s1 +:+ s2) with (String c (s1 +:+ s2)).
  simpl. rewrite IH. reflexivity.
Qed.

Lemma substring_prefix (s1 s2 : string) :
  String.substring 0 (String.length s1) (s1 +:+ s2) = s1.
Proof.
  induction s1 as [|c s1 IH].
  - destruct s2; reflexivity.
  - change (String c s1 +:+ s2) with (String c (s1 +:+ s2)).
    simpl. rewrite IH. reflexivity.
Qed.

(** For a path with an extension the synthetic path is the path with the
    extension replaced by the new type. *)
Lemma nextFilePath_replaces_extension (stem ext type : string) :
  extname (stem +:+ ext) = ext ->
  ext <> "" ->
  nextFilePath (stem +:+ ext) type = replace_extension stem type.
Proof.
  intros Hext Hne. unfold nextFilePath, replace_extension. rewrite Hext.
  f_equal. unfold js_slice, js_index. rewrite string_length_app.
  assert (Hlen : (0 < String.length ext)%nat)
    by (destruct ext; [congruence|simpl; lia]).
  change (0 <? 0) with false. cbv iota.
  destruct (Z.ltb_spec (- Z.of_nat (String.length ext)) 0) as [_|Hge];
    [|lia].
  rewrite Z.min_l by lia.
  replace (Z.to_nat
             (Z.max
                (Z.max
                   (Z.of_nat (String.length stem + String.length ext)
                    + - Z.of_nat (String.length ext)) 0 - 0) 0))
    with (String.length stem) by lia.
  apply substring_prefix.
Qed.

(** Without an extension the whole path is dropped. *)
Lemma nextFilePath_no_extension (path type : string) :
  extname path = "" ->
  nextFilePath path type = "." +:+ type.
Proof.
  intros Hext. unfold nextFilePath. rewrite Hext.
  unfold js_slice, js_index. simpl String.length.
  change (- Z.of_nat 0) with 0. change (0 <? 0) with false. cbv iota.
  rewrite Z.min_l by lia. simpl.
  destruct path; reflexivity.
Qed.

Section Dispatch.

Variable h : Host.

Lemma fbind_total_ok {A B} (m : M A) (f : A -> F B) st a st1 ev1 :
  m st = (Ok a, st1, ev1) ->
  fbind (total m) f st = after_events ev1 (f a st1).
Proof.
  intros E. unfold fbind, total, after_events. rewrite E.
  destruct (f a st1) as [[[res st2] ev2]|]; reflexivity.
Qed.

Lemma after_events_nil {A} (out : option (Res A * State * list Event)) :
  after_events [] out = out.
Proof. destruct out as [[[res st] ev]|]; reflexivity. Qed.

(** The dispatch of one asset, in the loop of [runPipeline].  An asset of
    the initial type is carried forward.  For an asset of another type
    the pipeline of the synthetic path is loaded; when its id is that of
    the current pipeline the asset is carried forward untouched, and
    otherwise [runPipeline] is called on the asset with the new pipeline
    and its result takes the asset's place. *)
Lemma type_change_dispatch (recur : Pipeline -> ref -> F (list ref))
    (pipeline : Pipeline) (initialAsset : ref) (initialType : string)
    (asset : ref) (rest finalAssets : list ref) (st : State)
    (a ia : Asset) :
  heap st !! asset = Some a ->
  heap st !! initialAsset = Some ia ->
  (a_type a = initialType ->
   dispatch h recur pipeline initialAsset initialType (asset :: rest)
     finalAssets st
   = dispatch h recur pipeline initialAsset initialType rest
       (finalAssets ++ [asset]) st)
  /\ (a_type a <> initialType ->
      forall next st1 ev1,
        loadPipeline h (nextFilePath (a_filePath ia) (a_type a)) st
        = (Ok next, st1, ev1) ->
        (p_id next = p_id pipeline ->
         dispatch h recur pipeline initialAsset initialType (asset :: rest)
           finalAssets st
         = after_events ev1
             (dispatch h recur pipeline initialAsset initialType rest
                (finalAssets ++ [asset]) st1))
        /\ (p_id next <> p_id pipeline ->
            dispatch h recur pipeline initialAsset initialType
              (asset :: rest) finalAssets st
            = after_events ev1
                (fbind (recur next asset)
                   (fun nextPipelineAssets =>
                      dispatch h recur pipeline initialAsset initialType
                        rest (finalAssets ++ nextPipelineAssets))
                   st1))).
Proof.
  intros Ea Ei. split.
  - intros Hty. simpl.
    assert (Hsel : selectNextPipeline h pipeline initialAsset initialType
                     asset st = (Ok None, st, [])).
    { unfold selectNextPipeline.
      rewrite (bind_ok _ _ _ _ _ _ (getAsset_ok asset a st Ea)).
      rewrite Hty, String.eqb_refl. reflexivity. }
    rewrite (fbind_total_ok _ _ _ _ _ _ Hsel). apply after_events_nil.
  - intros Hty next st1 ev1 Hload.
    assert (Hneq : String.eqb (a_type a) initialType = false)
      by (apply String.eqb_neq; exact Hty).
    split.
    + intros Hid. simpl.
      assert (Hsel : selectNextPipeline h pipeline initialAsset initialType
                       asset st = (Ok None, st1, ev1)).
      { unfold selectNextPipeline.
        rewrite (bind_ok _ _ _ _ _ _ (getAsset_ok asset a st Ea)).
        rewrite Hneq. change (negb false) with true. cbv iota.
        rewrite (bind_ok _ _ _ _ _ _ (getAsset_ok initialAsset ia st Ei)).
        unfold loadNextPipeline.
        rewrite (bind_ok _ _ _ _ _ _ Hload).
        rewrite Hid, String.eqb_refl. simpl. rewrite app_nil_r.
        reflexivity. }
      rewrite (fbind_total_ok _ _ _ _ _ _ Hsel). reflexivity.
    + intros Hid. simpl.
      assert (Hsel : selectNextPipeline h pipeline initialAsset initialType
                       asset st = (Ok (Some next), st1, ev1)).
      { unfold selectNextPipeline.
        rewrite (bind_ok _ _ _ _ _ _ (getAsset_ok asset a st Ea)).
        rewrite Hneq. change (negb false) with true. cbv iota.
        rewrite (bind_ok _ _ _ _ _ _ (getAsset_ok initialAsset ia st Ei)).
        unfold loadNextPipeline.
        rewrite (bind_ok _ _ _ _ _ _ Hload).
        rewrite (proj2 (String.eqb_neq _ _) Hid). simpl.
        rewrite app_nil_r. reflexivity. }
      rewrite (fbind_total_ok _ _ _ _ _ _ Hsel). reflexivity.
Qed.

End Dispatch.

(** ** Whole runs *)

(** Scenario S4 with two children: the [js] child is run through the
    [js] pipeline and replaced by what that returns, the [ts] child is
    carried forward, and the post-processed list is returned.  Every
    lookup is followed by [getCode] on the assets it was keyed over. *)
Example run_split :
  map event_name (events_of (run splitHost 3 emptyState))
  = ["report"; "read /src/a.ts"; "loadConfig /src/a.ts"; "loadPlugin make";
     "get /src/a.ts:hello:ts@browser"; "getCode"; "transform ts";
     "commit"; "commit";
     "set /src/a.ts:JS1:js|/src/a.ts:TS2:ts@browser";
     "loadConfig /src/a.js"; "loadPlugin make";
     "get /src/a.ts:JS1:js@browser"; "getCode"; "transform js"; "commit";
     "set /src/a.ts:HELLO:js@browser";
     "get /src/a.ts:HELLO:js|/src/a.ts:TS2:ts@browser"; "getCode";
     "getCode"; "postProcess"; "commit"; "set /src/a.ts:POST:ts@browser"]
  /\ run_summary (run splitHost 3 emptyState)
     = Some (Some [(4%nat, "ts", BString "POST")],
             events_of (run splitHost 3 emptyState)).
Proof. split; vm_compute; reflexivity. Qed.

(** C5.  The lookup before the pipeline is keyed over the initial asset,
    and the write after [Pipeline.transform] over the assets of its
    result.  In a first run the lookup misses, [getCode] is still called
    on the initial asset, the transformation runs, and its result is
    stored under the key of the result; nothing is stored under the key
    that was looked up.  A later run of the same request, with every
    write complete, looks the same key up, misses again and transforms
    again.  When an entry does exist under the looked-up key, the cached
    list is the result, [transform] is not called, and [getCode] is called
    on the initial asset, not on the cached one. *)
Theorem pre_pipeline_lookup_misses_again :
  map event_name (events_of (run upperHost 2 emptyState))
  = ["report"; "read /src/a.js"; "loadConfig /src/a.js"; "loadPlugin make";
     "get /src/a.js:hello:js@browser"; "getCode"; "transform js"; "commit";
     "set /src/a.js:HELLO:js@browser"]
  /\ artifacts (store_of (run upperHost 2 emptyState))
     !! "/src/a.js:hello:js@browser" = None
  /\ (map a_content
        <$> artifacts (store_of (run upperHost 2 emptyState))
            !! "/src/a.js:HELLO:js@browser")
     = Some [BString "HELLO"]
  /\ map event_name
       (events_of (run upperHost 2
                     (later_run (store_of (run upperHost 2 emptyState)))))
     = map event_name (events_of (run upperHost 2 emptyState))
  /\ assets_of (obtainAssets basicHost upperPipeline 0%nat hitState)
     = Some [1%nat]
  /\ snd (obtainAssets basicHost upperPipeline 0%nat hitState)
     = [EvCacheGet "/src/a.js:h0:js@browser"; EvGetCode 0%nat].
Proof.
  split; [|split; [|split; [|split; [|split]]]]; vm_compute; reflexivity.
Qed.

(** C8.  The lookup before [postProcess] is keyed over the final assets,
    3 and 2, on which [getCode] is called; it misses, [postProcess] gets
    the assets 1 and 2 that [Pipeline.transform] returned, and its result,
    asset 4, is committed, stored under the key of asset 4 and returned.
    Nothing is stored under the key of the final assets, so a later run of
    the same request, with every write complete, misses again and calls
    [postProcess] again. *)
Theorem post_process_lookup_misses_again :
  map event_name (events_of (run splitHost 3 emptyState))
  = ["report"; "read /src/a.ts"; "loadConfig /src/a.ts"; "loadPlugin make";
     "get /src/a.ts:hello:ts@browser"; "getCode"; "transform ts";
     "commit"; "commit";
     "set /src/a.ts:JS1:js|/src/a.ts:TS2:ts@browser";
     "loadConfig /src/a.js"; "loadPlugin make";
     "get /src/a.ts:JS1:js@browser"; "getCode"; "transform js"; "commit";
     "set /src/a.ts:HELLO:js@browser";
     "get /src/a.ts:HELLO:js|/src/a.ts:TS2:ts@browser"; "getCode";
     "getCode"; "postProcess"; "commit"; "set /src/a.ts:POST:ts@browser"]
  /\ getCode_calls (events_of (run splitHost 3 emptyState))
     = [0%nat; 1%nat; 3%nat; 2%nat]
  /\ postProcess_calls (events_of (run splitHost 3 emptyState))
     = [[1%nat; 2%nat]]
  /\ run_summary (run splitHost 3 emptyState)
     = Some (Some [(4%nat, "ts", BString "POST")],
             events_of (run splitHost 3 emptyState))
  /\ artifacts (store_of (run splitHost 3 emptyState))
     !! "/src/a.ts:HELLO:js|/src/a.ts:TS2:ts@browser" = None
  /\ (map a_content
        <$> artifacts (store_of (run splitHost 3 emptyState))
            !! "/src/a.ts:POST:ts@browser")
     = Some [BString "POST"]
  /\ map event_name
       (events_of (run splitHost 3
                     (later_run (store_of (run splitHost 3 emptyState)))))
     = map event_name (events_of (run splitHost 3 emptyState)).
Proof.
  split; [|split; [|split; [|split; [|split; [|split]]]]];
    vm_compute; reflexivity.
Qed.

(** With too little fuel for the recursion the model has no outcome. *)
Example run_split_fuel :
  run splitHost 1 emptyState = None.
Proof. vm_compute. reflexivity. Qed.

(** C2, at the input where the code departs from it.  The request names
    [/proj/Makefile], which has no extension, and its pipeline emits a
    [js] asset.  The synthetic path is [.js]: the whole path is dropped,
    not just an extension replaced, and the config of the next pipeline
    is requested for [.js].  Here [/proj/Makefile.js] selects the [js]
    pipeline and [.js] the current one, so the asset is returned as it
    is instead of being run through the [js] pipeline. *)
Theorem next_pipeline_path_without_extension :
  extname "/proj/Makefile" = ""
  /\ nextFilePath "/proj/Makefile" "js" = ".js"
  /\ replace_extension "/proj/Makefile" "js" = "/proj/Makefile.js"
  /\ getTransformerNames splitConfig "/proj/Makefile.js" = Ok ["upper"]
  /\ getTransformerNames splitConfig ".js" = Ok ["make"]
  /\ map cr_filePath
       (configRequests (store_of (run makefileHost 3 emptyState)))
     = ["/proj/Makefile"; ".js"]
  /\ run_summary (run makefileHost 3 emptyState)
     = Some (Some [(1%nat, "js", BString "all:")],
             events_of (run makefileHost 3 emptyState)).
Proof. repeat split; vm_compute; reflexivity. Qed.

(** ** Two stages in one pipeline *)

(** The child made from a returned view carries the AST and the content
    the stage left on the asset. *)
Lemma createChildAsset_of_view (h : Host) (r : ref) (a : Asset) (st : State) :
  heap st !! r = Some a ->
  exists child,
    createChildAsset h r (resultOfAsset a) st
    = (Ok (length (heap st)), with_heap (heap st ++ [child]) st, [])
    /\ a_ast child = a_ast a
    /\ a_content child = a_content a
    /\ a_type child = a_type a.
Proof.
  intros E. unfold createChildAsset.
  rewrite (bind_ok _ _ _ _ _ _ (getAsset_ok r a st E)).
  eexists. split; [reflexivity|]. repeat split.
Qed.

(** Scenario S2 in a pipeline: both stages accept the dialect; [parse]
    runs once, the second [transform] sees the tree of the first, and
    [generate] runs once, at the end. *)
Example pipeline_handoff_reused :
  map event_name
    (snd (Pipeline_transform basicHost
            (pipelineOf ["ts"; "ts"] [tsStage; tsStage] None) 0%nat
            (stateOf [jsAsset])))
  = ["parse"; "transform js"; "canReuseAST ts"; "transform js"; "generate"]
  /\ transforms_seen
       (snd (Pipeline_transform basicHost
               (pipelineOf ["ts"; "ts"] [tsStage; tsStage] None) 0%nat
               (stateOf [jsAsset])))
     = [(0%nat, "js", Some tsAst); (1%nat, "js", Some tsAst)].
Proof. split; vm_compute; reflexivity. Qed.

(** Scenario S3 in a pipeline: the second stage rejects the dialect; the
    first stage's [generate] runs between the stages and the second
    stage parses again. *)
Example pipeline_handoff_rejected :
  map event_name
    (snd (Pipeline_transform basicHost
            (pipelineOf ["ts"; "babel"] [tsStage; babelStage] None) 0%nat
            (stateOf [jsAsset])))
  = ["parse"; "transform js"; "canReuseAST ts"; "generate"; "parse";
     "transform js"; "generate"]
  /\ transforms_seen
       (snd (Pipeline_transform basicHost
               (pipelineOf ["ts"; "babel"] [tsStage; babelStage] None) 0%nat
               (stateOf [jsAsset])))
     = [(0%nat, "js", Some tsAst); (1%nat, "js", Some babelAst)].
Proof. split; vm_compute; reflexivity. Qed.

(** A pipeline without transformers fails in [nullthrows]. *)
Example pipeline_without_transformers :
  fst (fst (Pipeline_transform basicHost (pipelineOf [] [] None) 0%nat
              (stateOf [jsAsset])))
  = Throw NullThrows.
Proof. reflexivity. Qed.

(** ** Fuel *)

Section Fuel.

Variable h : Host.

Lemma fbind_mono {A B} (m1 m2 : F A) (f1 f2 : A -> F B) (st : State) out :
  (forall x, m1 st = Some x -> m2 st = Some x) ->
  (forall a st1 y, f1 a st1 = Some y -> f2 a st1 = Some y) ->
  fbind m1 f1 st = Some out -> fbind m2 f2 st = Some out.
Proof.
  intros Hm Hf. unfold fbind.
  destruct (m1 st) as [[[[a|e] st1] ev1]|] eqn:E1; [| |discriminate].
  - rewrite (Hm _ eq_refl).
    destruct (f1 a st1) as [[[res st2] ev2]|] eqn:E2; [|discriminate].
    rewrite (Hf _ _ _ E2). intros H. exact H.
  - rewrite (Hm _ eq_refl). intros H. exact H.
Qed.

Lemma dispatch_mono (recur1 recur2 : Pipeline -> ref -> F (list ref))
    (pipeline : Pipeline) (initialAsset : ref) (initialType : string) :
  (forall p r st out, recur1 p r st = Some out -> recur2 p r st = Some out) ->
  forall assets finalAssets st out,
    dispatch h recur1 pipeline initialAsset initialType assets finalAssets st
    = Some out ->
    dispatch h recur2 pipeline initialAsset initialType assets finalAssets st
    = Some out.
Proof.
  intros Hrec assets.
  induction assets as [|asset rest IH]; intros finalAssets st out.
  - intros H. exact H.
  - simpl. apply fbind_mono; [intros x Hx; exact Hx|].
    intros [next|] st1 y.
    + apply fbind_mono; [intros x Hx; apply Hrec; exact Hx|].
      intros nextAssets st2 z. apply IH.
    + apply IH.
Qed.

(** What [runPipeline] returns with some fuel it returns with more. *)
Lemma runPipeline_fuel (fuel : nat) :
  forall pipeline initialAsset st out,
    runPipeline h fuel pipeline initialAsset st = Some out ->
    runPipeline h (S fuel) pipeline initialAsset st = Some out.
Proof.
  induction fuel as [|fuel IH]; intros pipeline initialAsset st out.
  - discriminate.
  - intros H. change (runPipeline h (S (S fuel)) pipeline initialAsset st)
      with (fbind (total (getAsset initialAsset)) (fun a =>
              fbind (total (obtainAssets h pipeline initialAsset)) (fun o =>
              fbind (dispatch h (runPipeline h (S fuel)) (fst o)
                       initialAsset (a_type a) (snd o) [])
                (fun finalAssets =>
                   total (postProcessAssets h (fst o) (snd o) finalAssets))))
              st).
    revert H. simpl runPipeline.
    apply fbind_mono; [intros x Hx; exact Hx|]. intros a st1 y.
    apply fbind_mono; [intros x Hx; exact Hx|]. intros o st2 z.
    apply fbind_mono; [|intros fa st3 w Hw; exact Hw].
    intros x. apply dispatch_mono. exact IH.
Qed.

(** [runPipeline] unfolded once. *)
Lemma runPipeline_steps (fuel : nat) (pipeline : Pipeline)
    (initialAsset : ref) (a : Asset) (st : State) :
  heap st !! initialAsset = Some a ->
  runPipeline h (S fuel) pipeline initialAsset st
  = fbind (total (obtainAssets h pipeline initialAsset)) (fun out =>
      fbind (dispatch h (runPipeline h fuel) (fst out) initialAsset
               (a_type a) (snd out) [])
        (fun finalAssets =>
           total (postProcessAssets h (fst out) (snd out) finalAssets)))
      st.
Proof.
  intros E. simpl runPipeline.
  rewrite (fbind_total_ok _ _ _ _ _ _ (getAsset_ok initialAsset a st E)).
  apply after_events_nil.
Qed.

End Fuel.

(** C1.  The generate closure is one slot of the pipeline, overwritten at
    the end of every call of [runTransformer].  The first stage emits two
    assets that both carry its [ts] tree; the second stage cannot reuse
    such a tree.  For the first asset the closure of the first stage is
    called, as the law says.  That call of [runTransformer] leaves the
    closure of the second stage in the slot, so for the second asset, which
    still carries the tree of the first stage, the second stage's own
    [generate] is called: the code that is parsed next was printed by the
    babel printer from a [ts] tree. *)
Theorem generate_slot_is_shared_by_siblings :
  cannot_reuse babelPrinterStage tsAst
  /\ assets_of
       (Pipeline_transform basicHost fanPipeline 0%nat (stateOf [jsAsset]))
     = Some [3%nat; 4%nat]
  /\ map event_name
       (snd (Pipeline_transform basicHost fanPipeline 0%nat
               (stateOf [jsAsset])))
     = ["parse"; "transform js";
        "canReuseAST ts"; "generate"; "parse"; "transform js";
        "canReuseAST ts"; "generate"; "parse"; "transform js";
        "generate"; "generate"]
  /\ generates_seen
       (snd (Pipeline_transform basicHost fanPipeline 0%nat
               (stateOf [jsAsset])))
     = [(1%nat, Some "ts"); (2%nat, Some "ts");
        (3%nat, Some "babel"); (4%nat, Some "babel")]
  /\ parses_seen
       (snd (Pipeline_transform basicHost fanPipeline 0%nat
               (stateOf [jsAsset])))
     = [(0%nat, BString "source");
        (1%nat, BString "ts printer on a ts tree");
        (2%nat, BString "babel printer on a ts tree")].
Proof.
  split.
  - right. eexists. split; reflexivity.
  - split; [|split; [|split]]; vm_compute; reflexivity.
Qed.

(** ** A failure at the end of the pipeline *)

(** Two assets leave the last stage with an AST and that stage has no
    [generate]: the closure is called for both, and the first error is
    the outcome. *)
Example finalize_all_called :
  promiseAll (finalize (Some (closureOf plainStage))) [0%nat; 1%nat]
    (stateOf [tsAsset; tsAsset])
  = (Throw (JsError no_generate_message), stateOf [tsAsset; tsAsset],
     [EvGenerate 0%nat tsAsset; EvGenerate 1%nat tsAsset]).
Proof. reflexivity. Qed.

(** * Further properties of the engine *)

(** ** Invariants kept by every step *)

Section Respects.

Variable h : Host.
Variable R : State -> State -> Prop.
Variable P : Event -> Prop.
Variable Q : ConfigRequest -> Prop.

Hypothesis R_refl : forall st, R st st.
Hypothesis R_trans : forall s1 s2 s3, R s1 s2 -> R s2 s3 -> R s1 s3.
Hypothesis R_heap : forall st hp, R st (with_heap hp st).
Hypothesis R_blobs : forall st b, R st (with_blobs b st).
Hypothesis R_artifacts : forall st c, R st (with_artifacts c st).
Hypothesis R_inflight : forall st w, R st (with_inflight w st).
Hypothesis R_lookups : forall st n, R st (with_lookups n st).
Hypothesis R_requests :
  forall st cr,
    Q cr -> R st (with_configRequests (configRequests st ++ [cr]) st).
Hypothesis Q_parcel : forall filePath, Q (parcelRequest h filePath).
Hypothesis Q_plugin :
  forall filePath name path, Q (pluginRequest h filePath name path).

Hypothesis P_getConfig : forall r a, P (EvGetConfig r a).
Hypothesis P_canReuseAST : forall ast, P (EvCanReuseAST ast).
Hypothesis P_parse : forall r a, P (EvParse r a).
Hypothesis P_transform : forall r a, P (EvTransform r a).
Hypothesis P_generate : forall r a, a_ast a <> None -> P (EvGenerate r a).
Hypothesis P_driver :
  forall e, hook_event e = false -> cache_lookup e = false -> P e.
Hypothesis P_lookup :
  forall key, cacheDisabled h = false -> P (EvCacheGet key).

Lemma respects_ret {A} (a : A) : respects R P (ret a).
Proof. intros st res st' ev H. inversion H; subst. auto. Qed.

Lemma respects_throw {A} (e : Error) : respects R P (@throw A e).
Proof. intros st res st' ev H. inversion H; subst. auto. Qed.

Lemma respects_bind {A B} (m : M A) (f : A -> M B) :
  respects R P m -> (forall a, respects R P (f a)) -> respects R P (bind m f).
Proof.
  intros Hm Hf st res st' ev H.
  destruct (bind_inv _ _ _ _ _ _ H)
    as [(a & st1 & ev1 & ev2 & H1 & H2 & ->)|(e & H1 & _)].
  - destruct (Hm _ _ _ _ H1) as [R1 P1].
    destruct (Hf a _ _ _ _ H2) as [R2 P2].
    split; [eapply R_trans; eassumption|].
    apply Forall_app. split; assumption.
  - exact (Hm _ _ _ _ H1).
Qed.

Lemma respects_bind_with {A B} (Post : A -> Prop) (m : M A)
    (f : A -> M B) :
  (forall st a st' ev, m st = (Ok a, st', ev) -> Post a) ->
  respects R P m ->
  (forall a, Post a -> respects R P (f a)) ->
  respects R P (bind m f).
Proof.
  intros Hpost Hm Hf st res st' ev H.
  destruct (bind_inv _ _ _ _ _ _ H)
    as [(a & st1 & ev1 & ev2 & H1 & H2 & ->)|(e & H1 & _)].
  - destruct (Hm _ _ _ _ H1) as [R1 P1].
    destruct (Hf a (Hpost _ _ _ _ H1) _ _ _ _ H2) as [R2 P2].
    split; [eapply R_trans; eassumption|].
    apply Forall_app. split; assumption.
  - exact (Hm _ _ _ _ H1).
Qed.

Lemma respects_emit (e : Event) : P e -> respects R P (emit e).
Proof.
  intros He st res st' ev H. inversion H; subst.
  split; [apply R_refl|]. constructor; [exact He|constructor].
Qed.

Lemma respects_lift {A} (x : Res A) : respects R P (lift x).
Proof. destruct x; [apply respects_ret|apply respects_throw]. Qed.

Lemma respects_nullthrows {A} (x : option A) : respects R P (nullthrows x).
Proof. destruct x; [apply respects_ret|apply respects_throw]. Qed.

Lemma respects_getAsset (r : ref) : respects R P (getAsset r).
Proof.
  intros st res st' ev. unfold getAsset.
  destruct (heap st !! r); intros H; inversion H; subst; auto.
Qed.

Lemma respects_setAsset (r : ref) (a : Asset) : respects R P (setAsset r a).
Proof. intros st res st' ev H. inversion H; subst. auto. Qed.

Lemma respects_modifyAsset (r : ref) (f : Asset -> Asset) :
  respects R P (modifyAsset r f).
Proof.
  apply respects_bind; [apply respects_getAsset|].
  intros a. apply respects_setAsset.
Qed.

Lemma respects_allocAsset (a : Asset) : respects R P (allocAsset a).
Proof. intros st res st' ev H. inversion H; subst. auto. Qed.

Lemma respects_update {B} (f : State -> State) (k : unit -> M B) :
  (forall st, R st (f st)) ->
  respects R P (k tt) ->
  respects R P (bind get_state (fun st => bind (put_state (f st)) k)).
Proof.
  intros Hf Hk st res st' ev. unfold bind at 1 2, get_state, put_state.
  destruct (k tt (f st)) as [[res1 st1] ev1] eqn:Ek. simpl.
  intros H. inversion H; subst.
  destruct (Hk _ _ _ _ Ek) as [R1 P1].
  split; [eapply R_trans; [apply Hf|exact R1]|exact P1].
Qed.

Lemma respects_get_state {B} (k : State -> M B) :
  (forall st, respects R P (k st)) -> respects R P (bind get_state k).
Proof.
  intros Hk st res st' ev. unfold bind, get_state.
  destruct (k st st) as [[res1 st1] ev1] eqn:Ek. simpl.
  intros H. inversion H; subst. exact (Hk _ _ _ _ _ Ek).
Qed.

Lemma respects_mapM {A B} (f : A -> M B) (l : list A) :
  (forall x, respects R P (f x)) -> respects R P (mapM f l).
Proof.
  intros Hf. induction l as [|x l IH]; [apply respects_ret|].
  simpl. apply respects_bind; [apply Hf|]. intros y.
  apply respects_bind; [exact IH|]. intros ys. apply respects_ret.
Qed.

Lemma respects_promiseAll {A B} (f : A -> M B) (l : list A) :
  (forall x, respects R P (f x)) -> respects R P (promiseAll f l).
Proof.
  intros Hf. induction l as [|x l IH]; [apply respects_ret|].
  intros st res st' ev. simpl.
  destruct (f x st) as [[y st1] ev1] eqn:Ef.
  destruct (promiseAll f l st1) as [[ys st2] ev2] eqn:El.
  intros H. inversion H; subst.
  destruct (Hf _ _ _ _ _ Ef) as [R1 P1].
  destruct (IH _ _ _ _ El) as [R2 P2].
  split; [eapply R_trans; eassumption|].
  apply Forall_app. split; assumption.
Qed.

Lemma respects_callWithView {A} (r : ref) (ev : Asset -> Event)
    (hook : Asset -> Res (Asset * A)) :
  (forall a, P (ev a)) -> respects R P (callWithView r ev hook).
Proof.
  intros Hev. unfold callWithView.
  apply respects_bind; [apply respects_getAsset|]. intros a.
  apply respects_bind; [apply respects_emit, Hev|]. intros _.
  apply respects_bind; [apply respects_lift|]. intros out.
  apply respects_bind; [apply respects_setAsset|]. intros _.
  apply respects_ret.
Qed.

(** The closure is called on the asset as the caller has just read it. *)
Lemma callGenerate_sees (g : GenerateFunc) (r : ref) (a : Asset) st res st'
    ev :
  heap st !! r = Some a ->
  a_ast a <> None ->
  callGenerate g r st = (res, st', ev) ->
  R st st' /\ Forall P ev.
Proof.
  intros E Hast H.
  pose proof (callGenerate_once g r st a res st' ev E H) as ->.
  split; [|constructor; [apply P_generate; exact Hast|constructor]].
  revert H. unfold callGenerate, bind.
  rewrite (getAsset_ok r a st E). unfold emit.
  destruct (t_generate (gf_transformer g)) as [generate|].
  - unfold lift.
    destruct (generate a (gf_config g) (gf_resolve g)) as [[a' out]|e];
      simpl; intros H; inversion H; subst; auto.
  - simpl. intros H. inversion H; subst. auto.
Qed.

Lemma cannotReuse_inv (t : Transformer) (ast : AST) st res st' ev :
  cannotReuse t ast st = (res, st', ev) -> st' = st /\ Forall P ev.
Proof.
  unfold cannotReuse. destruct (t_canReuseAST t) as [canReuseAST|].
  - unfold bind, emit, lift.
    destruct (canReuseAST ast) as [b|e]; simpl; intros H; inversion H;
      subst; (split; [reflexivity|]);
      (constructor; [apply P_canReuseAST|constructor]).
  - intros H. inversion H; subst. auto.
Qed.

Lemma respects_reconcileAST (p : Pipeline) (r : ref) (t : Transformer) :
  respects R P (reconcileAST p r t).
Proof.
  intros st res st' ev H. unfold reconcileAST in H.
  destruct (bind_inv _ _ _ _ _ _ H)
    as [(a & s1 & e1 & e2 & H1 & H2 & ->)|(e & H1 & _)];
    [|exact (respects_getAsset r _ _ _ _ H1)].
  destruct (getAsset_inv _ _ _ _ _ H1) as (E & -> & ->). simpl.
  destruct (a_ast a) as [ast|] eqn:Ea;
    [|exact (respects_ret tt _ _ _ _ H2)].
  destruct (bind_inv _ _ _ _ _ _ H2)
    as [(b & s2 & e3 & e4 & H3 & H4 & ->)|(e & H3 & _)].
  - destruct (cannotReuse_inv _ _ _ _ _ _ H3) as [-> P3].
    assert (R st st' /\ Forall P e4) as [R4 P4].
    { destruct b; [|exact (respects_ret tt _ _ _ _ H4)].
      destruct (p_generate p) as [g|];
        [|exact (respects_ret tt _ _ _ _ H4)].
      destruct (bind_inv _ _ _ _ _ _ H4)
        as [(out & s3 & e5 & e6 & H5 & H6 & ->)|(e & H5 & _)].
      - assert (Hast : a_ast a <> None) by (rewrite Ea; discriminate).
        destruct (callGenerate_sees g r a _ _ _ _ E Hast H5) as [R5 P5].
        destruct (respects_modifyAsset _ _ _ _ _ _ H6) as [R6 P6].
        split; [eapply R_trans; eassumption|].
        apply Forall_app. split; assumption.
      - assert (Hast : a_ast a <> None) by (rewrite Ea; discriminate).
        exact (callGenerate_sees g r a _ _ _ _ E Hast H5). }
    split; [exact R4|]. apply Forall_app. split; assumption.
  - destruct (cannotReuse_inv _ _ _ _ _ _ H3) as [-> P3]. auto.
Qed.

Lemma respects_runTransformer (p : Pipeline) (r : ref)
    (t : option Transformer) (pre : HookConfig) :
  respects R P (runTransformer h p r t pre).
Proof.
  unfold runTransformer. destruct t as [t|]; [|apply respects_throw].
  apply respects_bind; [apply respects_getAsset|]. intros a.
  apply respects_bind.
  { unfold loadStageConfig. destruct (t_getConfig t);
      [apply respects_callWithView, P_getConfig|apply respects_ret]. }
  intros config. apply respects_bind; [apply respects_reconcileAST|].
  intros _. apply respects_bind.
  { unfold parseStage.
    apply respects_bind; [apply respects_getAsset|]. intros a1.
    destruct (a_ast a1), (t_parse t); try apply respects_ret.
    apply respects_bind; [apply respects_callWithView, P_parse|].
    intros ast. apply respects_modifyAsset. }
  intros _. apply respects_bind.
  { unfold transformStage.
    apply respects_bind; [apply respects_callWithView, P_transform|].
    intros outs. unfold normalizeAssets. apply respects_mapM.
    intros [res|].
    - apply respects_ret.
    - apply respects_bind; [apply respects_getAsset|]. intros a1.
      apply respects_ret. }
  intros results. apply respects_ret.
Qed.

Lemma respects_finalize (g : option GenerateFunc) (r : ref) :
  respects R P (finalize g r).
Proof.
  intros st res st' ev H. unfold finalize in H.
  destruct (bind_inv _ _ _ _ _ _ H)
    as [(a & s1 & e1 & e2 & H1 & H2 & ->)|(e & H1 & _)];
    [|exact (respects_getAsset r _ _ _ _ H1)].
  destruct (getAsset_inv _ _ _ _ _ H1) as (E & -> & ->). simpl.
  destruct (a_ast a) as [ast|] eqn:Ea;
    [|exact (respects_ret r _ _ _ _ H2)].
  destruct g as [g|]; [|exact (respects_ret r _ _ _ _ H2)].
  assert (Hast : a_ast a <> None) by (rewrite Ea; discriminate).
  destruct (bind_inv _ _ _ _ _ _ H2)
    as [(out & s3 & e5 & e6 & H5 & H6 & ->)|(e & H5 & _)];
    [|exact (callGenerate_sees g r a _ _ _ _ E Hast H5)].
  destruct (callGenerate_sees g r a _ _ _ _ E Hast H5) as [R5 P5].
  assert (Hrest : respects R P
                    (modifyAsset r (fun a' =>
                       set_map (go_map out)
                         (set_content (BString (go_code out)) a')) ;;
                     ret r)).
  { apply respects_bind; [apply respects_modifyAsset|]. intros _.
    apply respects_ret. }
  destruct (Hrest _ _ _ _ H6) as [R6 P6].
  split; [eapply R_trans; eassumption|].
  apply Forall_app. split; assumption.
Qed.

Lemma respects_createChildAsset (parent : ref) (x : TransformerResult) :
  respects R P (createChildAsset h parent x).
Proof.
  unfold createChildAsset.
  apply respects_bind; [apply respects_getAsset|]. intros a.
  apply respects_allocAsset.
Qed.

Lemma respects_runStage (p : Pipeline) (ty : string)
    (t : TransformerWithNameAndConfig) (inputs : list ref) :
  respects R P (runStage h p ty t inputs).
Proof.
  revert p. induction inputs as [|r inputs IH]; intros p;
    [apply respects_ret|].
  simpl. apply respects_bind; [apply respects_getAsset|]. intros a.
  destruct (negb (String.eqb (a_type a) ty)).
  - apply respects_bind; [apply IH|]. intros out. apply respects_ret.
  - apply respects_bind; [apply respects_runTransformer|]. intros tr.
    apply respects_bind.
    { apply respects_mapM. intros x. apply respects_createChildAsset. }
    intros children. apply respects_bind; [apply IH|].
    intros out. apply respects_ret.
Qed.

Lemma respects_runStages (p : Pipeline) (ty : string)
    (ts : list TransformerWithNameAndConfig) (inputs fin : list ref)
    (res : option (list ref)) :
  respects R P (runStages h p ty ts inputs fin res).
Proof.
  revert p inputs fin res. induction ts as [|t ts IH];
    intros p inputs fin res; [apply respects_ret|].
  simpl. apply respects_bind; [apply respects_runStage|].
  intros out. apply IH.
Qed.

Lemma respects_Pipeline_transform (p : Pipeline) (r : ref) :
  respects R P (Pipeline_transform h p r).
Proof.
  unfold Pipeline_transform.
  apply respects_bind; [apply respects_getAsset|]. intros a.
  apply respects_bind; [apply respects_runStages|]. intros out.
  unfold finishTransform. apply respects_bind.
  { apply respects_promiseAll. intros asset.
    apply respects_bind; [apply respects_nullthrows|]. intros r1.
    apply respects_finalize. }
  intros assets. apply respects_ret.
Qed.

(** The driver. *)

Lemma respects_update0 (f : State -> State) :
  (forall st, R st (f st)) ->
  respects R P (bind get_state (fun st => put_state (f st))).
Proof.
  intros Hf st res st' ev. unfold bind, get_state, put_state. simpl.
  intros H. inversion H; subst. auto.
Qed.

Lemma respects_getCode (r : ref) : respects R P (getCode h r).
Proof.
  unfold getCode.
  apply respects_bind; [apply respects_getAsset|]. intros a.
  apply respects_bind; [apply respects_emit, P_driver; reflexivity|].
  intros _. destruct (a_content a); try apply respects_ret.
  apply respects_bind; [apply respects_lift|]. intros chunks.
  apply respects_ret.
Qed.

Lemma respects_commit (optionsHash : string) (r : ref) :
  respects R P (commit h optionsHash r).
Proof.
  unfold commit.
  apply respects_bind; [apply respects_getAsset|]. intros a.
  apply respects_bind; [apply respects_emit, P_driver; reflexivity|].
  intros _. cbv zeta.
  apply (respects_update
           (fun st =>
              with_blobs
                (<[outputHashOf h (a_content a) optionsHash := a_content a]>
                   (blobs st)) st)).
  - intros st. apply R_blobs.
  - apply respects_setAsset.
Qed.

Lemma respects_cache_read (key : string) (n : nat) :
  respects R P (cache_read h key n).
Proof.
  intros st res st' ev. unfold cache_read, bind, get_state.
  destruct (inflight st !! key) as [before|];
    [destruct (race h key n)|]; simpl;
    intros H; inversion H; subst; split; auto.
Qed.

Lemma respects_cache_await (key : string) (n : nat) :
  respects R P (cache_await h key n).
Proof.
  unfold cache_await.
  apply respects_bind; [apply respects_cache_read|]. intros found.
  destruct found as [records|]; [|apply respects_ret].
  apply respects_bind.
  { apply respects_mapM. intros a. apply respects_allocAsset. }
  intros rs. apply respects_ret.
Qed.

Lemma respects_cache_get (key : string) :
  cacheDisabled h = false -> respects R P (cache_get h key).
Proof.
  intros Hon. unfold cache_get.
  apply respects_bind; [apply respects_emit, P_lookup, Hon|].
  intros _.
  intros st res st' ev. unfold bind, get_state, put_state, ret. simpl.
  intros H. inversion H; subst. split; auto.
Qed.

Lemma cache_get_promise (key : string) st c st' ev :
  cache_get h key st = (Ok c, st', ev) ->
  exists n, c = cache_await h key n.
Proof.
  rewrite cache_get_call. intros H. inversion H. eauto.
Qed.

Lemma respects_cache_set (key : string) (assets : list ref) :
  respects R P (cache_set key assets).
Proof.
  unfold cache_set. apply respects_bind.
  { apply respects_mapM. intros r. apply respects_getAsset. }
  intros records.
  apply respects_bind; [apply respects_emit, P_driver; reflexivity|].
  intros _.
  apply (respects_update0
           (fun st =>
              with_inflight
                (match inflight st !! key with
                 | Some _ => inflight st
                 | None => <[key := artifacts st !! key]> (inflight st)
                 end)
                (with_artifacts (<[key := records]> (artifacts st)) st))).
  intros st. eapply R_trans; [apply R_artifacts|apply R_inflight].
Qed.

Lemma respects_loadConfig (cr : ConfigRequest) :
  Q cr -> respects R P (loadConfig h cr).
Proof.
  intros Hcr. unfold loadConfig.
  apply (respects_update
           (fun st => with_configRequests (configRequests st ++ [cr]) st)).
  - intros st. apply R_requests. exact Hcr.
  - apply respects_bind; [apply respects_emit, P_driver; reflexivity|].
    intros _. apply respects_lift.
Qed.

Lemma respects_newPipeline (names : list PackageName)
    (plugins : list Transformer) (configs : ConfigMap) :
  respects R P (newPipeline names plugins configs).
Proof.
  unfold newPipeline. cbv zeta.
  apply respects_bind; [apply respects_nullthrows|]. intros c.
  apply respects_bind; [apply respects_nullthrows|]. intros _.
  apply respects_ret.
Qed.

Lemma respects_callPluginMethod
    (f : option (PlainConfig -> Res PlainConfig)) (c : Config) :
  respects R P (callPluginMethod f c).
Proof.
  unfold callPluginMethod. destruct f; [|apply respects_throw].
  apply respects_bind; [apply respects_lift|]. intros pl.
  apply respects_ret.
Qed.

Lemma respects_loadPluginConfigs (pc : ParcelConfig) (filePath : FilePath)
    (configs : ConfigMap) (moduleNames : list PackageName) :
  (forall name, Q (pluginRequest h filePath name (resolvedPath pc))) ->
  respects R P (loadPluginConfigs h pc filePath configs moduleNames).
Proof.
  intros HQ. revert configs. induction moduleNames as [|name rest IH]; intros configs;
    [apply respects_ret|].
  simpl. apply respects_bind; [|intros configs'; apply IH].
  unfold loadPluginConfig.
  apply respects_bind; [apply respects_emit, P_driver; reflexivity|].
  intros _. apply respects_bind; [apply respects_lift|]. intros plugin.
  destruct (pl_loadConfig plugin); [|apply respects_ret].
  apply respects_bind.
  { unfold loadTransformerConfig. apply respects_loadConfig. apply HQ. }
  intros c. apply respects_bind; [|intros c'; apply respects_ret].
  destruct (rehydrate (c_plain c)); [apply respects_callPluginMethod|].
  destruct (reload (c_plain c));
    [apply respects_callPluginMethod|apply respects_ret].
Qed.

Lemma respects_loadPipeline (filePath : FilePath) :
  respects R P (loadPipeline h filePath).
Proof.
  unfold loadPipeline.
  apply respects_bind; [apply respects_loadConfig, Q_parcel|].
  intros config. apply respects_bind; [apply respects_nullthrows|].
  intros _. destruct (c_parcel config) as [pc|]; [|apply respects_throw].
  apply respects_bind.
  { apply respects_loadPluginConfigs. intros name. apply Q_plugin. }
  intros configs.
  apply respects_bind; [apply respects_lift|]. intros names.
  apply respects_bind; [apply respects_lift|]. intros plugins.
  apply respects_newPipeline.
Qed.

Lemma respects_loadNextPipeline (filePath : FilePath) (nextType : string)
    (p : Pipeline) :
  respects R P (loadNextPipeline h filePath nextType p).
Proof.
  unfold loadNextPipeline.
  apply respects_bind; [apply respects_loadPipeline|]. intros next.
  destruct (String.eqb (p_id next) (p_id p)); apply respects_ret.
Qed.

Lemma respects_getCacheKey (assets : list ref) (configs : ConfigMap) :
  respects R P (getCacheKey h assets configs).
Proof.
  unfold getCacheKey. apply respects_bind.
  { apply respects_mapM. intros r. apply respects_getAsset. }
  intros records. apply respects_ret.
Qed.

Lemma respects_readFromCache (assets : list ref) (configs : ConfigMap) :
  respects R P (readFromCache h assets configs).
Proof.
  unfold readFromCache.
  case_eq (cacheDisabled h); intros Hon; [apply respects_ret|].
  apply respects_bind; [apply respects_getCacheKey|]. intros key.
  apply (respects_bind_with (fun c => exists n, c = cache_await h key n)).
  - apply cache_get_promise.
  - apply respects_cache_get, Hon.
  - intros c [n ->].
    apply respects_bind; [|intros _; apply respects_cache_await].
    apply respects_promiseAll. intros r. apply respects_getCode.
Qed.

Lemma respects_writeToCache (assets : list ref) (configs : ConfigMap) :
  respects R P (writeToCache h assets configs).
Proof.
  unfold writeToCache.
  apply respects_bind; [apply respects_getCacheKey|]. intros key.
  apply respects_bind; [|intros _; apply respects_cache_set].
  apply respects_promiseAll. intros r. apply respects_commit.
Qed.

Lemma respects_callPostProcess (f : PostProcessFunc) (assets : list ref) :
  respects R P (callPostProcess h f assets).
Proof.
  unfold callPostProcess. apply respects_bind.
  { apply respects_mapM. intros r. apply respects_getAsset. }
  intros views.
  apply respects_bind; [apply respects_emit, P_driver; reflexivity|].
  intros _. apply respects_bind; [apply respects_lift|]. intros out.
  apply respects_bind.
  { apply respects_mapM. intros x. apply respects_setAsset. }
  intros _. apply respects_bind.
  { apply respects_mapM. intros x. apply respects_createChildAsset. }
  intros children. apply respects_ret.
Qed.

Lemma respects_obtainAssets (p : Pipeline) (r : ref) :
  respects R P (obtainAssets h p r).
Proof.
  unfold obtainAssets.
  apply respects_bind; [apply respects_readFromCache|]. intros entry.
  destruct entry; [apply respects_ret|].
  apply respects_bind; [apply respects_Pipeline_transform|]. intros out.
  apply respects_bind; [apply respects_writeToCache|]. intros _.
  apply respects_ret.
Qed.

Lemma respects_postProcessAssets (p : Pipeline) (assets finals : list ref) :
  respects R P (postProcessAssets h p assets finals).
Proof.
  unfold postProcessAssets.
  destruct (p_postProcess p) as [f|]; [|apply respects_ret].
  apply respects_bind; [apply respects_readFromCache|]. intros entry.
  destruct entry; [apply respects_ret|].
  apply respects_bind; [apply respects_callPostProcess|]. intros processed.
  cbv zeta. apply respects_bind; [apply respects_writeToCache|].
  intros _. apply respects_ret.
Qed.

Lemma respects_selectNextPipeline (p : Pipeline) (initialAsset : ref)
    (ty : string) (asset : ref) :
  respects R P (selectNextPipeline h p initialAsset ty asset).
Proof.
  unfold selectNextPipeline.
  apply respects_bind; [apply respects_getAsset|]. intros a.
  destruct (negb (String.eqb (a_type a) ty)); [|apply respects_ret].
  apply respects_bind; [apply respects_getAsset|]. intros ia.
  apply respects_loadNextPipeline.
Qed.

Lemma respects_pipe_chunks (path : FilePath) (chunks : list Buffer)
    (acc : TapState * Buffer) :
  respects R P (pipe_chunks path chunks acc).
Proof.
  revert acc. induction chunks as [|buf rest IH]; intros acc.
  - apply respects_ret.
  - simpl. apply respects_bind; [|intros t; apply IH].
    unfold tap. destruct (tap_content acc.1); try apply respects_ret.
    destruct (_ >? _); [|apply respects_ret].
    apply respects_bind; [apply respects_emit, P_driver; reflexivity|].
    intros _. apply respects_ret.
Qed.

Lemma respects_loadAsset : respects R P (loadAsset h).
Proof.
  unfold loadAsset. cbv zeta. apply respects_bind.
  { unfold summarizeRequest. destruct (req_code (request h));
      [apply respects_ret|].
    apply respects_bind; [apply respects_emit, P_driver; reflexivity|].
    intros _. apply respects_bind; [apply respects_lift|]. intros chunks.
    apply respects_bind; [apply respects_pipe_chunks|]. intros out.
    apply respects_ret. }
  intros s. apply respects_allocAsset.
Qed.

Lemma respectsF_total {A} (m : M A) : respects R P m -> respectsF R P (total m).
Proof.
  intros Hm st res st' ev H. unfold total in H. inversion H as [E].
  exact (Hm _ _ _ _ E).
Qed.

Lemma respectsF_fbind {A B} (m : F A) (f : A -> F B) :
  respectsF R P m -> (forall a, respectsF R P (f a)) ->
  respectsF R P (fbind m f).
Proof.
  intros Hm Hf st res st' ev. unfold fbind.
  destruct (m st) as [[[[a|e] st1] ev1]|] eqn:Em; [| |discriminate].
  - destruct (f a st1) as [[[res2 st2] ev2]|] eqn:Ef; [|discriminate].
    intros H. inversion H; subst.
    destruct (Hm _ _ _ _ Em) as [R1 P1].
    destruct (Hf a _ _ _ _ Ef) as [R2 P2].
    split; [eapply R_trans; eassumption|].
    apply Forall_app. split; assumption.
  - intros H. inversion H; subst. exact (Hm _ _ _ _ Em).
Qed.

Lemma respectsF_dispatch (recur : Pipeline -> ref -> F (list ref))
    (p : Pipeline) (initialAsset : ref) (ty : string)
    (assets finals : list ref) :
  (forall p' r, respectsF R P (recur p' r)) ->
  respectsF R P (dispatch h recur p initialAsset ty assets finals).
Proof.
  intros Hrec. revert finals.
  induction assets as [|asset rest IH]; intros finals.
  - apply respectsF_total, respects_ret.
  - simpl. apply respectsF_fbind.
    + apply respectsF_total, respects_selectNextPipeline.
    + intros [next|]; [|apply IH].
      apply respectsF_fbind; [apply Hrec|]. intros more. apply IH.
Qed.

Lemma respectsF_runPipeline (fuel : nat) (p : Pipeline) (r : ref) :
  respectsF R P (runPipeline h fuel p r).
Proof.
  revert p r. induction fuel as [|fuel IH]; intros p r.
  - intros st res st' ev H. discriminate H.
  - simpl. apply respectsF_fbind.
    { apply respectsF_total, respects_getAsset. }
    intros a. apply respectsF_fbind.
    { apply respectsF_total, respects_obtainAssets. }
    intros out. apply respectsF_fbind.
    { apply respectsF_dispatch. exact IH. }
    intros finals. apply respectsF_total, respects_postProcessAssets.
Qed.

Lemma respectsF_run (fuel : nat) : respectsF R P (run h fuel).
Proof.
  unfold run. apply respectsF_fbind.
  { apply respectsF_total.
    apply respects_bind; [apply respects_emit, P_driver; reflexivity|].
    intros _. apply respects_bind; [apply respects_loadAsset|].
    intros asset. apply respects_bind; [apply respects_getAsset|].
    intros a. apply respects_bind; [apply respects_loadPipeline|].
    intros p. apply respects_ret. }
  intros pa. apply respectsF_fbind; [apply respectsF_runPipeline|].
  intros assets. apply respectsF_total.
  apply respects_get_state. intros st. apply respects_ret.
Qed.

End Respects.

(** ** What a run records and calls *)

Lemma records_more_refl (Q : ConfigRequest -> Prop) (st : State) :
  records_more Q st st.
Proof. exists []. rewrite app_nil_r. split; [reflexivity|constructor]. Qed.

Lemma records_more_same (Q : ConfigRequest -> Prop) (st st' : State) :
  configRequests st' = configRequests st -> records_more Q st st'.
Proof.
  intros E. exists []. rewrite app_nil_r. split; [exact E|constructor].
Qed.

Lemma records_more_trans (Q : ConfigRequest -> Prop) (s1 s2 s3 : State) :
  records_more Q s1 s2 -> records_more Q s2 s3 -> records_more Q s1 s3.
Proof.
  intros (m1 & E1 & Q1) (m2 & E2 & Q2). exists (m1 ++ m2).
  rewrite E2, E1, app_assoc. split; [reflexivity|].
  apply Forall_app. split; assumption.
Qed.

Lemma records_more_request (Q : ConfigRequest -> Prop) (st : State)
    (cr : ConfigRequest) :
  Q cr ->
  records_more Q st (with_configRequests (configRequests st ++ [cr]) st).
Proof.
  intros Hcr. exists [cr]. split; [reflexivity|].
  constructor; [exact Hcr|constructor].
Qed.

Lemma loadConfig_run (h : Host) (cr : ConfigRequest) (st : State) :
  loadConfig h cr st
  = (loadConfigCallback h cr (parentNodeId h),
     with_configRequests (configRequests st ++ [cr]) st, [EvLoadConfig cr]).
Proof.
  unfold loadConfig, bind, get_state, put_state, emit, lift. simpl.
  destruct (loadConfigCallback h cr (parentNodeId h)); reflexivity.
Qed.

(** The requests [loadPipeline] records, whatever its outcome. *)
Lemma loadPipeline_records (h : Host) (filePath : FilePath) st res st' ev :
  loadPipeline h filePath st = (res, st', ev) ->
  exists more,
    configRequests st'
    = configRequests st ++ parcelRequest h filePath :: more
    /\ Forall (fun cr => cr_filePath cr = filePath
                         /\ cr_env cr = req_env (request h)
                         /\ cr_plugin cr <> None) more.
Proof.
  intros H. unfold loadPipeline in H.
  set (Q := fun cr => cr_filePath cr = filePath
                      /\ cr_env cr = req_env (request h)
                      /\ cr_plugin cr <> None).
  assert (Hrefl := records_more_refl Q).
  assert (Htrans := records_more_trans Q).
  assert (Hreq := records_more_request Q).
  assert (HP : forall e : Event,
             hook_event e = false -> cache_lookup e = false -> True)
    by (intros; exact I).
  destruct (bind_inv _ _ _ _ _ _ H)
    as [(config & s1 & e1 & e2 & H1 & H2 & ->)|(e & H1 & _)];
    fold (parcelRequest h filePath) in H1;
    rewrite loadConfig_run in H1; inversion H1; subst; clear H1.
  - match type of H2 with
    | ?m _ = _ =>
      assert (Hrest : respects (records_more Q) (fun _ => True) m)
    end.
    { apply respects_bind; [exact Htrans|apply respects_nullthrows, Hrefl|].
      intros _. destruct (c_parcel config) as [pc|];
        [|apply respects_throw, Hrefl].
      apply respects_bind; [exact Htrans| |].
      - apply (respects_loadPluginConfigs h _ _ Q); try assumption.
        intros name. repeat split. discriminate.
      - intros configs.
        apply respects_bind; [exact Htrans|apply respects_lift, Hrefl|].
        intros names.
        apply respects_bind; [exact Htrans|apply respects_lift, Hrefl|].
        intros plugins. apply respects_newPipeline; assumption. }
    destruct (Hrest _ _ _ _ H2) as [(more & E & HQ) _].
    exists more. simpl in E. rewrite E, <- app_assoc. auto.
  - exists []. split; [reflexivity|constructor].
Qed.

(** X1.  In a run that ends, whatever its outcome, every call of a
    remembered [generate] closure, whether [runTransformer] makes it to
    regenerate code or [finalize] at the end of [Pipeline.transform], is
    made on an asset that has an AST at that moment. *)
Theorem generate_only_with_ast (h : Host) (fuel : nat) (st : State) :
  Forall generate_sees_ast (events_of (run h fuel st)).
Proof.
  destruct (run h fuel st) as [[[res st'] ev]|] eqn:E; [|constructor].
  simpl.
  refine (proj2 (respectsF_run h (fun _ _ => True) generate_sees_ast
                   (fun _ => True) _ _ _ _ _ _ _ _ _ _ _ _ _ _ _ _ _
                   fuel st res st' ev E)); try (intros; exact I).
  - intros r a Hast. exact Hast.
  - intros e He _. destruct e; try exact I. discriminate He.
Qed.


(** X2.  [Pipeline.transform] calls nothing but hooks of transformers
    and leaves the artifact cache, the blob cache and the recorded config
    requests as they are, whether it returns or throws. *)
Theorem transform_leaves_caches (h : Host) (p : Pipeline) (r : ref)
    (st : State) :
  same_caches st (snd (fst (Pipeline_transform h p r st)))
  /\ Forall (fun e => hook_event e = true)
       (snd (Pipeline_transform h p r st)).
Proof.
  destruct (Pipeline_transform h p r st) as [[res st'] ev] eqn:E. simpl.
  refine (respects_Pipeline_transform h same_caches
            (fun e => hook_event e = true) _ _ _ _ _ _ _ _ p r
            st res st' ev E); try (intros; reflexivity).
  - intros st0. repeat split.
  - intros s1 s2 s3 (A1 & B1 & C1) (A2 & B2 & C2).
    repeat split; congruence.
  - intros st0 hp. repeat split.
Qed.

(** X3.  [loadPipeline] records its config requests whether it returns
    or throws: the requests recorded before are kept, the first new one is
    the request for the Parcel config of the path, and every other one is
    a plugin's request for the same path and the request's
    environment. *)
Theorem loadPipeline_records_requests (h : Host) (filePath : FilePath)
    (st : State) :
  exists more,
    configRequests (snd (fst (loadPipeline h filePath st)))
    = configRequests st ++ parcelRequest h filePath :: more
    /\ Forall (fun cr => cr_filePath cr = filePath
                         /\ cr_env cr = req_env (request h)
                         /\ cr_plugin cr <> None) more.
Proof.
  destruct (loadPipeline h filePath st) as [[res st'] ev] eqn:E.
  exact (loadPipeline_records h filePath st res st' ev E).
Qed.

Lemma fbind_inv_ok {A B} (m : F A) (f : A -> F B) st (b : B) st' ev :
  fbind m f st = Some (Ok b, st', ev) ->
  exists a st1 ev1 ev2,
    m st = Some (Ok a, st1, ev1) /\ f a st1 = Some (Ok b, st', ev2)
    /\ ev = ev1 ++ ev2.
Proof.
  unfold fbind. destruct (m st) as [[[[a|e] st1] ev1]|]; try discriminate.
  destruct (f a st1) as [[[res st2] ev2]|] eqn:Ef; [|discriminate].
  intros H. inversion H; subst. exists a, st1, ev1, ev2. auto.
Qed.

Lemma tap_state (path : FilePath) (t : TapState) (buf : Buffer)
    st res st' ev :
  tap path t buf st = (res, st', ev) -> st' = st.
Proof.
  unfold tap. destruct (tap_content t); try destruct (_ >? _);
    unfold bind, emit, ret; intros H; inversion H; reflexivity.
Qed.

Lemma pipe_chunks_state (path : FilePath) (chunks : list Buffer)
    (acc : TapState * Buffer) st res st' ev :
  pipe_chunks path chunks acc st = (res, st', ev) -> st' = st.
Proof.
  revert acc st res st' ev.
  induction chunks as [|buf rest IH]; intros acc st res st' ev H.
  - inversion H. reflexivity.
  - simpl in H.
    destruct (bind_inv _ _ _ _ _ _ H)
      as [(t & s1 & e1 & e2 & H1 & H2 & _)|(e & H1 & _)].
    + apply tap_state in H1. subst s1. exact (IH _ _ _ _ _ H2).
    + exact (tap_state _ _ _ _ _ _ _ H1).
Qed.

Lemma summarizeRequest_state (h : Host) (req : AssetRequest) st res st' ev :
  summarizeRequest h req st = (res, st', ev) -> st' = st.
Proof.
  unfold summarizeRequest. destruct (req_code req).
  - intros H. inversion H. reflexivity.
  - intros H.
    destruct (bind_inv _ _ _ _ _ _ H)
      as [(u1 & s1 & e1 & e2 & H1 & H2 & _)|(e & H1 & _)];
      [|inversion H1].
    assert (s1 = st) by (inversion H1; reflexivity). subst s1.
    destruct (bind_inv _ _ _ _ _ _ H2)
      as [(chunks & s2 & e3 & e4 & H3 & H4 & _)|(e & H3 & _)].
    + assert (s2 = st)
        by (unfold lift in H3; destruct (createReadStream h _);
            inversion H3; reflexivity).
      subst s2.
      destruct (bind_inv _ _ _ _ _ _ H4)
        as [(out & s3 & e5 & e6 & H5 & H6 & _)|(e & H5 & _)].
      * apply pipe_chunks_state in H5. subst s3.
        inversion H6. reflexivity.
      * exact (pipe_chunks_state _ _ _ _ _ _ _ H5).
    + unfold lift in H3; destruct (createReadStream h _);
        inversion H3; reflexivity.
Qed.

(** The asset [loadAsset] creates: a new object with the path of the
    request and no AST; nothing else of the store changes. *)
Lemma loadAsset_inv (h : Host) st r st' ev :
  loadAsset h st = (Ok r, st', ev) ->
  exists a,
    r = length (heap st) /\ heap st' = heap st ++ [a]
    /\ a_filePath a = req_filePath (request h) /\ a_ast a = None
    /\ a_type a = js_slice_from (extname (req_filePath (request h))) 1
    /\ configRequests st' = configRequests st.
Proof.
  unfold loadAsset. cbv zeta. intros H. apply bind_inv_ok in H.
  destruct H as (s & s1 & e1 & e2 & H1 & H2 & _).
  assert (Hs : s1 = st) by exact (summarizeRequest_state _ _ _ _ _ _ H1).
  subst s1. unfold allocAsset in H2. inversion H2; subst.
  eexists. repeat split.
Qed.

(** X4.  A run that returns hands back the config requests recorded in
    the store: those recorded before it, then the request for the Parcel
    config of the request's file, then the others, each of which carries
    the environment of the request. *)
Theorem run_returns_recorded_requests (h : Host) (fuel : nat) (st : State)
    assets requests st' ev :
  run h fuel st = Some (Ok (assets, requests), st', ev) ->
  requests = configRequests st'
  /\ exists more,
       requests
       = configRequests st
         ++ parcelRequest h (req_filePath (request h)) :: more
       /\ Forall (fun cr => cr_env cr = req_env (request h)) more.
Proof.
  intros H. unfold run in H. apply fbind_inv_ok in H.
  destruct H as ([p asset] & s1 & e1 & e2 & H1 & H & _).
  apply fbind_inv_ok in H.
  destruct H as (assets' & s2 & e3 & e4 & H2 & H3 & _).
  unfold total in H1, H3. inversion H1 as [H1']. inversion H3 as [H3'].
  clear H1 H3.
  assert (Hreq : requests = configRequests st' /\ st' = s2).
  { revert H3'. unfold bind, get_state, ret. simpl.
    intros H3'. inversion H3'; subst. auto. }
  destruct Hreq as [-> ->]. split; [reflexivity|].
  apply bind_inv_ok in H1'.
  destruct H1' as (u0 & s3 & e5 & e6 & Hemit & H1' & _).
  inversion Hemit; subst. apply bind_inv_ok in H1'.
  destruct H1' as (r0 & s4 & e7 & e8 & Hload & H1' & _).
  destruct (loadAsset_inv _ _ _ _ _ Hload)
    as (a0 & -> & Hheap & Hpath & _ & _ & Hcr).
  apply bind_inv_ok in H1'.
  destruct H1' as (a & s5 & e9 & e10 & Hget & H1' & _).
  destruct (getAsset_inv _ _ _ _ _ Hget) as (E & -> & _).
  rewrite Hheap in E. rewrite lookup_app_r in E by lia.
  rewrite Nat.sub_diag in E. inversion E; subst a0. clear E.
  apply bind_inv_ok in H1'.
  destruct H1' as (p0 & s6 & e11 & e12 & Hpipe & H1' & _).
  inversion H1'; subst. clear H1'.
  destruct (loadPipeline_records _ _ _ _ _ _ Hpipe) as (m1 & E1 & Q1).
  set (Q := fun cr => cr_env cr = req_env (request h)).
  assert (HR : forall fuel p r,
             respectsF (records_more Q) (fun _ => True)
               (runPipeline h fuel p r)).
  { apply (respectsF_runPipeline h (records_more Q) (fun _ => True) Q
             (records_more_refl Q) (records_more_trans Q));
      try (intros; exact I).
    - intros st0 hp. apply records_more_same. reflexivity.
    - intros st0 b. apply records_more_same. reflexivity.
    - intros st0 c. apply records_more_same. reflexivity.
    - intros st0 w. apply records_more_same. reflexivity.
    - intros st0 n. apply records_more_same. reflexivity.
    - apply records_more_request.
    - intros filePath. reflexivity.
    - intros filePath name path. reflexivity. }
  destruct (HR _ _ _ _ _ _ _ H2) as [(m2 & E2 & Q2) _].
  exists (m1 ++ m2). rewrite E2, E1, Hpath, Hcr, <- app_assoc.
  split; [reflexivity|]. apply Forall_app. split; [|exact Q2].
  eapply Forall_impl; [exact Q1|]. simpl. intros cr (_ & Hcr' & _).
  exact Hcr'.
Qed.

Lemma run_returns_recorded_requests_witness :
  exists assets requests st' ev more,
    run splitHost 3 emptyState = Some (Ok (assets, requests), st', ev)
    /\ requests = configRequests st'
    /\ requests
       = configRequests emptyState
         ++ parcelRequest splitHost (req_filePath (request splitHost))
            :: more.
Proof.
  destruct (run splitHost 3 emptyState)
    as [[[[[assets requests]|e] st'] ev]|] eqn:E;
    [|vm_compute in E; discriminate E|vm_compute in E; discriminate E].
  destruct (run_returns_recorded_requests splitHost 3 emptyState
              assets requests st' ev E) as (H1 & more & H2 & _).
  exists assets, requests, st', ev, more. auto.
Defined.

(** ** The loops of [Pipeline.transform] *)

(** X5.  A pipeline without transformers cannot transform anything:
    [resultingAssets] is still undefined after the loop, [concat] appends
    it as an element, and [nullthrows] rejects it before any hook is
    called; the store is left as it was. *)
Theorem transform_without_transformers (h : Host) (p : Pipeline) (r : ref)
    (a : Asset) (st : State) :
  p_transformers p = [] ->
  heap st !! r = Some a ->
  Pipeline_transform h p r st = (Throw NullThrows, st, []).
Proof.
  intros Hts E. unfold Pipeline_transform.
  rewrite (bind_ok _ _ _ _ _ _ (getAsset_ok r a st E)).
  rewrite Hts. reflexivity.
Qed.

Lemma transform_without_transformers_witness :
  p_transformers postPipeline = []
  /\ Pipeline_transform basicHost postPipeline 0%nat (stateOf [jsAsset])
     = (Throw NullThrows, stateOf [jsAsset], []).
Proof.
  split; [reflexivity|].
  exact (transform_without_transformers basicHost postPipeline 0%nat
           jsAsset (stateOf [jsAsset]) eq_refl eq_refl).
Defined.

Lemma runStage_changed (h : Host) (p : Pipeline) (ty : string)
    (t : TransformerWithNameAndConfig) (inputs : list ref) (st : State) :
  Forall (fun r => exists a, heap st !! r = Some a /\ a_type a <> ty)
    inputs ->
  runStage h p ty t inputs st = (Ok (p, inputs, []), st, []).
Proof.
  induction 1 as [|r inputs (a & E & Hty) _ IH]; [reflexivity|].
  simpl. rewrite (bind_ok _ _ _ _ _ _ (getAsset_ok r a st E)).
  apply String.eqb_neq in Hty. rewrite Hty. simpl.
  rewrite (bind_ok _ _ _ _ _ _ IH). reflexivity.
Qed.

Lemma runStages_idle (h : Host) (p : Pipeline) (ty : string)
    (ts : list TransformerWithNameAndConfig) (finals : list ref)
    (st : State) :
  runStages h p ty ts [] finals (Some []) st
  = (Ok (p, finals, Some []), st, []).
Proof.
  revert finals. induction ts as [|t ts IH]; intros finals; [reflexivity|].
  simpl. unfold bind at 1. simpl. rewrite app_nil_r. rewrite IH.
  reflexivity.
Qed.

(** X6.  Once every asset of the working set has a type other than the
    initial one, the transformers that are left are not run, not even
    looked at: each asset is handed over to the final assets once, in
    order, nothing is called and nothing changes. *)
Theorem changed_types_skip_stages (h : Host) (p : Pipeline) (ty : string)
    (t : TransformerWithNameAndConfig)
    (ts : list TransformerWithNameAndConfig) (inputs finals : list ref)
    (resulting : option (list ref)) (st : State) :
  Forall (fun r => exists a, heap st !! r = Some a /\ a_type a <> ty)
    inputs ->
  runStages h p ty (t :: ts) inputs finals resulting st
  = (Ok (p, finals ++ inputs, Some []), st, []).
Proof.
  intros Hin. simpl.
  rewrite (bind_ok _ _ _ _ _ _ (runStage_changed h p ty t inputs st Hin)).
  simpl. rewrite runStages_idle. reflexivity.
Qed.

Lemma changed_types_skip_stages_witness :
  runStages basicHost upperPipeline "ts"
    [{| tn_name := "missing"; tn_plugin := None; tn_config := None |};
     stageOf "drop" dropStage]
    [0%nat; 1%nat] [] None (stateOf [jsAsset; cssAsset])
  = (Ok (upperPipeline, [0%nat; 1%nat], Some []),
     stateOf [jsAsset; cssAsset], []).
Proof.
  apply (changed_types_skip_stages basicHost upperPipeline "ts").
  repeat constructor.
  - exists jsAsset. split; [reflexivity|discriminate].
  - exists cssAsset. split; [reflexivity|discriminate].
Defined.

(** The children of a stage are created after the stage began; its final
    assets are taken from its input. *)
Lemma mapM_createChildAsset_new (h : Host) (parent : ref)
    (xs : list TransformerResult) st cs st' ev :
  mapM (createChildAsset h parent) xs st = (Ok cs, st', ev) ->
  Forall (fun c => (length (heap st) <= c)%nat) cs.
Proof.
  revert st cs st' ev. induction xs as [|x xs IH]; intros st cs st' ev H.
  - inversion H; subst. constructor.
  - simpl in H. apply bind_inv_ok in H.
    destruct H as (c & s1 & e1 & e2 & H1 & H & _).
    apply bind_inv_ok in H.
    destruct H as (cs' & s2 & e3 & e4 & H2 & H & _).
    inversion H; subst.
    destruct (createChildAsset_valid _ _ _ _ _ _ _ H1) as [_ Hle1].
    constructor.
    + unfold createChildAsset in H1. apply bind_inv_ok in H1.
      destruct H1 as (a & s0 & e5 & e6 & Hg & Ha & _).
      pose proof (keeps_size_getAsset parent _ _ _ _ Hg) as Hs.
      unfold allocAsset in Ha. inversion Ha; subst. lia.
    + eapply Forall_impl; [exact (IH _ _ _ _ H2)|]. simpl. intros c' Hc'.
      lia.
Qed.

Lemma runStage_new (h : Host) (p : Pipeline) (ty : string)
    (t : TransformerWithNameAndConfig) (inputs : list ref) (n : nat)
    st p' fin res st' ev :
  (n <= length (heap st))%nat ->
  Forall (fun c => (n <= c)%nat) inputs ->
  runStage h p ty t inputs st = (Ok (p', fin, res), st', ev) ->
  Forall (fun c => (n <= c)%nat) fin
  /\ Forall (fun c => (n <= c)%nat) res
  /\ (length (heap st) <= length (heap st'))%nat.
Proof.
  revert p st p' fin res st' ev.
  induction inputs as [|r inputs IH]; intros p st p' fin res st' ev Hn Hi H.
  - inversion H; subst. repeat split; [constructor|constructor|lia].
  - inversion Hi as [|? ? Hr Hrest]; subst.
    simpl in H. apply bind_inv_ok in H.
    destruct H as (a & s1 & e1 & e2 & H1 & H & _).
    pose proof (keeps_size_getAsset r _ _ _ _ H1) as Hs1.
    destruct (negb (String.eqb (a_type a) ty)).
    + apply bind_inv_ok in H.
      destruct H as ([[p2 fin2] res2] & s2 & e3 & e4 & H2 & H & _).
      destruct (IH p s1 p2 fin2 res2 s2 e3) as (Hf & Hres & Hle);
        [lia|exact Hrest|exact H2|].
      inversion H; subst. simpl.
      split; [constructor; assumption|]. split; [exact Hres|lia].
    + apply bind_inv_ok in H.
      destruct H as ([p1 results] & s2 & e3 & e4 & H2 & H & _).
      pose proof (keeps_size_runTransformer h p r _ _ _ _ _ _ H2) as Hs2.
      apply bind_inv_ok in H.
      destruct H as (children & s3 & e5 & e6 & H3 & H & _).
      pose proof (mapM_createChildAsset_new _ _ _ _ _ _ _ H3) as Hc.
      destruct (mapM_createChildAsset_valid _ _ _ _ _ _ _ H3) as [_ Hle3].
      apply bind_inv_ok in H.
      destruct H as ([[p2 fin2] res2] & s4 & e7 & e8 & H4 & H & _).
      simpl in *.
      destruct (IH p1 s3 p2 fin2 res2 s4 e7) as (Hf & Hres & Hle);
        [lia|exact Hrest|exact H4|].
      inversion H; subst.
      split; [exact Hf|]. split; [|lia].
      apply Forall_app. split; [|exact Hres].
      eapply Forall_impl; [exact Hc|]. simpl. intros c Hc'. lia.
Qed.

Lemma runStage_first (h : Host) (p : Pipeline)
    (t : TransformerWithNameAndConfig) (r : ref) (a : Asset)
    st p' fin res st' ev :
  heap st !! r = Some a ->
  runStage h p (a_type a) t [r] st = (Ok (p', fin, res), st', ev) ->
  fin = []
  /\ Forall (fun c => (length (heap st) <= c)%nat) res
  /\ (length (heap st) <= length (heap st'))%nat.
Proof.
  intros E H. simpl in H.
  rewrite (bind_ok _ _ _ _ _ _ (getAsset_ok r a st E)) in H.
  rewrite String.eqb_refl in H. simpl in H.
  destruct (bind _ _ st) as [[res0 s0] ev0] eqn:Hb in H.
  inversion H; subst. clear H.
  apply bind_inv_ok in Hb.
  destruct Hb as ([p1 results] & s2 & e3 & e4 & H2 & H & _).
  pose proof (keeps_size_runTransformer h p r _ _ _ _ _ _ H2) as Hs2.
  apply bind_inv_ok in H.
  destruct H as (children & s3 & e5 & e6 & H3 & H & _).
  pose proof (mapM_createChildAsset_new _ _ _ _ _ _ _ H3) as Hc.
  destruct (mapM_createChildAsset_valid _ _ _ _ _ _ _ H3) as [_ Hle3].
  apply bind_inv_ok in H.
  destruct H as ([[p2 fin2] res2] & s4 & e7 & e8 & H4 & H & _).
  inversion H4; subst. inversion H; subst. simpl in *.
  rewrite app_nil_r. split; [reflexivity|]. split; [|lia].
  eapply Forall_impl; [exact Hc|]. simpl. intros c Hc'. lia.
Qed.

Lemma runStages_new (h : Host) (p : Pipeline) (ty : string)
    (ts : list TransformerWithNameAndConfig) (inputs fin0 res0 : list ref)
    (n : nat) st p' fin res st' ev :
  (n <= length (heap st))%nat ->
  Forall (fun c => (n <= c)%nat) inputs ->
  Forall (fun c => (n <= c)%nat) fin0 ->
  Forall (fun c => (n <= c)%nat) res0 ->
  runStages h p ty ts inputs fin0 (Some res0) st
  = (Ok (p', fin, res), st', ev) ->
  exists l,
    res = Some l /\ Forall (fun c => (n <= c)%nat) (fin ++ l).
Proof.
  revert p inputs fin0 res0 st p' fin res st' ev.
  induction ts as [|t ts IH];
    intros p inputs fin0 res0 st p' fin res st' ev Hn Hi Hf Hr H.
  - inversion H; subst. exists res0. split; [reflexivity|].
    apply Forall_app. split; assumption.
  - simpl in H. apply bind_inv_ok in H.
    destruct H as ([[p1 fin1] res1] & s1 & e1 & e2 & H1 & H & _).
    destruct (runStage_new _ _ _ _ _ _ _ _ _ _ _ _ Hn Hi H1)
      as (Hf1 & Hr1 & Hle).
    simpl in H.
    refine (IH _ _ _ _ _ _ _ _ _ _ _ Hr1 _ Hr1 H); [lia|].
    apply Forall_app. split; assumption.
Qed.

Lemma finalizeAll_returns (g : option GenerateFunc) (l : list (option ref))
    st assets st' ev :
  promiseAll (fun asset => r <- nullthrows asset ;; finalize g r) l st
  = (Ok assets, st', ev) ->
  l = map Some assets.
Proof.
  revert st assets st' ev.
  induction l as [|o l IH]; intros st assets st' ev H.
  - inversion H; subst. reflexivity.
  - apply promiseAll_ok_inv in H.
    destruct H as (r' & rs & s1 & e1 & e3 & H1 & H2 & -> & _).
    apply bind_inv_ok in H1.
    destruct H1 as (r & s0 & e5 & e6 & Hn & Hfin & _).
    destruct o as [r0|]; [|discriminate Hn].
    inversion Hn; subst.
    pose proof (finalize_returns _ _ _ _ _ _ Hfin) as ->.
    simpl. rewrite (IH _ _ _ _ H2). reflexivity.
Qed.

(** X7.  With at least one transformer, every asset [Pipeline.transform]
    returns is an object created during the call: the initial asset is
    replaced by the children of the first transformer and is never
    returned itself. *)
Theorem transform_returns_new_assets (h : Host) (p p' : Pipeline) (r : ref)
    (st st' : State) (assets : list ref) (ev : list Event) :
  p_transformers p <> [] ->
  Pipeline_transform h p r st = (Ok (p', assets), st', ev) ->
  created_since (length (heap st)) st' assets /\ ~ In r assets.
Proof.
  intros Hts H.
  pose proof (Pipeline_transform_valid h p p' r st st' assets ev H) as Hv.
  unfold Pipeline_transform in H.
  apply bind_inv_ok in H. destruct H as (a & s1 & e1 & e2 & H1 & H & _).
  destruct (getAsset_inv _ _ _ _ _ H1) as (E & -> & _).
  apply bind_inv_ok in H.
  destruct H as ([[p1 fin] res] & s2 & e3 & e4 & H2 & H & _).
  destruct (p_transformers p) as [|t ts]; [congruence|].
  simpl in H2. apply bind_inv_ok in H2.
  destruct H2 as ([[p2 fin1] res1] & s3 & e5 & e6 & H3 & H2 & _).
  destruct (runStage_first h p t r a _ _ _ _ _ _ E H3)
    as (Hfin1 & Hres1 & Hle).
  subst fin1. simpl in H2.
  destruct (runStages_new h p2 (a_type a) ts res1 [] res1
              (length (heap st)) _ _ _ _ _ _ Hle Hres1
              (List.Forall_nil _) Hres1 H2)
    as (l & -> & Hnew).
  simpl in H. unfold finishTransform in H.
  apply bind_inv_ok in H. destruct H as (rs & s4 & e7 & e8 & H4 & H & _).
  inversion H; subst.
  apply finalizeAll_returns in H4. unfold concat_resulting in H4.
  apply (f_equal (omap id)) in H4.
  assert (Homap : forall xs : list ref, omap id (map Some xs) = xs).
  { induction xs as [|x xs IHxs]; [reflexivity|].
    simpl. f_equal. exact IHxs. }
  rewrite !Homap in H4. subst assets.
  assert (Hc : created_since (length (heap st)) st' (fin ++ l)).
  { unfold created_since, valid in *.
    apply List.Forall_forall. intros c Hin. split.
    - exact (proj1 (List.Forall_forall _ _) Hnew c Hin).
    - exact (proj1 (List.Forall_forall _ _) Hv c Hin). }
  split; [exact Hc|]. intros Hin.
  pose proof (proj1 (List.Forall_forall _ _) Hc r Hin) as [Hge _].
  apply lookup_lt_Some in E. lia.
Qed.

Lemma transform_returns_new_assets_witness :
  exists p' st' ev,
    Pipeline_transform basicHost upperPipeline 0%nat (stateOf [jsAsset])
    = (Ok (p', [1%nat]), st', ev)
    /\ created_since 1 st' [1%nat]
    /\ ~ In 0%nat [1%nat].
Proof.
  destruct (Pipeline_transform basicHost upperPipeline 0%nat
              (stateOf [jsAsset])) as [[[[p' assets]|e] st'] ev] eqn:E;
    [|vm_compute in E; discriminate E].
  assert (Ha : assets = [1%nat])
    by (vm_compute in E; inversion E; reflexivity).
  subst assets. exists p', st', ev. split; [reflexivity|].
  apply (transform_returns_new_assets basicHost upperPipeline p' 0%nat
           (stateOf [jsAsset]) st' [1%nat] ev); [discriminate|exact E].
Defined.

(** ** Writing to the cache and reading it back *)

Section CacheRoundTrip.

Variable h : Host.

(** Committing leaves the content and what the cache key is computed
    from. *)
Lemma mapM_commit_keys (optionsHash : string) (assets : list ref)
    st res st' ev :
  mapM (commit h optionsHash) assets st = (res, st', ev) ->
  forall r a,
    heap st !! r = Some a ->
    exists a',
      heap st' !! r = Some a' /\ assetKeyInfo a' = assetKeyInfo a
      /\ a_content a' = a_content a.
Proof.
  revert st res st' ev.
  induction assets as [|r0 assets IH]; intros st res st' ev H r a E.
  - inversion H; subst. eauto.
  - simpl in H.
    destruct (bind_inv _ _ _ _ _ _ H)
      as [(u0 & s1 & e1 & e2 & H1 & H2 & _)|(e & H1 & _)].
    + assert (Hs1 : exists a1, heap s1 !! r = Some a1
                               /\ assetKeyInfo a1 = assetKeyInfo a
                               /\ a_content a1 = a_content a).
      { destruct (heap st !! r0) as [a0|] eqn:E0.
        - rewrite (commit_ok h optionsHash r0 a0 st E0) in H1.
          inversion H1; subst. simpl.
          destruct (decide (r0 = r)) as [Heq|Hne].
          + subst r0. pose proof (eq_trans (eq_sym E0) E) as Hs.
            inversion Hs; subst a0.
            rewrite list_lookup_insert_eq by (eapply lookup_lt_Some; eauto).
            eauto.
          + rewrite list_lookup_insert_ne by exact Hne. eauto.
        - unfold commit, bind, getAsset in H1. rewrite E0 in H1.
          discriminate H1. }
      destruct Hs1 as (a1 & E1 & K1 & C1).
      destruct (bind_inv _ _ _ _ _ _ H2)
        as [(us & s2 & e3 & e4 & H3 & H4 & _)|(e & H3 & _)].
      * inversion H4; subst.
        destruct (IH _ _ _ _ H3 r a1 E1) as (a' & E' & K' & C').
        exists a'. split; [exact E'|split; congruence].
      * destruct (IH _ _ _ _ H3 r a1 E1) as (a' & E' & K' & C').
        exists a'. split; [exact E'|split; congruence].
    + destruct (heap st !! r0) as [a0|] eqn:E0.
      * rewrite (commit_ok h optionsHash r0 a0 st E0) in H1.
        discriminate H1.
      * unfold commit, bind, getAsset in H1. rewrite E0 in H1.
        inversion H1; subst. eauto.
Qed.

(** The records [writeToCache] stores have the key and the contents of
    the records it was given. *)
Lemma writeToCache_records (assets : list ref) (records records2 : list Asset)
    (configs : ConfigMap) (st st2 : State) (ev : list Event) :
  Forall2 (fun r a => heap st !! r = Some a) assets records ->
  writeToCache h assets configs st = (Ok tt, st2, ev) ->
  Forall2 (fun r a => heap st2 !! r = Some a) assets records2 ->
  map assetKeyInfo records2 = map assetKeyInfo records
  /\ map a_content records2 = map a_content records.
Proof.
  intros Hrec Hw Hrec2.
  unfold writeToCache in Hw.
  rewrite (bind_ok _ _ _ _ _ _
             (getCacheKey_ok h assets records configs st Hrec)) in Hw.
  destruct (mapM_commit h
              (md5FromObject h (OptionsObject (opt_impactful h)))
              assets st (records_valid st assets records Hrec))
    as (st1 & Hm & Hl & _).
  rewrite (bind_ok _ _ _ _ _ _ (promiseAll_mapM _ _ _ _ _ _ Hm)) in Hw.
  pose proof (mapM_commit_keys _ _ _ _ _ _ Hm) as Hk.
  assert (Hheap : heap st2 = heap st1).
  { revert Hw. unfold cache_set.
    destruct (valid_records st1 assets) as [records1 Hrec1].
    { unfold valid. rewrite Hl.
      exact (records_valid st assets records Hrec). }
    rewrite (bind_ok _ _ _ _ _ _
               (mapM_getAsset assets records1 st1 Hrec1)).
    unfold bind, emit, get_state, put_state. simpl.
    intros Hw. inversion Hw. reflexivity. }
  rewrite Hheap in Hrec2. clear Hw Hm Hl Hheap.
  revert records2 Hrec2.
  induction Hrec as [|r a assets records Hr _ IH];
    intros records2 Hrec2;
    inversion Hrec2 as [|r' y assets' l' Hy Hl]; subst;
    [split; reflexivity|].
  simpl. destruct (Hk r a Hr) as (a' & E' & K' & C').
  pose proof (eq_trans (eq_sym Hy) E') as Hs. inversion Hs; subst y.
  destruct (IH _ Hl) as [IH1 IH2].
  rewrite K', C', IH1, IH2. split; reflexivity.
Qed.

Lemma readable_contents (records records2 : list Asset) :
  map a_content records2 = map a_content records ->
  Forall (readable h) records -> Forall (readable h) records2.
Proof.
  revert records2. induction records as [|a records IH];
    intros [|a2 records2] Hc Hall; try discriminate Hc; constructor.
  - inversion Hall; subst. inversion Hc as [[Ha Hrest]].
    intros path Hp. rewrite Ha in Hp. auto.
  - inversion Hall; subst. inversion Hc as [[Ha Hrest]]. auto.
Qed.

(** X8.  With the cache enabled, a lookup made right after
    [writeToCache] for the same assets and configs computes the key the
    entry was written under, since committing changes neither path, hash
    nor type, and asks for the code of every asset.  The write was not
    awaited, so the schedule of the file system decides what the lookup
    returns: copies of the assets as they were committed when the write
    is complete, nothing when it is half done, and what the cache held
    under the key before when it has not begun. *)
Theorem lookup_after_write_races (assets : list ref) (records : list Asset)
    (configs : ConfigMap) (st : State) :
  cacheDisabled h = false ->
  Forall2 (fun r a => heap st !! r = Some a) assets records ->
  Forall (readable h) records ->
  inflight st !! cacheKeyOf h records configs = None ->
  exists st2 records2,
    fst (writeToCache h assets configs st) = (Ok tt, st2)
    /\ Forall2 (fun r a => heap st2 !! r = Some a) assets records2
    /\ readFromCache h assets configs st2
       = (let key := cacheKeyOf h records configs in
          let st3 := with_lookups (S (lookups st)) st2 in
          let evs := EvCacheGet key :: map EvGetCode assets in
          match race h key (lookups st) with
          | Landed =>
            (Ok (Some (seq (length (heap st)) (length assets))),
             with_heap (heap st2 ++ records2)
               (with_inflight (delete key (inflight st2)) st3), evs)
          | Torn => (Ok None, st3, evs)
          | NotStarted =>
            match artifacts st !! key with
            | Some old =>
              (Ok (Some (seq (length (heap st)) (length old))),
               with_heap (heap st2 ++ old) st3, evs)
            | None => (Ok None, st3, evs)
            end
          end).
Proof.
  intros Hon Hrec Hread Hfree.
  destruct (writeToCache_spec h assets records configs st Hrec)
    as (st2 & records2 & Hw & Hrec2 & Hart & Hlen & Hin & Hlk).
  exists st2, records2. rewrite Hw. split; [reflexivity|].
  split; [exact Hrec2|].
  destruct (writeToCache_records assets records records2 configs st st2 _
              Hrec Hw Hrec2) as [Hkeys Hcont].
  assert (Hkey : cacheKeyOf h records2 configs = cacheKeyOf h records configs)
    by (unfold cacheKeyOf; rewrite Hkeys; reflexivity).
  destruct (readFromCache_enabled h assets records2 configs st2 Hon Hrec2)
    as (resC & HC & ->).
  destruct (promiseAll_getCode h assets records2
              (with_lookups (S (lookups st2)) st2) Hrec2
              (readable_contents _ _ Hcont Hread)) as [codes HC'].
  rewrite HC' in HC. inversion HC; subst resC.
  rewrite Hkey, Hlk. rewrite Hfree in Hin.
  rewrite (cache_await_race h _ _ _ (artifacts st !! cacheKeyOf h records configs))
    by (simpl; rewrite Hin; apply lookup_insert_eq).
  cbv zeta. simpl heap. simpl artifacts. rewrite Hlen.
  rewrite Hart, lookup_insert_eq.
  rewrite <- (Forall2_length _ _ _ Hrec2).
  destruct (race h _ _); [destruct (artifacts st !! _)| |];
    rewrite ?app_nil_r; reflexivity.
Qed.

End CacheRoundTrip.

Lemma lookup_after_write_races_witness :
  exists st2 records2,
    fst (writeToCache basicHost [0%nat] [] (stateOf [jsAsset]))
    = (Ok tt, st2)
    /\ Forall2 (fun r a => heap st2 !! r = Some a) [0%nat] records2
    /\ fst (fst (readFromCache basicHost [0%nat] [] st2))
       = Ok (Some [1%nat])
    /\ fst (fst (readFromCache slowDiskHost [0%nat] [] st2)) = Ok None.
Proof.
  assert (Hrec : Forall2 (fun r a => heap (stateOf [jsAsset]) !! r = Some a)
                   [0%nat] [jsAsset])
    by (constructor; [reflexivity|constructor]).
  assert (Hread : forall hh, Forall (readable hh) [jsAsset]).
  { intros hh. constructor; [|constructor]. intros path Hp.
    discriminate Hp. }
  destruct (lookup_after_write_races basicHost [0%nat] [jsAsset] []
              (stateOf [jsAsset]) eq_refl Hrec (Hread _) eq_refl)
    as (st2 & records2 & Hw & Hrec2 & Hr).
  destruct (lookup_after_write_races slowDiskHost [0%nat] [jsAsset] []
              (stateOf [jsAsset]) eq_refl Hrec (Hread _) eq_refl)
    as (st2' & records2' & Hw' & Hrec2' & Hr').
  assert (st2' = st2).
  { change (writeToCache slowDiskHost [0%nat] [] (stateOf [jsAsset]))
      with (writeToCache basicHost [0%nat] [] (stateOf [jsAsset])) in Hw'.
    rewrite Hw in Hw'. inversion Hw'. reflexivity. }
  subst st2'.
  exists st2, records2. split; [exact Hw|]. split; [exact Hrec2|].
  rewrite Hr, Hr'. split; reflexivity.
Defined.

(** * The serializer registration *)

Section Serializer.

Context {T : Type}.
Variable s : Serializer T.
Variable packageVersion : string.

Lemma registerEach_ok (ctors : list CoreClass) (t t' : T) u calls :
  registerEach s packageVersion ctors t = (Ok u, t', calls) ->
  calls = registrationsOf s packageVersion ctors.
Proof.
  revert t calls. induction ctors as [|ctor rest IH]; intros t calls H.
  - inversion H. reflexivity.
  - simpl in H. unfold register in H.
    destruct (registerSerializableClass s _ ctor t) as [[u1|e] t1];
      [|discriminate H].
    destruct (registerEach s packageVersion rest t1)
      as [[res2 t2] calls2] eqn:E2.
    inversion H; subst. simpl. f_equal. exact (IH _ _ E2).
Qed.

(** A loop that throws has made the calls up to the one that threw. *)
Lemma registerEach_throw (ctors : list CoreClass) (t t' : T) e calls :
  registerEach s packageVersion ctors t = (Throw e, t', calls) ->
  exists k,
    (k < length ctors)%nat
    /\ calls = registrationsOf s packageVersion (take (S k) ctors).
Proof.
  revert t calls. induction ctors as [|ctor rest IH]; intros t calls H.
  - discriminate H.
  - simpl in H. unfold register in H.
    destruct (registerSerializableClass s _ ctor t) as [[u1|e1] t1].
    + destruct (registerEach s packageVersion rest t1)
        as [[res2 t2] calls2] eqn:E2.
      inversion H; subst. destruct (IH _ _ E2) as (k & Hk & ->).
      exists (S k). split; [simpl; lia|reflexivity].
    + inversion H; subst. exists 0%nat. split; [simpl; lia|].
      reflexivity.
Qed.

Lemma registerRepeatedly_registered (n : nat) (st : SerializerState T) :
  registered st = true ->
  registerRepeatedly s packageVersion n st = (Ok tt, st, []).
Proof.
  intros Hr. induction n as [|n IH]; [reflexivity|].
  simpl. unfold registerCoreWithSerializer. rewrite Hr. rewrite IH.
  reflexivity.
Qed.

(** X9.  The first call of [registerCoreWithSerializer] that returns
    has registered the nine classes, each once, in the order of the list
    and under the name [packageVersion:name]; however often it is called
    afterwards, it calls the serializer no more and changes nothing. *)
Theorem registration_happens_once (st st1 : SerializerState T)
    (calls : list Registration) (n : nat) :
  registered st = false ->
  registerCoreWithSerializer s packageVersion st = (Ok tt, st1, calls) ->
  calls = registrationsOf s packageVersion coreClasses
  /\ registerRepeatedly s packageVersion n st1 = (Ok tt, st1, []).
Proof.
  intros Hr H. unfold registerCoreWithSerializer in H. rewrite Hr in H.
  destruct (registerEach s packageVersion coreClasses (table st))
    as [[[u|e] t1] calls1] eqn:E; [|discriminate H].
  inversion H; subst. split.
  - exact (registerEach_ok _ _ _ _ _ E).
  - apply registerRepeatedly_registered. reflexivity.
Qed.

(** X10.  When a registration throws, [registered] stays unset and the
    registrations made before it stay in the serializer: the calls made
    are those for the classes up to the one that threw, and the next call
    of [registerCoreWithSerializer] starts again with the first class. *)
Theorem failed_registration_starts_over (st st1 : SerializerState T)
    (e : Error) (calls : list Registration) :
  registerCoreWithSerializer s packageVersion st = (Throw e, st1, calls) ->
  registered st1 = false
  /\ (exists k,
        (k < length coreClasses)%nat
        /\ calls = registrationsOf s packageVersion (take (S k) coreClasses))
  /\ exists more,
       snd (registerCoreWithSerializer s packageVersion st1)
       = (registeredName s packageVersion AssetClass, AssetClass) :: more.
Proof.
  intros H. unfold registerCoreWithSerializer in H.
  destruct (registered st) eqn:Hr; [discriminate H|].
  destruct (registerEach s packageVersion coreClasses (table st))
    as [[[u|e1] t1] calls1] eqn:E; [discriminate H|].
  inversion H; subst. split; [reflexivity|].
  split; [exact (registerEach_throw _ _ _ _ _ E)|].
  unfold registerCoreWithSerializer. simpl registered. cbv iota.
  unfold coreClasses.
  change (registerEach s packageVersion (AssetClass :: ?l) ?t)
    with (match register s packageVersion AssetClass t with
          | (Ok _, t1, calls1) =>
            match registerEach s packageVersion l t1 with
            | (res, t2, calls2) => (res, t2, calls1 ++ calls2)
            end
          | (Throw e, t1, calls1) => (Throw e, t1, calls1)
          end).
  unfold register. simpl table.
  destruct (registerSerializableClass s _ AssetClass t1) as [[u1|e2] t2].
  - destruct (registerEach s packageVersion _ t2) as [[[u2|e3] t3] calls3];
      simpl; eauto.
  - simpl. eauto.
Qed.

End Serializer.

Lemma registration_happens_once_witness :
  exists st1,
    registerCoreWithSerializer sampleSerializer "2.0.0"
      {| registered := false; table := [] |}
    = (Ok tt, st1, registrationsOf sampleSerializer "2.0.0" coreClasses)
    /\ registerRepeatedly sampleSerializer "2.0.0" 3 st1 = (Ok tt, st1, []).
Proof.
  destruct (registerCoreWithSerializer sampleSerializer "2.0.0"
              {| registered := false; table := [] |})
    as [[[[]|e] st1] calls] eqn:E; [|vm_compute in E; discriminate E].
  destruct (registration_happens_once sampleSerializer "2.0.0"
              {| registered := false; table := [] |} st1 calls
              3 eq_refl E) as [-> Hn].
  exists st1. split; [reflexivity|exact Hn].
Defined.

Lemma failed_registration_starts_over_witness :
  exists e st1 calls more,
    registerCoreWithSerializer sampleSerializer "2.0.0"
      {| registered := false; table := ["2.0.0:Config"] |}
    = (Throw e, st1, calls)
    /\ registered st1 = false
    /\ length calls = 3%nat
    /\ snd (registerCoreWithSerializer sampleSerializer "2.0.0" st1)
       = ("2.0.0:Asset", AssetClass) :: more.
Proof.
  destruct (registerCoreWithSerializer sampleSerializer "2.0.0"
              {| registered := false; table := ["2.0.0:Config"] |})
    as [[[[]|e] st1] calls] eqn:E; [vm_compute in E; discriminate E|].
  destruct (failed_registration_starts_over sampleSerializer "2.0.0" _ st1
              e calls E) as (Hr & _ & more & Hm).
  exists e, st1, calls, more. split; [reflexivity|]. split; [exact Hr|].
  split; [|exact Hm].
  vm_compute in E. inversion E. reflexivity.
Defined.

(** * Scope hoisting: names and references *)

Lemma string_app_assoc (a b c : string) :
  (a +:+ b) +:+ c = a +:+ (b +:+ c).
Proof.
  induction a as [|ch a IH]; [reflexivity|].
  change ((String ch a +:+ b) +:+ c) with (String ch ((a +:+ b) +:+ c)).
  rewrite IH. reflexivity.
Qed.

Lemma string_app_nil_r (a : string) : a +:+ "" = a.
Proof.
  induction a as [|ch a IH]; [reflexivity|].
  change (String ch a +:+ "") with (String ch (a +:+ "")).
  rewrite IH. reflexivity.
Qed.

Lemma js_join_snoc (sep : string) (l : list string) (x : string) :
  l <> [] -> js_join sep (l ++ [x]) = js_join sep l +:+ sep +:+ x.
Proof.
  induction l as [|a l IH]; [congruence|]. intros _.
  destruct l as [|b l]; [reflexivity|].
  change (js_join sep ((a :: b :: l) ++ [x]))
    with (a +:+ sep +:+ js_join sep ((b :: l) ++ [x])).
  rewrite IH by discriminate.
  change (js_join sep (a :: b :: l)) with (a +:+ sep +:+ js_join sep (b :: l)).
  rewrite !string_app_assoc. reflexivity.
Qed.

(** X11.  [getName] builds a name piece by piece: without further
    components it is [$id$type], and every further component appends
    ["$"] and the component, which is turned into an identifier unless it
    is ['default']; no separator is left at the end. *)
Theorem getName_extends (toIdentifier : string -> string)
    (assetId type : string) :
  getName toIdentifier assetId type []
  = "$" +:+ toIdentifier assetId +:+ "$" +:+ type
  /\ forall rest x,
       getName toIdentifier assetId type (rest ++ [x])
       = getName toIdentifier assetId type rest
         +:+ "$" +:+ nameComponent toIdentifier x.
Proof.
  split.
  - unfold getName. rewrite string_app_nil_r. reflexivity.
  - intros rest x. unfold getName. destruct rest as [|r0 rest].
    + simpl app. simpl map. simpl js_join.
      rewrite string_app_nil_r, !string_app_assoc. reflexivity.
    + change ((r0 :: rest) ++ [x]) with (r0 :: (rest ++ [x])).
      change (map (nameComponent toIdentifier) (r0 :: (rest ++ [x])))
        with (map (nameComponent toIdentifier) ((r0 :: rest) ++ [x])).
      rewrite map_app. simpl (map _ [x]).
      rewrite js_join_snoc by discriminate.
      destruct (rest ++ [x]) eqn:E; [destruct rest; discriminate E|].
      rewrite !string_app_assoc. reflexivity.
Qed.

Lemma findIndex_found {A} (test : A -> bool) (l : list A) :
  0 <= findIndex test l ->
  splice1 (findIndex test l) l = remove_first test l
  /\ (length (remove_first test l) + 1 = length l)%nat.
Proof.
  induction l as [|x l IH]; simpl; [lia|].
  destruct (test x); [intros _; split; [reflexivity|lia]|].
  destruct (Z.ltb_spec (findIndex test l) 0) as [Hlt|Hge]; [lia|].
  intros _. destruct (IH Hge) as [Hs Hl]. split; [|simpl; lia].
  unfold splice1 in *.
  replace (Z.to_nat (findIndex test l + 1))
    with (S (Z.to_nat (findIndex test l))) by lia.
  simpl. rewrite Hs. reflexivity.
Qed.

Lemma findIndex_missing {A} (test : A -> bool) (l : list A) :
  findIndex test l < 0 -> remove_first test l = l.
Proof.
  induction l as [|x l IH]; simpl; [reflexivity|].
  destruct (test x); [lia|].
  destruct (Z.ltb_spec (findIndex test l) 0) as [Hlt|Hge]; [|lia].
  intros _. rewrite (IH Hlt). reflexivity.
Qed.

(** X12.  [removeReference] takes at most one reference path away: of
    the binding the node's name resolves to, the first path that points to
    this very node, if there is one; the other paths keep their order, and
    the paths of every other binding are as before.  An unbound name
    changes nothing. *)
Theorem removeReference_paths (node : Node) (scope : Scope) (name : string) :
  referencePaths <$> (removeReference node scope !! name)
  = (fun b =>
       if String.eqb name (n_name node)
       then remove_first (same_node node) (referencePaths b)
       else referencePaths b) <$> (scope !! name).
Proof.
  unfold removeReference.
  destruct (scope !! n_name node) as [binding|] eqn:Eb.
  - cbv zeta.
    destruct (Z.geb_spec (findIndex (same_node node) (referencePaths binding))
                0) as [Hge|Hlt].
    + destruct (String.eqb_spec name (n_name node)) as [->|Hne].
      * rewrite lookup_insert_eq, Eb. simpl.
        rewrite (proj1 (findIndex_found _ _ Hge)). reflexivity.
      * rewrite lookup_insert_ne by congruence.
        destruct (scope !! name); reflexivity.
    + destruct (String.eqb_spec name (n_name node)) as [->|Hne].
      * rewrite Eb. simpl. rewrite findIndex_missing by lia. reflexivity.
      * destruct (scope !! name); reflexivity.
  - destruct (String.eqb_spec name (n_name node)) as [->|Hne].
    + rewrite Eb. reflexivity.
    + destruct (scope !! name); reflexivity.
Qed.

Lemma removeReference_counted (node : Node) (scope : Scope) :
  counts_consistent scope -> counts_consistent (removeReference node scope).
Proof.
  intros Hc name b. unfold removeReference.
  destruct (scope !! n_name node) as [binding|] eqn:Eb; [|apply Hc].
  cbv zeta.
  destruct (Z.geb_spec (findIndex (same_node node) (referencePaths binding))
              0) as [Hge|Hlt]; [|apply Hc].
  destruct (decide (n_name node = name)) as [<-|Hne].
  - rewrite lookup_insert_eq. intros Hb. inversion Hb; subst. clear Hb.
    destruct (Hc _ _ Eb) as [Hn _].
    destruct (findIndex_found (same_node node) (referencePaths binding)
                Hge) as [Hs Hl].
    unfold counted. simpl. rewrite Hs. split; [lia|reflexivity].
  - rewrite lookup_insert_ne by exact Hne. apply Hc.
Qed.

(** X13.  The walk of [removePathBindingRecursive] keeps the counters
    of every binding in step with its reference paths: if [references] is
    the number of reference paths and [referenced] says whether there is
    one before the walk, so they are after it, whatever identifiers the
    walk meets. *)
Theorem removeReferences_keep_counts (identifiers : list Node)
    (scope : Scope) :
  counts_consistent scope ->
  counts_consistent (removeReferences identifiers scope).
Proof.
  revert scope. unfold removeReferences.
  induction identifiers as [|node rest IH]; intros scope Hc; [exact Hc|].
  simpl. apply IH. apply removeReference_counted. exact Hc.
Qed.

Lemma removeReferences_keep_counts_witness :
  counts_consistent sampleScope
  /\ counts_consistent (removeReferences [nodeX2; nodeY; nodeX2] sampleScope)
  /\ removeReferences [nodeX2; nodeY; nodeX2] sampleScope !! "x"
     = Some (sampleBinding [plainPath nodeX1]).
Proof.
  assert (Hc : counts_consistent sampleScope).
  { intros name b Hb. unfold sampleScope in Hb.
    apply lookup_singleton_Some in Hb. destruct Hb as [_ <-].
    split; reflexivity. }
  split; [exact Hc|]. split.
  - exact (removeReferences_keep_counts [nodeX2; nodeY; nodeX2] sampleScope
             Hc).
  - vm_compute. reflexivity.
Defined.

(** * The views of an asset *)

Lemma construct_snoc (calls : list (ViewClass * ref)) (call : ViewClass * ref) :
  construct (calls ++ [call])
  = snd (newView (fst call) (snd call) (construct calls)).
Proof. unfold construct. rewrite fold_left_app. reflexivity. Qed.

Lemma construct_spec (calls : list (ViewClass * ref)) :
  length (view_objects (construct calls)) = length calls
  /\ forall object,
       weak_map (construct calls) !! object = snd <$> calls !! object
       /\ v_asset <$> view_objects (construct calls) !! object
          = snd <$> calls !! object.
Proof.
  induction calls as [|call calls IH] using rev_ind.
  - split; [reflexivity|]. intros object. split; reflexivity.
  - destruct IH as [Hlen Hmap]. rewrite construct_snoc. simpl.
    split; [rewrite !length_app, Hlen; reflexivity|].
    intros object. rewrite Hlen.
    destruct (decide (object = length calls)) as [->|Hne].
    + rewrite lookup_insert_eq.
      rewrite (lookup_app_r calls) by lia.
      rewrite lookup_app_r by lia.
      rewrite Hlen, Nat.sub_diag. split; reflexivity.
    + rewrite lookup_insert_ne by congruence.
      destruct (Hmap object) as [Hw Hv]. rewrite Hw.
      destruct (Nat.lt_ge_cases object (length calls)) as [Hlt|Hge].
      * rewrite (lookup_app_l calls) by exact Hlt.
        rewrite lookup_app_l by lia. split; [reflexivity|exact Hv].
      * rewrite (lookup_ge_None_2 calls) by exact Hge.
        rewrite (lookup_ge_None_2 (calls ++ [call]))
          by (rewrite length_app; simpl; lia).
        rewrite (lookup_ge_None_2 (_ ++ _))
          by (rewrite length_app; simpl; lia).
        split; reflexivity.
Qed.

(** X14.  However many views have been constructed, and of whichever
    of the three classes, [assetToInternalAsset] returns for each of them
    the internal asset it was constructed with, which is the one its
    private field holds; for any other object it throws. *)
Theorem assetToInternalAsset_of_view (calls : list (ViewClass * ref))
    (object : nat) :
  assetToInternalAsset object (construct calls)
  = match calls !! object with
    | Some call => Ok (snd call)
    | None => Throw NullThrows
    end
  /\ v_asset <$> view_objects (construct calls) !! object
     = snd <$> calls !! object.
Proof.
  destruct (construct_spec calls) as [_ Hmap].
  destruct (Hmap object) as [Hw Hv]. split; [|exact Hv].
  unfold assetToInternalAsset. rewrite Hw.
  destruct (calls !! object); reflexivity.
Qed.

(** * The Babel transformer in the pipeline *)

Lemma view_merge_same (a : Asset) : view_merge a a = a.
Proof. destruct a. reflexivity. Qed.

Lemma stored_same (r : ref) (a : Asset) (st : State) :
  heap st !! r = Some a -> stored r a st = st.
Proof.
  intros E. unfold stored, with_heap. rewrite list_insert_id by exact E.
  destruct st. reflexivity.
Qed.

(** X15.  A Babel stage that has no Babel config leaves an asset that
    carries no AST, or one Babel can reuse, exactly as it is: nothing is
    generated or parsed (the transformer has no [parse]), [transform] is
    the only hook called besides [canReuseAST], the store does not
    change, and the one result describes the asset itself. *)
Theorem babel_without_config_is_identity (h : Host) (b : BabelLib)
    (p : Pipeline) (r : ref) (a : Asset) (pre : HookConfig) (st : State) :
  heap st !! r = Some a ->
  (forall ast, a_ast a = Some ast -> babel_canReuseAST b ast = Ok true) ->
  (forall c, pre = Some c -> has_babel_config b c = false) ->
  runTransformer h p r (Some (BabelTransformer b)) pre st
  = (Ok (remember p r (BabelTransformer b) pre
           (resolveDependency h (a_env a)),
         [resultOfAsset a]),
     st,
     match a_ast a with
     | Some ast => [EvCanReuseAST ast]
     | None => []
     end ++ [EvTransform r a]).
Proof.
  intros E Hreuse Hconf.
  rewrite (runTransformer_unfold h p r (BabelTransformer b) pre pre st st a
             [] E eq_refl).
  assert (Ht : t_transform (BabelTransformer b) a pre
                 (resolveDependency h (a_env a)) = Ok (a, [OutView])).
  { simpl. unfold babel_transform. destruct pre as [c|]; [|reflexivity].
    rewrite (Hconf c eq_refl). reflexivity. }
  pose proof (transformStage_ok r (BabelTransformer b) pre
                (resolveDependency h (a_env a)) st a a [OutView] E Ht)
    as Hts.
  rewrite view_merge_same, (stored_same r a st E) in Hts. simpl in Hts.
  assert (Hparse : parseStage r (BabelTransformer b) pre
                     (resolveDependency h (a_env a)) st = (Ok tt, st, []))
    by (apply (parseStage_none r _ _ _ st a E); reflexivity).
  destruct (a_ast a) as [ast|] eqn:Hast.
  - rewrite (bind_ok _ _ _ _ _ _
               (reconcileAST_reuse p r (BabelTransformer b) st a ast _ E
                  Hast eq_refl (Hreuse ast eq_refl))).
    rewrite (bind_ok _ _ _ _ _ _ Hparse).
    rewrite (bind_ok _ _ _ _ _ _ Hts). reflexivity.
  - assert (Hrec : reconcileAST p r (BabelTransformer b) st = (Ok tt, st, [])).
    { unfold reconcileAST, bind. rewrite (getAsset_ok r a st E), Hast.
      reflexivity. }
    rewrite (bind_ok _ _ _ _ _ _ Hrec).
    rewrite (bind_ok _ _ _ _ _ _ Hparse).
    rewrite (bind_ok _ _ _ _ _ _ Hts). reflexivity.
Qed.

Lemma babel_without_config_is_identity_witness :
  runTransformer basicHost upperPipeline 0%nat
    (Some (BabelTransformer sampleBabelLib)) None (stateOf [jsAsset])
  = (Ok (remember upperPipeline 0%nat (BabelTransformer sampleBabelLib) None
           (resolveDependency basicHost "browser"),
         [resultOfAsset jsAsset]),
     stateOf [jsAsset], [EvTransform 0%nat jsAsset]).
Proof.
  apply (babel_without_config_is_identity basicHost sampleBabelLib
           upperPipeline 0%nat jsAsset None (stateOf [jsAsset]) eq_refl).
  - intros ast Hast. discriminate Hast.
  - intros c Hc. discriminate Hc.
Defined.

(** X16.  The Babel transformer has [loadConfig] and [rehydrateConfig]
    but no [load].  So when [loadPipeline] comes to it among the dev
    dependencies and its config asks to be reloaded and not rehydrated,
    the call of [plugin.load] fails with a TypeError, after the plugin
    was loaded and its config request recorded and made. *)
Theorem babel_reload_has_no_load (h : Host) (b : BabelLib)
    (parcelConfig : ParcelConfig) (filePath : FilePath) (configs : ConfigMap)
    (moduleName : PackageName) (config : Config) (st : State) :
  loadPlugin parcelConfig moduleName = Ok (BabelPlugin b) ->
  loadConfigCallback h
    (pluginRequest h filePath moduleName (resolvedPath parcelConfig))
    (parentNodeId h) = Ok config ->
  rehydrate (c_plain config) = false ->
  reload (c_plain config) = true ->
  loadPluginConfig h parcelConfig filePath configs moduleName st
  = (Throw (TypeError "plugin method is not a function"),
     with_configRequests
       (configRequests st
        ++ [pluginRequest h filePath moduleName (resolvedPath parcelConfig)])
       st,
     [EvLoadPlugin moduleName;
      EvLoadConfig
        (pluginRequest h filePath moduleName (resolvedPath parcelConfig))]).
Proof.
  intros Hplugin Hconfig Hre Hreload. unfold loadPluginConfig.
  rewrite (bind_ok _ _ st tt st [EvLoadPlugin moduleName] eq_refl).
  rewrite Hplugin.
  rewrite (bind_ok _ _ st (BabelPlugin b) st [] eq_refl).
  change (pl_loadConfig (BabelPlugin b)) with true. cbv iota.
  unfold loadTransformerConfig.
  fold (pluginRequest h filePath moduleName (resolvedPath parcelConfig)).
  assert (E : loadConfig h
                (pluginRequest h filePath moduleName
                   (resolvedPath parcelConfig)) st
              = (Ok config,
                 with_configRequests
                   (configRequests st
                    ++ [pluginRequest h filePath moduleName
                          (resolvedPath parcelConfig)]) st,
                 [EvLoadConfig
                    (pluginRequest h filePath moduleName
                       (resolvedPath parcelConfig))]))
    by (rewrite loadConfig_run, Hconfig; reflexivity).
  rewrite (bind_ok _ _ _ _ _ _ E). rewrite Hre, Hreload.
  change (pl_load (BabelPlugin b)) with (@None (PlainConfig -> Res PlainConfig)).
  reflexivity.
Qed.

Lemma babel_reload_has_no_load_witness :
  loadPluginConfig reloadHost babelParcelConfig "/src/a.js" [] "babel"
    emptyState
  = (Throw (TypeError "plugin method is not a function"),
     with_configRequests
       [pluginRequest reloadHost "/src/a.js" "babel" "/.parcelrc"] emptyState,
     [EvLoadPlugin "babel";
      EvLoadConfig
        (pluginRequest reloadHost "/src/a.js" "babel" "/.parcelrc")]).
Proof.
  exact (babel_reload_has_no_load reloadHost sampleBabelLib babelParcelConfig
           "/src/a.js" [] "babel" _ emptyState eq_refl eq_refl eq_refl
           eq_refl).
Defined.

(** * Tree shaking: the bindings reported as unused *)

Lemma some_of_false {A} (test : A -> option (Res bool)) (l : list A) :
  some_of test l = Some (Ok false) ->
  Forall (fun x => test x = Some (Ok false)) l.
Proof.
  induction l as [|x l IH]; [constructor|]. simpl.
  destruct (test x) as [[[|]|e]|] eqn:Ex; try discriminate.
  intros H. constructor; [exact Ex|exact (IH H)].
Qed.

Lemma isRealUse_false getUnused (path : NodePath) :
  isRealUse getUnused path = Some (Ok false) -> discounted path.
Proof.
  unfold isRealUse, discounted.
  destruct (isExportAssignment path); [auto|]. simpl.
  unfold isUnusedWildcard.
  destruct (isWildcardArgument path); [auto|]. discriminate.
Qed.

(** X17.  [getUnusedBinding] reports a binding as safe to remove only
    if [isPure] holds of it and it is either not referenced at all or
    every path that refers to it passes [isExportAssignment] (its parent
    is a member expression that is the left side of an assignment) or is
    the first argument of a call of [$parcel$exportWildcard]; this holds
    however deep the calls between [getUnusedBinding] and
    [isUnusedWildcard] go. *)
Theorem unused_binding_is_pure (fuel : nat) (bindings : list Binding)
    (getBinding : string -> option nat) (name : option string) (id : nat) :
  getUnusedBinding fuel bindings getBinding name = Some (Ok (Some id)) ->
  exists nm binding,
    name = Some nm /\ getBinding nm = Some id
    /\ bindings !! id = Some binding
    /\ isPure binding = true
    /\ (referenced binding = false
        \/ Forall discounted (referencePaths binding)).
Proof.
  destruct fuel as [|fuel]; [discriminate|]. simpl.
  destruct name as [nm|]; [|discriminate]. simpl.
  destruct (getBinding nm) as [id'|] eqn:Eg; [|discriminate].
  destruct (bindings !! id') as [binding|] eqn:Eb; [|discriminate].
  destruct (negb (referenced binding) && isPure binding) eqn:Hfree.
  - intros H. inversion H; subst id'.
    apply andb_prop in Hfree. destruct Hfree as [Hr Hp].
    exists nm, binding. repeat split; try assumption.
    left. destruct (referenced binding); [discriminate Hr|reflexivity].
  - destruct (some_of _ (referencePaths binding)) as [[bailout|e]|] eqn:Es;
      try discriminate.
    destruct (negb bailout && isPure binding) eqn:Hsafe; [|discriminate].
    intros H. inversion H; subst id'.
    apply andb_prop in Hsafe. destruct Hsafe as [Hb Hp].
    destruct bailout; [discriminate Hb|].
    exists nm, binding. repeat split; try assumption.
    right. eapply Forall_impl; [exact (some_of_false _ _ Es)|].
    simpl. intros path Hpath. exact (isRealUse_false _ _ Hpath).
Qed.

Lemma unused_binding_is_pure_witness :
  getUnusedBinding 2 shakeBindings shakeScope (Some "x")
  = Some (Ok (Some 0%nat))
  /\ exists nm binding,
       Some "x" = Some nm /\ shakeScope nm = Some 0%nat
       /\ shakeBindings !! 0%nat = Some binding
       /\ isPure binding = true
       /\ (referenced binding = false
           \/ Forall discounted (referencePaths binding)).
Proof.
  split; [reflexivity|].
  exact (unused_binding_is_pure 2 shakeBindings shakeScope (Some "x") 0%nat
           eq_refl).
Defined.

(** A binding that is read somewhere is kept. *)
Example read_binding_is_kept :
  getUnusedBinding 2 shakeBindings shakeScope (Some "y") = Some (Ok None).
Proof. reflexivity. Qed.

(** * A run without cache lookups *)

(** X18.  When the cache option is false or the request carries inline
    code, a whole run, through every pipeline it jumps to and both
    lookups of each, never asks the artifact cache for an entry. *)
Theorem disabled_cache_is_never_read (h : Host) (fuel : nat) (st : State) :
  cacheDisabled h = true ->
  Forall (fun e => cache_lookup e = false) (events_of (run h fuel st)).
Proof.
  intros Hoff.
  destruct (run h fuel st) as [[[res st'] ev]|] eqn:E; [|constructor].
  simpl.
  refine (proj2 (respectsF_run h (fun _ _ => True)
                   (fun e => cache_lookup e = false)
                   (fun _ => True) _ _ _ _ _ _ _ _ _ _ _ _ _ _ _ _ _
                   fuel st res st' ev E));
    try (intros; exact I); try (intros; reflexivity).
  - intros e _ He. exact He.
  - intros key Hon. rewrite Hoff in Hon. discriminate Hon.
Qed.

Lemma disabled_cache_is_never_read_witness :
  cacheDisabled astOffHost = true
  /\ run astOffHost 3 emptyState <> None
  /\ Forall (fun e => cache_lookup e = false)
       (events_of (run astOffHost 3 emptyState)).
Proof.
  split; [reflexivity|]. split; [vm_compute; discriminate|].
  exact (disabled_cache_is_never_read astOffHost 3 emptyState eq_refl).
Defined.

(** * The next pipeline of a path with an extension *)

(** X19.  For a path that ends in its extension, [loadNextPipeline] is
    [loadPipeline] for the path with the extension replaced by the new
    type: it makes the same calls and records the same config requests,
    also when it then answers null because the pipeline it loaded has the
    id of the current one. *)
Theorem next_pipeline_for_replaced_extension (h : Host)
    (stem ext type : string) (p : Pipeline) (st : State) :
  extname (stem +:+ ext) = ext ->
  ext <> "" ->
  loadNextPipeline h (stem +:+ ext) type p st
  = (let '(res, st', ev) := loadPipeline h (replace_extension stem type) st in
     (match res with
      | Ok next =>
        Ok (if String.eqb (p_id next) (p_id p) then None else Some next)
      | Throw e => Throw e
      end, st', ev)).
Proof.
  intros Hext Hne. unfold loadNextPipeline, bind.
  rewrite (nextFilePath_replaces_extension stem ext type Hext Hne).
  destruct (loadPipeline h (replace_extension stem type) st)
    as [[[next|e] st'] ev]; [|reflexivity].
  destruct (String.eqb (p_id next) (p_id p)); simpl; rewrite app_nil_r;
    reflexivity.
Qed.

Lemma next_pipeline_for_replaced_extension_witness :
  extname ("/src/a" +:+ ".ts") = ".ts"
  /\ replace_extension "/src/a" "js" = "/src/a.js"
  /\ fst (fst (loadNextPipeline splitHost ("/src/a" +:+ ".ts") "js"
                 upperPipeline emptyState))
     = Ok None
  /\ map cr_filePath
       (configRequests
          (snd (fst (loadNextPipeline splitHost ("/src/a" +:+ ".ts") "js"
                       upperPipeline emptyState))))
     = ["/src/a.js"].
Proof.
  split; [reflexivity|]. split; [reflexivity|].
  rewrite (next_pipeline_for_replaced_extension splitHost "/src/a" ".ts"
             "js" upperPipeline emptyState eq_refl);
    [|discriminate].
  split; vm_compute; reflexivity.
Defined.

(** * What [Pipeline.transform] changes of the pipeline *)

Lemma same_pipeline_refl (p : Pipeline) : same_pipeline p p.
Proof. repeat split. auto. Qed.

Lemma same_pipeline_trans (p1 p2 p3 : Pipeline) :
  same_pipeline p1 p2 -> same_pipeline p2 p3 -> same_pipeline p1 p3.
Proof.
  intros (A1 & B1 & C1 & D1) (A2 & B2 & C2 & D2).
  repeat split; try congruence. auto.
Qed.

Lemma same_pipeline_remember (p : Pipeline) (r : ref) (t : Transformer)
    (config : HookConfig) (resolve : ResolveFn) :
  same_pipeline p (remember p r t config resolve).
Proof.
  unfold remember. destruct (t_postProcess t); repeat split; simpl; auto;
    discriminate.
Qed.

Lemma runTransformer_pipeline (h : Host) (p : Pipeline) (r : ref)
    (t : option Transformer) (pre : HookConfig) st p' results st' ev :
  runTransformer h p r t pre st = (Ok (p', results), st', ev) ->
  same_pipeline p p'.
Proof.
  unfold runTransformer. destruct t as [t|]; [|discriminate].
  intros H. apply bind_inv_ok in H.
  destruct H as (a & s1 & e1 & e2 & _ & H & _).
  apply bind_inv_ok in H. destruct H as (config & s2 & e3 & e4 & _ & H & _).
  apply bind_inv_ok in H. destruct H as (u1 & s3 & e5 & e6 & _ & H & _).
  apply bind_inv_ok in H. destruct H as (u2 & s4 & e7 & e8 & _ & H & _).
  apply bind_inv_ok in H. destruct H as (res & s5 & e9 & e10 & _ & H & _).
  inversion H; subst. apply same_pipeline_remember.
Qed.

Lemma runStage_pipeline (h : Host) (p : Pipeline) (ty : string)
    (t : TransformerWithNameAndConfig) (inputs : list ref)
    st p' fin res st' ev :
  runStage h p ty t inputs st = (Ok (p', fin, res), st', ev) ->
  same_pipeline p p'.
Proof.
  revert p st p' fin res st' ev.
  induction inputs as [|r inputs IH]; intros p st p' fin res st' ev H.
  - inversion H; subst. apply same_pipeline_refl.
  - simpl in H. apply bind_inv_ok in H.
    destruct H as (a & s1 & e1 & e2 & _ & H & _).
    destruct (negb (String.eqb (a_type a) ty)).
    + apply bind_inv_ok in H.
      destruct H as ([[p2 fin2] res2] & s2 & e3 & e4 & H2 & H & _).
      inversion H; subst. exact (IH _ _ _ _ _ _ _ H2).
    + apply bind_inv_ok in H.
      destruct H as ([p1 results] & s2 & e3 & e4 & H2 & H & _).
      apply bind_inv_ok in H.
      destruct H as (children & s3 & e5 & e6 & _ & H & _).
      apply bind_inv_ok in H.
      destruct H as ([[p2 fin2] res2] & s4 & e7 & e8 & H4 & H & _).
      inversion H; subst. simpl in *.
      eapply same_pipeline_trans;
        [exact (runTransformer_pipeline _ _ _ _ _ _ _ _ _ _ H2)|].
      exact (IH _ _ _ _ _ _ _ H4).
Qed.

Lemma runStages_pipeline (h : Host) (p : Pipeline) (ty : string)
    (ts : list TransformerWithNameAndConfig) (inputs fin0 : list ref)
    (res0 : option (list ref)) st p' fin res st' ev :
  runStages h p ty ts inputs fin0 res0 st = (Ok (p', fin, res), st', ev) ->
  same_pipeline p p'.
Proof.
  revert p inputs fin0 res0 st p' fin res st' ev.
  induction ts as [|t ts IH];
    intros p inputs fin0 res0 st p' fin res st' ev H.
  - inversion H; subst. apply same_pipeline_refl.
  - simpl in H. apply bind_inv_ok in H.
    destruct H as ([[p1 fin1] res1] & s1 & e1 & e2 & H1 & H & _).
    eapply same_pipeline_trans;
      [exact (runStage_pipeline _ _ _ _ _ _ _ _ _ _ _ H1)|].
    exact (IH _ _ _ _ _ _ _ _ _ _ H).
Qed.

(** A stage leaves the closure that was remembered, or the closure of
    its own transformer. *)
Lemma runStage_slot (h : Host) (p : Pipeline) (ty : string)
    (t : TransformerWithNameAndConfig) (inputs : list ref)
    st p' fin res st' ev :
  runStage h p ty t inputs st = (Ok (p', fin, res), st', ev) ->
  p_generate p' = p_generate p
  \/ exists t0 g,
       tn_plugin t = Some t0 /\ p_generate p' = Some g
       /\ gf_transformer g = t0.
Proof.
  revert p st p' fin res st' ev.
  induction inputs as [|r inputs IH]; intros p st p' fin res st' ev H.
  - inversion H; subst. left. reflexivity.
  - simpl in H. apply bind_inv_ok in H.
    destruct H as (a & s1 & e1 & e2 & _ & H & _).
    destruct (negb (String.eqb (a_type a) ty)).
    + apply bind_inv_ok in H.
      destruct H as ([[p2 fin2] res2] & s2 & e3 & e4 & H2 & H & _).
      inversion H; subst. exact (IH _ _ _ _ _ _ _ H2).
    + apply bind_inv_ok in H.
      destruct H as ([p1 results] & s2 & e3 & e4 & H2 & H & _).
      apply bind_inv_ok in H.
      destruct H as (children & s3 & e5 & e6 & _ & H & _).
      apply bind_inv_ok in H.
      destruct H as ([[p2 fin2] res2] & s4 & e7 & e8 & H4 & H & _).
      inversion H; subst. simpl in *.
      destruct (tn_plugin t) as [t0|] eqn:Et; [|discriminate H2].
      destruct (runTransformer_remembers _ _ _ _ _ _ _ _ _ _ H2)
        as (g & Hg & Hgt).
      right. exists t0.
      destruct (IH _ _ _ _ _ _ _ H4) as [Hsame|(t1 & g1 & E1 & Hg1 & Hgt1)].
      * exists g. rewrite Hsame. auto.
      * inversion E1; subst t1. exists g1. auto.
Qed.

(** When the first input has the initial type the transformer runs. *)
Lemma runStage_slot_first (h : Host) (p : Pipeline)
    (t : TransformerWithNameAndConfig) (r : ref) (a : Asset)
    st p' fin res st' ev :
  heap st !! r = Some a ->
  runStage h p (a_type a) t [r] st = (Ok (p', fin, res), st', ev) ->
  exists t0 g,
    tn_plugin t = Some t0 /\ p_generate p' = Some g /\ gf_transformer g = t0.
Proof.
  intros E H. simpl in H.
  rewrite (bind_ok _ _ _ _ _ _ (getAsset_ok r a st E)) in H.
  rewrite String.eqb_refl in H. change (negb true) with false in H.
  cbv iota in H.
  destruct (bind _ _ st) as [[res0 st0] ev0] eqn:Hb in H.
  inversion H; subst. clear H.
  apply bind_inv_ok in Hb.
  destruct Hb as ([p1 results] & s2 & e3 & e4 & H2 & H & _).
  apply bind_inv_ok in H.
  destruct H as (children & s3 & e5 & e6 & _ & H & _).
  apply bind_inv_ok in H.
  destruct H as ([[p2 fin2] res2] & s4 & e7 & e8 & H4 & H & _).
  inversion H4; subst. inversion H; subst. simpl in *.
  destruct (tn_plugin t) as [t0|] eqn:Et; [|discriminate H2].
  destruct (runTransformer_remembers _ _ _ _ _ _ _ _ _ _ H2)
    as (g & Hg & Hgt).
  exists t0, g. auto.
Qed.

Lemma runStages_slot (h : Host) (p : Pipeline) (ty : string)
    (ts : list TransformerWithNameAndConfig) (inputs fin0 : list ref)
    (res0 : option (list ref)) st p' fin res st' ev :
  runStages h p ty ts inputs fin0 res0 st = (Ok (p', fin, res), st', ev) ->
  p_generate p' = p_generate p
  \/ exists stage t0 g,
       In stage ts /\ tn_plugin stage = Some t0 /\ p_generate p' = Some g
       /\ gf_transformer g = t0.
Proof.
  revert p inputs fin0 res0 st p' fin res st' ev.
  induction ts as [|t ts IH];
    intros p inputs fin0 res0 st p' fin res st' ev H.
  - inversion H; subst. left. reflexivity.
  - rewrite runStages_cons in H. apply bind_inv_ok in H.
    destruct H as ([[p1 fin1] res1] & s1 & e1 & e2 & H1 & H & _).
    simpl in H.
    destruct (IH _ _ _ _ _ _ _ _ _ _ H)
      as [Hsame|(stage & t0 & g & Hin & Et & Hg & Hgt)].
    + destruct (runStage_slot _ _ _ _ _ _ _ _ _ _ _ H1)
        as [Hsame1|(t0 & g & Et & Hg & Hgt)].
      * left. congruence.
      * right. exists t, t0, g. rewrite Hsame. repeat split; auto.
        left. reflexivity.
    + right. exists stage, t0, g. repeat split; auto. right. exact Hin.
Qed.

(** X20.  Of the pipeline, [Pipeline.transform] changes the remembered
    closures only: the id [loadNextPipeline] compares, the transformers
    and the configs the cache keys are computed from are those the
    pipeline was constructed with, and a [postProcess] once remembered is
    never cleared by a transformer that has none.  The generate slot is
    replaced by every call of [runTransformer] that returns: when
    [Pipeline.transform] returns, it holds the closure of one of the
    pipeline's own transformers, whatever it held before. *)
Theorem transform_keeps_pipeline (h : Host) (p p' : Pipeline) (r : ref)
    (st st' : State) (assets : list ref) (ev : list Event) :
  Pipeline_transform h p r st = (Ok (p', assets), st', ev) ->
  same_pipeline p p'
  /\ (exists stage t g,
        In stage (p_transformers p) /\ tn_plugin stage = Some t
        /\ p_generate p' = Some g /\ gf_transformer g = t)
  /\ (forall q r1 t pre s q1 results s1 ev1,
        runTransformer h q r1 (Some t) pre s = (Ok (q1, results), s1, ev1) ->
        exists g, p_generate q1 = Some g /\ gf_transformer g = t).
Proof.
  intros H. split; [|split].
  - unfold Pipeline_transform in H.
    apply bind_inv_ok in H. destruct H as (a & s1 & e1 & e2 & _ & H & _).
    apply bind_inv_ok in H.
    destruct H as ([[p1 fin] res] & s2 & e3 & e4 & H2 & H & _).
    simpl in H. unfold finishTransform in H.
    apply bind_inv_ok in H. destruct H as (rs & s3 & e5 & e6 & _ & H & _).
    inversion H; subst.
    exact (runStages_pipeline _ _ _ _ _ _ _ _ _ _ _ _ _ H2).
  - unfold Pipeline_transform in H.
    apply bind_inv_ok in H. destruct H as (a & s1 & e1 & e2 & Ha & H & _).
    apply getAsset_inv in Ha. destruct Ha as (Ea & -> & _).
    apply bind_inv_ok in H.
    destruct H as ([[p1 fin] res] & s2 & e3 & e4 & H2 & H & _).
    simpl in H. unfold finishTransform in H.
    apply bind_inv_ok in H. destruct H as (rs & s3 & e5 & e6 & HF & H & _).
    inversion H; subst. clear H.
    destruct (p_transformers p) as [|t ts] eqn:Ets.
    + inversion H2; subst. simpl in HF. discriminate HF.
    + rewrite runStages_cons in H2. apply bind_inv_ok in H2.
      destruct H2 as ([[p2 fin2] res2] & s4 & e7 & e8 & H1 & H2 & _).
      simpl in H2.
      destruct (runStage_slot_first _ _ _ _ _ _ _ _ _ _ _ Ea H1)
        as (t0 & g & Et & Hg & Hgt).
      destruct (runStages_slot _ _ _ _ _ _ _ _ _ _ _ _ _ H2)
        as [Hsame|(stage & t1 & g1 & Hin & Et1 & Hg1 & Hgt1)].
      * exists t, t0, g. rewrite Hsame. repeat split; auto.
        left. reflexivity.
      * exists stage, t1, g1. repeat split; auto. right. exact Hin.
  - intros q r1 t pre s q1 results s1 ev1 Hrun.
    exact (runTransformer_remembers _ _ _ _ _ _ _ _ _ _ Hrun).
Qed.

Lemma transform_keeps_pipeline_witness :
  exists p' st' ev,
    Pipeline_transform basicHost
      (set_postProcess postClosure upperPipeline) 0%nat (stateOf [jsAsset])
    = (Ok (p', [1%nat]), st', ev)
    /\ same_pipeline (set_postProcess postClosure upperPipeline) p'
    /\ exists stage t g,
         In stage (p_transformers (set_postProcess postClosure upperPipeline))
         /\ tn_plugin stage = Some t
         /\ p_generate p' = Some g /\ gf_transformer g = t.
Proof.
  destruct (Pipeline_transform basicHost
              (set_postProcess postClosure upperPipeline) 0%nat
              (stateOf [jsAsset])) as [[[[p' assets]|e] st'] ev] eqn:E;
    [|vm_compute in E; discriminate E].
  assert (Ha : assets = [1%nat])
    by (vm_compute in E; inversion E; reflexivity).
  subst assets. exists p', st', ev. split; [reflexivity|].
  destruct (transform_keeps_pipeline basicHost _ p' 0%nat _ st' [1%nat] ev E)
    as (Hsame & Hslot & _).
  split; [exact Hsame|exact Hslot].
Defined.

(** * A failure writes no cache entry *)

Section FailedWrite.

Variable h : Host.












End FailedWrite.

